(** * Sleeper integration: scheduler, snapshot builder, refresh cycle

    A shallow embedding of the Home Assistant [sleeper] custom component
    ([const.py], [models.py], [coordinator.py], [sensor.py]) and the
    properties of its specification that can be stated over it.

    Conventions.
    - Python [int] is [Z]; [str] is [string]; [T | None] is [option T].
    - A [timedelta] is its number of seconds.
    - A Python [float] is a [float]: the rational a finite one is, an
      infinity or NaN; float arithmetic rounds to the nearest binary64
      number.
    - A [dict] used as a map is a [gmap]; a JSON object of a payload is an
      association list read by first match. *)

From Stdlib Require Import ZArith QArith Lia DecimalString DecimalZ.
From stdpp Require Import base gmap strings list fin_maps sorting.

Local Open Scope string_scope.
Local Open Scope list_scope.
Local Open Scope Z_scope.

(* ===================================================================== *)
(** ** const.py *)
(* ===================================================================== *)

Definition timedelta := Z.

Definition minutes (n : Z) : timedelta := 60 * n.
Definition hours (n : Z) : timedelta := 3600 * n.

Definition UPDATE_INTERVAL_GAME_WINDOW : timedelta := minutes 5.
Definition UPDATE_INTERVAL_GAME_DAY : timedelta := minutes 15.
Definition UPDATE_INTERVAL_REGULAR : timedelta := hours 1.
Definition UPDATE_INTERVAL_OFFSEASON : timedelta := hours 24.

Definition CONF_LEAGUE_ID : string := "league_id".
Definition CONF_USER_ID : string := "user_id".

(* ===================================================================== *)
(** ** coordinator.py: the polling scheduler *)
(* ===================================================================== *)

(** What [datetime.now(EASTERN)] is read for: [weekday()] (0 = Monday,
    ..., 6 = Sunday) and [hour]. *)
Record datetime := { weekday : Z; hour : Z }.

(** [season_type in ("regular", "post")] *)
Definition in_regular_post (season_type : string) : bool :=
  (season_type =? "regular")%string || (season_type =? "post")%string.

Definition _is_game_day (day_of_week week : Z) (season_type : string) : bool :=
  if (day_of_week =? 0) || (day_of_week =? 3) || (day_of_week =? 6) then true
  else if (day_of_week =? 5)
          && ((week >=? 15) || (season_type =? "post")%string) then true
  else false.

Definition _is_in_game_window
    (day_of_week hour week : Z) (season_type : string) : bool :=
  if (day_of_week =? 3) && (hour >=? 19) then true
  else if (day_of_week =? 6) && (hour >=? 12) then true
  else if (day_of_week =? 0) && (hour >=? 19) then true
  else if (day_of_week =? 5) && (hour >=? 12)
          && ((week >=? 15) || (season_type =? "post")%string) then true
  else false.

(** [now_et] is the value [datetime.now(EASTERN)] returns when it is read. *)
Definition _calculate_update_interval
    (season_type : string) (week : Z) (now_et : datetime) : timedelta :=
  if (season_type =? "off")%string then UPDATE_INTERVAL_OFFSEASON
  else if negb (in_regular_post season_type) then UPDATE_INTERVAL_REGULAR
  else
    let day_of_week := weekday now_et in
    let hour := hour now_et in
    if _is_in_game_window day_of_week hour week season_type
    then UPDATE_INTERVAL_GAME_WINDOW
    else if _is_game_day day_of_week week season_type
    then UPDATE_INTERVAL_GAME_DAY
    else UPDATE_INTERVAL_REGULAR.

(** *** The scheduler as the specification words it *)

Inductive Day :=
  Monday | Tuesday | Wednesday | Thursday | Friday | Saturday | Sunday.

(** Python's [weekday()] numbering. *)
Definition weekday_of (d : Day) : Z :=
  match d with
  | Monday => 0 | Tuesday => 1 | Wednesday => 2 | Thursday => 3
  | Friday => 4 | Saturday => 5 | Sunday => 6
  end.

Definition at_time (d : Day) (h : Z) : datetime :=
  {| weekday := weekday_of d; hour := h |}.

Global Instance Day_eq_dec : EqDecision Day.
Proof. solve_decision. Defined.

Definition late_saturday_games (season_type : string) (week : Z) : Prop :=
  15 <= week \/ season_type = "post".

Definition spec_in_game_window
    (season_type : string) (week : Z) (d : Day) (h : Z) : Prop :=
  (d = Thursday /\ 19 <= h) \/
  (d = Sunday /\ 12 <= h) \/
  (d = Monday /\ 19 <= h) \/
  (d = Saturday /\ 12 <= h /\ late_saturday_games season_type week).

Definition spec_is_game_day
    (season_type : string) (week : Z) (d : Day) : Prop :=
  d = Thursday \/ d = Sunday \/ d = Monday \/
  (d = Saturday /\ late_saturday_games season_type week).

Global Instance late_saturday_games_dec st week :
  Decision (late_saturday_games st week).
Proof. unfold late_saturday_games. apply _. Defined.

Global Instance spec_in_game_window_dec st week d h :
  Decision (spec_in_game_window st week d h).
Proof. unfold spec_in_game_window. apply _. Defined.

Global Instance spec_is_game_day_dec st week d :
  Decision (spec_is_game_day st week d).
Proof. unfold spec_is_game_day. apply _. Defined.

(** The four cadences, in seconds. *)
Definition short_cadence : timedelta := 5 * 60.
Definition medium_cadence : timedelta := 15 * 60.
Definition default_cadence : timedelta := 60 * 60.
Definition off_season_cadence : timedelta := 24 * 60 * 60.

Definition spec_next_interval
    (season_type : string) (week : Z) (d : Day) (h : Z) : timedelta :=
  if decide (season_type = "off") then off_season_cadence
  else if decide (season_type <> "regular" /\ season_type <> "post")
  then default_cadence
  else if decide (spec_in_game_window season_type week d h)
  then short_cadence
  else if decide (spec_is_game_day season_type week d)
  then medium_cadence
  else default_cadence.

(* ===================================================================== *)
(** ** Python [float] *)
(* ===================================================================== *)

(** A [float] is an IEEE 754 binary64 number: a finite number, an infinity
    or NaN.  A finite float is given by the rational it is; there are more
    rationals than floats, so what holds for every [Finite q] holds for the
    floats among them, and what arithmetic returns is rounded to a float.
    The sign of a zero is not kept: neither [<], [==] nor the truth value
    sees it. *)
Inductive float :=
| Finite (q : Q)
| Inf (negative : bool)
| NaN.

Definition is_nan (x : float) : bool :=
  match x with
  | NaN => true
  | _ => false
  end.

Definition is_finite (x : float) : bool :=
  match x with
  | Finite _ => true
  | _ => false
  end.

(** [<] on [float]: false as soon as one side is NaN. *)
Definition float_ltb (x y : float) : bool :=
  match x, y with
  | NaN, _ | _, NaN => false
  | Finite a, Finite b =>
      match (a ?= b)%Q with
      | Lt => true
      | _ => false
      end
  | Inf true, Inf true => false
  | Inf true, _ => true
  | _, Inf true => false
  | Inf false, _ => false
  | Finite _, Inf false => true
  end.

(** [==] on [float]: NaN equals nothing, itself included. *)
Definition float_eqb (x y : float) : bool :=
  match x, y with
  | Finite a, Finite b => Qeq_bool a b
  | Inf s, Inf t => Bool.eqb s t
  | _, _ => false
  end.

(** [<=] on [float]. *)
Definition float_leb (x y : float) : bool := float_ltb x y || float_eqb x y.

(** *** Rounding *)

(** The integer nearest to [n / d], the even one of two that are as near
    ([0 <= n], [0 < d]). *)
Definition round_half_even (n d : Z) : Z :=
  let q := n / d in
  match (2 * (n mod d) ?= d) with
  | Lt => q
  | Gt => q + 1
  | Eq => if Z.even q then q else q + 1
  end.

(** The integer [e] with [2 ^ e <= n / d < 2 ^ (e + 1)] ([0 < n],
    [0 < d]). *)
Definition floor_log2 (n d : Z) : Z :=
  let e := Z.log2 n - Z.log2 d in
  if (if 0 <=? e then d * 2 ^ e <=? n else d <=? n * 2 ^ (- e))
  then e else e - 1.

(** The float nearest to a rational, ties to even: 53 significant bits,
    no unit in the last place below [2 ^ -1074], and an infinity from
    [2 ^ 1024] on. *)
Definition float_round (q : Q) : float :=
  let n := Z.abs (Qnum q) in
  let d := Z.pos (Qden q) in
  if n =? 0 then Finite 0
  else
    let u := Z.max (floor_log2 n d - 52) (-1074) in
    let m := if 0 <=? u then round_half_even n (d * 2 ^ u)
             else round_half_even (n * 2 ^ (- u)) d in
    let negative := Qnum q <? 0 in
    if (0 <=? u) && (2 ^ 1024 <=? m * 2 ^ u) then Inf negative
    else Finite (Qred (inject_Z (if negative then - m else m)
                       * Qpower (2 # 1) u)).

(** *** Arithmetic *)

(** [x + y] on floats. *)
Definition float_add (x y : float) : float :=
  match x, y with
  | NaN, _ | _, NaN => NaN
  | Inf s, Inf t => if Bool.eqb s t then Inf s else NaN
  | Inf s, Finite _ | Finite _, Inf s => Inf s
  | Finite a, Finite b => float_round (a + b)
  end.

(** [x / y] on floats, for [y] that is not zero (Python raises
    [ZeroDivisionError] before it divides by a zero). *)
Definition float_div (x y : float) : float :=
  match x, y with
  | NaN, _ | _, NaN => NaN
  | Inf _, Inf _ => NaN
  | Inf s, Finite b => Inf (xorb s (Qnum b <? 0))
  | Finite _, Inf _ => Finite 0
  | Finite a, Finite b => float_round (a / b)
  end.

(** [float(z)] for an [int]: the nearest float; [None] stands for the
    [OverflowError] Python raises when there is none ("int too large to
    convert to float"). *)
Definition float_of_int (z : Z) : option float :=
  match float_round (inject_Z z) with
  | Finite q => Some (Finite q)
  | _ => None
  end.

(** [a / b] for two [int], [b] not zero: the float nearest to the quotient;
    [None] stands for the [OverflowError] ("integer division result too
    large for a float"). *)
Definition int_truediv (a b : Z) : option float :=
  match float_round (inject_Z a / inject_Z b) with
  | Finite q => Some (Finite q)
  | _ => None
  end.
(* ===================================================================== *)
(** ** Python built-ins the component relies on *)
(* ===================================================================== *)

(** Truth value of a [str]: only the empty string is false. *)
Definition truthy_str (s : string) : bool := negb (s =? "")%string.

(** Truth value of a [str | None]. *)
Definition truthy_opt_str (o : option string) : bool :=
  match o with
  | Some s => truthy_str s
  | None => false
  end.

(** [<] on tuples [(int, float)]: the first components that differ decide;
    equal tuples are not below one another.  (Python takes two components
    for equal also when they are one object; for [<] this changes nothing,
    a NaN being below nothing.) *)
Definition tuple_ltb (a b : Z * float) : bool :=
  if negb (a.1 =? b.1) then a.1 <? b.1
  else if negb (float_eqb a.2 b.2) then float_ltb a.2 b.2
  else false.

(** [==] on tuples [(int, float)]. *)
Definition tuple_eqb (a b : Z * float) : bool :=
  (a.1 =? b.1) && float_eqb a.2 b.2.

(** [sorted(l, key=key, reverse=reverse)].  The built-in is documented to be
    stable, and with [reverse] to sort "as if each comparison were reversed"
    while keeping elements of equal key in their original order.  It is
    modelled by insertion from the right: an element moves past those that
    must come strictly before it, and stops in front of the first one that
    need not.  Where [<] orders the keys of the list, this is the one stable
    sort there is; where it does not (a NaN among keys that are otherwise
    equal), the built-in returns a permutation that depends on how it
    merges, and the insertion stands for it as a permutation only. *)
Section Sorted.
Context {A K : Type}.
Variable ltb : K -> K -> bool.
Variable key : A -> K.
Variable reverse : bool.

Definition comes_before (a b : A) : bool :=
  if reverse then ltb (key b) (key a) else ltb (key a) (key b).

Fixpoint insert_sorted (x : A) (l : list A) : list A :=
  match l with
  | [] => [x]
  | y :: l' =>
      if comes_before y x then y :: insert_sorted x l' else x :: y :: l'
  end.

Definition sorted (l : list A) : list A := foldr insert_sorted [] l.

End Sorted.

(* ===================================================================== *)
(** ** models.py: the records, as their annotations type them *)
(* ===================================================================== *)

Module NflState.
Record t := mk { week : Z; season : string; season_type : string }.
End NflState.

Module LeagueInfo.
Record t := mk {
  league_id : string;
  name : string;
  status : string;
  season : string;
  total_rosters : Z
}.
End LeagueInfo.

Module Roster.
Record t := mk {
  roster_id : Z;
  owner_id : option string;
  wins : Z;
  losses : Z;
  ties : Z;
  fpts : float;
  fpts_against : float;
  waiver_position : Z;
  total_moves : Z
}.
End Roster.

Module LeagueUser.
Record t := mk {
  user_id : string;
  display_name : string;
  team_name : option string
}.
End LeagueUser.

Module Matchup.
Record t := mk { roster_id : Z; matchup_id : option Z; points : float }.
End Matchup.

Module SleeperData.

Record t := mk {
  nfl_state : NflState.t;
  league : LeagueInfo.t;
  rosters : list Roster.t;
  users : list LeagueUser.t;
  matchups : list Matchup.t;
  roster_to_user : gmap Z LeagueUser.t;
  standings : list Z;
  my_roster : option Roster.t;
  my_user : option LeagueUser.t
}.

(** [{u.user_id: u for u in users}]: a later user replaces an earlier one of
    the same id. *)
Definition user_by_id_of (users : list LeagueUser.t)
  : gmap string LeagueUser.t :=
  foldl (fun m u => <[LeagueUser.user_id u := u]> m) ∅ users.

Definition placeholder : LeagueUser.t :=
  LeagueUser.mk "" "Unknown" None.

(** The value one iteration of the ownership loop stores for [roster]:
    [roster.owner_id and roster.owner_id in user_by_id] guards the
    subscript [user_by_id[roster.owner_id]]; the membership test and the
    subscript are one lookup here. *)
Definition owner_entry
    (user_by_id : gmap string LeagueUser.t) (roster : Roster.t)
  : LeagueUser.t :=
  match Roster.owner_id roster with
  | Some owner =>
      if truthy_str owner then
        match user_by_id !! owner with
        | Some u => u
        | None => placeholder
        end
      else placeholder
  | None => placeholder
  end.

(** The ownership loop: [roster_to_user[roster.roster_id] = ...] for each
    roster in order. *)
Definition roster_to_user_of
    (user_by_id : gmap string LeagueUser.t) (rosters : list Roster.t)
  : gmap Z LeagueUser.t :=
  foldl
    (fun m roster => <[Roster.roster_id roster := owner_entry user_by_id roster]> m)
    ∅ rosters.

(** [key=lambda r: (r.wins, r.fpts)] *)
Definition standing_key (r : Roster.t) : Z * float :=
  (Roster.wins r, Roster.fpts r).

Definition sorted_rosters (rosters : list Roster.t) : list Roster.t :=
  sorted tuple_ltb standing_key true rosters.

(** [roster.owner_id == user_id] for a [user_id] that is a string. *)
Definition owned_by (user_id : string) (roster : Roster.t) : bool :=
  match Roster.owner_id roster with
  | Some owner => (owner =? user_id)%string
  | None => false
  end.

Definition build
    (nfl_state : NflState.t) (league : LeagueInfo.t)
    (rosters : list Roster.t) (users : list LeagueUser.t)
    (matchups : list Matchup.t) (user_id : option string) : t :=
  let user_by_id := user_by_id_of users in
  let roster_to_user := roster_to_user_of user_by_id rosters in
  let standings := map Roster.roster_id (sorted_rosters rosters) in
  let '(my_roster, my_user) :=
    match user_id with
    | Some uid =>
        if truthy_str uid
        then (find (owned_by uid) rosters, user_by_id !! uid)
        else (None, None)
    | None => (None, None)
    end in
  {| nfl_state := nfl_state;
     league := league;
     rosters := rosters;
     users := users;
     matchups := matchups;
     roster_to_user := roster_to_user;
     standings := standings;
     my_roster := my_roster;
     my_user := my_user |}.

End SleeperData.

(* ===================================================================== *)
(** ** sensor.py: the state of the "my matchup" sensor *)
(* ===================================================================== *)

Section Sensor.

(** How an f-string renders a [float]. *)
Variable float_str : float -> string.

(** [m.matchup_id == my_matchup_id] for a [my_matchup_id] that is not
    [None]. *)
Definition has_matchup_id (my_matchup_id : Z) (m : Matchup.t) : bool :=
  match Matchup.matchup_id m with
  | Some i => i =? my_matchup_id
  | None => false
  end.

Definition _my_matchup_state (data : SleeperData.t) : option string :=
  match SleeperData.my_roster data with
  | None => None
  | Some my_roster =>
      let my_id := Roster.roster_id my_roster in
      let '(my_matchup_id, my_points) :=
        match find (fun m => Matchup.roster_id m =? my_id)
                   (SleeperData.matchups data) with
        | Some m => (Matchup.matchup_id m, Matchup.points m)
        | None => (None, Finite 0)
        end in
      match my_matchup_id with
      | None => Some "BYE"
      | Some mid =>
          match find (fun m => has_matchup_id mid m
                               && negb (Matchup.roster_id m =? my_id))
                     (SleeperData.matchups data) with
          | Some m =>
              Some (float_str my_points ++ " - "
                    ++ float_str (Matchup.points m))%string
          | None => Some "BYE"
          end
      end
  end.

(** *** Opponent resolution, as the specification words it *)

(** [m] is the entry of roster [my_id]: the first one with that roster id. *)
Definition own_entry_at
    (my_id : Z) (matchups : list Matchup.t) (m : Matchup.t) : Prop :=
  exists l1 l2,
    matchups = l1 ++ m :: l2 /\ Matchup.roster_id m = my_id /\
    forall m', m' ∈ l1 -> Matchup.roster_id m' <> my_id.

(** [m] is an opposing entry: it has the matchup id and another roster. *)
Definition opposes (my_id mid : Z) (m : Matchup.t) : Prop :=
  Matchup.matchup_id m = Some mid /\ Matchup.roster_id m <> my_id.

(** [s] is the sibling entry: the first opposing one. *)
Definition sibling_at
    (my_id mid : Z) (matchups : list Matchup.t) (s : Matchup.t) : Prop :=
  exists l1 l2,
    matchups = l1 ++ s :: l2 /\ opposes my_id mid s /\
    forall m', m' ∈ l1 -> ~ opposes my_id mid m'.

Definition score_text (mine theirs : Matchup.t) : string :=
  (float_str (Matchup.points mine) ++ " - "
   ++ float_str (Matchup.points theirs))%string.

End Sensor.

(* ===================================================================== *)
(** ** The snapshot, as the specification words it *)
(* ===================================================================== *)

(** [a] ranks at least as high as [b]: more wins, or as many wins and at
    least as many points. *)
Definition ranks_at_least (a b : Roster.t) : Prop :=
  Roster.wins b < Roster.wins a \/
  (Roster.wins a = Roster.wins b /\
   float_leb (Roster.fpts b) (Roster.fpts a) = true).

(** The points of [a] and [b] can be compared where that is asked for:
    when they have as many wins, neither's points are NaN. *)
Definition comparable (a b : Roster.t) : Prop :=
  Roster.wins a = Roster.wins b ->
  is_nan (Roster.fpts a) = false /\ is_nan (Roster.fpts b) = false.

(** [a] and [b] tie: as many wins and as many points. *)
Definition tied (a b : Roster.t) : bool :=
  tuple_eqb (SleeperData.standing_key a) (SleeperData.standing_key b).

(** The three facts that make up the ordering of the standings. *)
Record stable_ranking (input output : list Roster.t) : Prop := {
  ranking_perm : output ≡ₚ input;
  ranking_sorted : StronglySorted ranks_at_least output;
  ranking_stable :
    forall r, filter (fun x => tied r x = true) output
              = filter (fun x => tied r x = true) input
}.

(** A dictionary filled by one pass over a list that stores, for each
    element, a value under a key taken from the element. *)
Definition keyed {A V K : Type} `{Countable K}
    (kf : A -> K) (vf : A -> V) (l : list A) : gmap K V :=
  foldl (fun m a => <[kf a := vf a]> m) ∅ l.
(* ===================================================================== *)
(** ** api.py: the fetch boundary *)
(* ===================================================================== *)

(** The two exceptions of the client, with their messages. *)
Inductive ApiError :=
| SleeperApiConnectionError (msg : string)
| SleeperApiNotFoundError (msg : string).

Definition error_message (e : ApiError) : string :=
  match e with
  | SleeperApiConnectionError msg => msg
  | SleeperApiNotFoundError msg => msg
  end.

(** What the remote service answers to each request of the client during one
    refresh cycle: the decoded records, or one of the two exceptions.  (On a
    payload of another shape than the records expect, a method of the client
    can also raise what [from_api] raises, see [async_get_matchups_of]
    below; no clause of the coordinator catches that, and such an answer is
    not among those of this record.) *)
Record SleeperApiClient := {
  async_get_nfl_state : ApiError + NflState.t;
  async_get_league : string -> ApiError + LeagueInfo.t;
  async_get_rosters : string -> ApiError + list Roster.t;
  async_get_users : string -> ApiError + list LeagueUser.t;
  async_get_matchups : string -> Z -> ApiError + list Matchup.t
}.

(** The requests, as they are recorded when the coordinator issues them. *)
Inductive ApiCall :=
| GetNflState
| GetLeague (league_id : string)
| GetRosters (league_id : string)
| GetUsers (league_id : string)
| GetMatchups (league_id : string) (week : Z).

(** The exception a request is answered with, if any. *)
Definition call_error (api : SleeperApiClient) (c : ApiCall)
  : option ApiError :=
  match c with
  | GetNflState =>
      match async_get_nfl_state api with inl e => Some e | inr _ => None end
  | GetLeague l =>
      match async_get_league api l with inl e => Some e | inr _ => None end
  | GetRosters l =>
      match async_get_rosters api l with inl e => Some e | inr _ => None end
  | GetUsers l =>
      match async_get_users api l with inl e => Some e | inr _ => None end
  | GetMatchups l w =>
      match async_get_matchups api l w with
      | inl e => Some e
      | inr _ => None
      end
  end.

(* ===================================================================== *)
(** ** coordinator.py: the refresh cycle *)
(* ===================================================================== *)

(** The attributes of the coordinator the component reads and writes. *)
Record SleeperCoordinator := {
  api : SleeperApiClient;
  league_id : string;
  user_id : option string;
  update_interval : timedelta
}.

(** [SleeperCoordinator.__init__] over the data of the config entry.
    [config_entry.data[CONF_LEAGUE_ID]] raises [KeyError] when the key is
    missing ([None] here); [config_entry.data.get(CONF_USER_ID) or None]
    turns a missing or empty user id into [None]. *)
Definition __init__
    (api : SleeperApiClient) (config_data : gmap string string)
  : option SleeperCoordinator :=
  match config_data !! CONF_LEAGUE_ID with
  | None => None
  | Some lid =>
      Some {| api := api;
              league_id := lid;
              user_id :=
                match config_data !! CONF_USER_ID with
                | Some uid => if truthy_str uid then Some uid else None
                | None => None
                end;
              update_interval := UPDATE_INTERVAL_REGULAR |}
  end.

(** What a cycle does that the host can observe: the requests it issues and
    the call of the snapshot builder. *)
Inductive Event :=
| Fetch (c : ApiCall)
| Build.

Inductive Exn :=
| Raised (e : ApiError)
| UpdateFailed (msg : string).

(** A method of the coordinator: from the coordinator before the call to the
    value returned or the exception raised, the coordinator after it, and
    the events in the order they happened. *)
Record Outcome (A : Type) := {
  result : Exn + A;
  final : SleeperCoordinator;
  events : list Event
}.
Arguments result {A} _.
Arguments final {A} _.
Arguments events {A} _.

Definition M (A : Type) : Type := SleeperCoordinator -> Outcome A.

Definition ret {A} (a : A) : M A :=
  fun self => {| result := inr a; final := self; events := [] |}.

Definition raise {A} (e : Exn) : M A :=
  fun self => {| result := inl e; final := self; events := [] |}.

Definition bind {A B} (m : M A) (k : A -> M B) : M B :=
  fun self =>
    let o := m self in
    match result o with
    | inl e => {| result := inl e; final := final o; events := events o |}
    | inr a =>
        let o' := k a (final o) in
        {| result := result o';
           final := final o';
           events := events o ++ events o' |}
    end.

Notation "'let!' x ':=' m 'in' k" := (bind m (fun x => k))
  (at level 10, x name, m at level 100, k at level 200).

(** [try: m except ...: handler]: the handler runs on the coordinator as the
    body left it. *)
Definition try_except {A} (m : M A) (handler : Exn -> M A) : M A :=
  fun self =>
    let o := m self in
    match result o with
    | inl e =>
        let o' := handler e (final o) in
        {| result := result o';
           final := final o';
           events := events o ++ events o' |}
    | inr _ => o
    end.

Definition get_self : M SleeperCoordinator :=
  fun self => {| result := inr self; final := self; events := [] |}.

Definition emit (e : Event) : M unit :=
  fun self => {| result := inr tt; final := self; events := [e] |}.

(** [await self.api.<request>]: the request is issued, and its answer is
    returned or raised. *)
Definition await {A} (c : ApiCall) (answer : ApiError + A) : M A :=
  let! _ := emit (Fetch c) in
  match answer with
  | inl e => raise (Raised e)
  | inr a => ret a
  end.

(** [self.update_interval = interval] *)
Definition set_update_interval (interval : timedelta) : M unit :=
  fun self =>
    {| result := inr tt;
       final := {| api := api self;
                   league_id := league_id self;
                   user_id := user_id self;
                   update_interval := interval |};
       events := [] |}.

(** The body of the [try] block of [_async_update_data]. *)
Definition fetch_all
  : M (NflState.t * LeagueInfo.t * list Roster.t * list LeagueUser.t
       * list Matchup.t) :=
  let! self := get_self in
  let! nfl_state := await GetNflState (async_get_nfl_state (api self)) in
  let! league := await (GetLeague (league_id self))
                     (async_get_league (api self) (league_id self)) in
  let! rosters := await (GetRosters (league_id self))
                      (async_get_rosters (api self) (league_id self)) in
  let! users := await (GetUsers (league_id self))
                    (async_get_users (api self) (league_id self)) in
  let! matchups :=
    (if in_regular_post (NflState.season_type nfl_state)
     then await (GetMatchups (league_id self) (NflState.week nfl_state))
                (async_get_matchups (api self) (league_id self)
                                    (NflState.week nfl_state))
     else ret []) in
  ret (nfl_state, league, rosters, users, matchups).

(** The two [except] clauses. *)
Definition translate_error {A} (e : Exn) : M A :=
  match e with
  | Raised (SleeperApiConnectionError msg) =>
      raise (UpdateFailed ("Error communicating with Sleeper API: " ++ msg)%string)
  | Raised (SleeperApiNotFoundError msg) =>
      raise (UpdateFailed ("Resource not found: " ++ msg)%string)
  | other => raise other
  end.

(** [_async_update_data]; [now_et] is what [datetime.now(EASTERN)] returns
    when [_calculate_update_interval] reads it. *)
Definition _async_update_data (now_et : datetime) : M SleeperData.t :=
  let! fetched := try_except fetch_all translate_error in
  let '(nfl_state, league, rosters, users, matchups) := fetched in
  let! self := get_self in
  let! _ := emit Build in
  let data :=
    SleeperData.build nfl_state league rosters users matchups
                      (user_id self) in
  let! _ :=
    set_update_interval
      (_calculate_update_interval (NflState.season_type nfl_state)
                                  (NflState.week nfl_state) now_et) in
  ret data.

(** One refresh cycle of a coordinator. *)
Definition refresh_cycle (self : SleeperCoordinator) (now_et : datetime)
  : Outcome SleeperData.t :=
  _async_update_data now_et self.

(** The requests among the events of a cycle. *)
Definition fetches (o : Outcome SleeperData.t) : list ApiCall :=
  omap (fun e => match e with Fetch c => Some c | Build => None end)
       (events o).

Definition is_matchup_fetch (c : ApiCall) : bool :=
  match c with
  | GetMatchups _ _ => true
  | _ => false
  end.

(** The message of the [UpdateFailed] that stands for an exception of the
    client. *)
Definition update_failed_message (e : ApiError) : string :=
  match e with
  | SleeperApiConnectionError msg =>
      ("Error communicating with Sleeper API: " ++ msg)%string
  | SleeperApiNotFoundError msg => ("Resource not found: " ++ msg)%string
  end.

(** The coordinator with a new interval. *)
Definition with_update_interval
    (self : SleeperCoordinator) (interval : timedelta) : SleeperCoordinator :=
  {| api := api self;
     league_id := league_id self;
     user_id := user_id self;
     update_interval := interval |}.

(** The outcome of a cycle that issued [calls] and was stopped by the
    exception [e] of the last of them. *)
Definition failed
    (self : SleeperCoordinator) (calls : list ApiCall) (e : ApiError)
  : Outcome SleeperData.t :=
  {| result := inl (UpdateFailed (update_failed_message e));
     final := self;
     events := map Fetch calls |}.

(** The two shapes a cycle can have: stopped by the first request that is
    answered with an exception, or completed with every request answered. *)
Inductive cycle_shape (self : SleeperCoordinator)
  : Outcome SleeperData.t -> Prop :=
| shape_failed calls c e :
    call_error (api self) c = Some e ->
    (forall c', c' ∈ calls -> call_error (api self) c' = None) ->
    cycle_shape self (failed self (calls ++ [c]) e)
| shape_done calls data interval :
    (forall c', c' ∈ calls -> call_error (api self) c' = None) ->
    cycle_shape self {| result := inr data;
                        final := with_update_interval self interval;
                        events := map Fetch calls ++ [Build] |}.

(** An outcome reached after the request [c] was issued. *)
Definition with_fetch {A} (c : ApiCall) (o : Outcome A) : Outcome A :=
  {| result := result o; final := final o; events := Fetch c :: events o |}.

(** The requests of a cycle in the order [_async_update_data] issues them,
    the last one for the week [week]. *)
Definition request_order (league_id : string) (week : Z) : list ApiCall :=
  [GetNflState; GetLeague league_id; GetRosters league_id;
   GetUsers league_id; GetMatchups league_id week].

(* ===================================================================== *)
(** ** models.py: [from_api] over decoded JSON *)
(* ===================================================================== *)

(** The payload of a response is decoded JSON, and Python does not check
    the annotations of a dataclass: the attributes of the object [from_api]
    returns hold whatever the expressions of its body evaluate to. *)
Module Py.

#[local] Set Warnings "-register-all".

(** Decoded JSON.  An object keeps its members as an association list read
    by first match. *)
Inductive value :=
| None_
| Bool (b : bool)
| Int (z : Z)
| Float (f : float)
| Str (s : string)
| List (l : list value)
| Dict (d : list (string * value)).

Definition dict := list (string * value).

Inductive exn :=
  TypeError | AttributeError | ZeroDivisionError | OverflowError.

Definition res (A : Type) : Type := exn + A.

Definition ok {A} (a : A) : res A := inr a.
Definition throw {A} (e : exn) : res A := inl e.
Definition and_then {A B} (m : res A) (k : A -> res B) : res B :=
  match m with
  | inl e => inl e
  | inr a => k a
  end.

Fixpoint lookup (d : dict) (k : string) : option value :=
  match d with
  | [] => None
  | (k', v) :: d' => if (k' =? k)%string then Some v else lookup d' k
  end.

(** [d.get(k, default)] and [d.get(k)] *)
Definition get_default (d : dict) (k : string) (default : value) : value :=
  match lookup d k with
  | Some v => v
  | None => default
  end.

Definition get (d : dict) (k : string) : value := get_default d k None_.

(** Truth value, as [or] tests it. *)
Definition truthy (v : value) : bool :=
  match v with
  | None_ => false
  | Bool b => b
  | Int z => negb (z =? 0)
  | Float f => negb (float_eqb f (Finite 0))
  | Str s => negb (s =? "")%string
  | List l => match l with [] => false | _ => true end
  | Dict d => match d with [] => false | _ => true end
  end.

(** [v or w] *)
Definition or_ (v w : value) : value := if truthy v then v else w.

(** The bound method [v.get]: only a [dict] has one. *)
Definition get_method (v : value) : res dict :=
  match v with
  | Dict d => ok d
  | _ => throw AttributeError
  end.

(** The number a value is in arithmetic: an [int] ([bool] is a subtype of
    [int]) or a [float]. *)
Definition number (v : value) : option (Z + float) :=
  match v with
  | Bool b => Some (inl (if b then 1 else 0))
  | Int z => Some (inl z)
  | Float f => Some (inr f)
  | _ => None
  end.

Definition int_like (v : value) : option Z :=
  match v with
  | Bool b => Some (if b then 1 else 0)
  | Int z => Some z
  | _ => None
  end.

(** The float an operand is converted to when the other operand is a
    [float]. *)
Definition as_float (n : Z + float) : res float :=
  match n with
  | inl z =>
      match float_of_int z with
      | Some f => ok f
      | None => throw OverflowError
      end
  | inr f => ok f
  end.

(** [v / w]: true division, always a [float].  Two [int] give the float
    nearest to their quotient; otherwise both operands are converted, then
    divided. *)
Definition truediv (v w : value) : res value :=
  match number v, number w with
  | Some (inl a), Some (inl b) =>
      if b =? 0 then throw ZeroDivisionError
      else match int_truediv a b with
           | Some f => ok (Float f)
           | None => throw OverflowError
           end
  | Some x, Some y =>
      and_then (as_float x) (fun a =>
      and_then (as_float y) (fun b =>
      if float_eqb b (Finite 0) then throw ZeroDivisionError
      else ok (Float (float_div a b))))
  | _, _ => throw TypeError
  end.

(** [v + w] *)
Definition add (v w : value) : res value :=
  match number v, number w with
  | Some (inl a), Some (inl b) => ok (Int (a + b))
  | Some x, Some y =>
      and_then (as_float x) (fun a =>
      and_then (as_float y) (fun b => ok (Float (float_add a b))))
  | _, _ =>
      match v, w with
      | Str s, Str t => ok (Str (s ++ t)%string)
      | List l, List m => ok (List (l ++ m))
      | _, _ => throw TypeError
      end
  end.

End Py.

Notation "'try!' x ':=' m 'in' k" := (Py.and_then m (fun x => k))
  (at level 10, x name, m at level 100, k at level 200).

Module NflStateObj.
Record t := mk { week : Py.value; season : Py.value; season_type : Py.value }.

Definition from_api (data : Py.dict) : Py.res t :=
  Py.ok {| week := Py.get_default data "week" (Py.Int 1);
           season := Py.get_default data "season" (Py.Str "");
           season_type := Py.get_default data "season_type" (Py.Str "off") |}.
End NflStateObj.

Module LeagueInfoObj.
Record t := mk {
  league_id : Py.value;
  name : Py.value;
  status : Py.value;
  season : Py.value;
  total_rosters : Py.value
}.

Definition from_api (data : Py.dict) : Py.res t :=
  Py.ok {| league_id := Py.get_default data "league_id" (Py.Str "");
           name := Py.get_default data "name" (Py.Str "");
           status := Py.get_default data "status" (Py.Str "");
           season := Py.get_default data "season" (Py.Str "");
           total_rosters := Py.get_default data "total_rosters" (Py.Int 0) |}.
End LeagueInfoObj.

Module RosterObj.
Record t := mk {
  roster_id : Py.value;
  owner_id : Py.value;
  wins : Py.value;
  losses : Py.value;
  ties : Py.value;
  fpts : Py.value;
  fpts_against : Py.value;
  waiver_position : Py.value;
  total_moves : Py.value
}.

(** [whole + hundredths / 100] *)
Definition recombine (whole hundredths : Py.value) : Py.res Py.value :=
  try! fraction := Py.truediv hundredths (Py.Int 100) in
  Py.add whole fraction.

Definition from_api (data : Py.dict) : Py.res t :=
  try! settings := Py.get_method (Py.or_ (Py.get data "settings") (Py.Dict [])) in
  let fpts_int := Py.or_ (Py.get settings "fpts") (Py.Int 0) in
  let fpts_dec := Py.or_ (Py.get settings "fpts_decimal") (Py.Int 0) in
  let fpts_against_int :=
    Py.or_ (Py.get settings "fpts_against") (Py.Int 0) in
  let fpts_against_dec :=
    Py.or_ (Py.get settings "fpts_against_decimal") (Py.Int 0) in
  try! fpts := recombine fpts_int fpts_dec in
  try! fpts_against := recombine fpts_against_int fpts_against_dec in
  Py.ok {| roster_id := Py.get_default data "roster_id" (Py.Int 0);
           owner_id := Py.get data "owner_id";
           wins := Py.or_ (Py.get settings "wins") (Py.Int 0);
           losses := Py.or_ (Py.get settings "losses") (Py.Int 0);
           ties := Py.or_ (Py.get settings "ties") (Py.Int 0);
           fpts := fpts;
           fpts_against := fpts_against;
           waiver_position :=
             Py.or_ (Py.get settings "waiver_position") (Py.Int 0);
           total_moves := Py.or_ (Py.get settings "total_moves") (Py.Int 0) |}.
End RosterObj.

Module LeagueUserObj.
Record t := mk {
  user_id : Py.value;
  display_name : Py.value;
  team_name : Py.value
}.

Definition from_api (data : Py.dict) : Py.res t :=
  try! metadata := Py.get_method (Py.or_ (Py.get data "metadata") (Py.Dict [])) in
  Py.ok {| user_id := Py.get_default data "user_id" (Py.Str "");
           display_name := Py.get_default data "display_name" (Py.Str "");
           team_name := Py.get metadata "team_name" |}.
End LeagueUserObj.

Module MatchupObj.
Record t := mk {
  roster_id : Py.value;
  matchup_id : Py.value;
  points : Py.value
}.

Definition from_api (data : Py.dict) : Py.res t :=
  Py.ok {| roster_id := Py.get_default data "roster_id" (Py.Int 0);
           matchup_id := Py.get data "matchup_id";
           points := Py.or_ (Py.get data "points") (Py.Float (Finite 0)) |}.
End MatchupObj.

(** *** What a conversion promises *)

(** The member [k] of [payload] resolves to [got]: the default when the
    member is absent, the member itself when it is present. *)
Definition resolves
    (payload : Py.dict) (k : string) (default got : Py.value) : Prop :=
  (Py.lookup payload k = None -> got = default) /\
  (forall v, Py.lookup payload k = Some v -> got = v).

(** The same, for a member read with [or]: a member that is present but
    false as a truth value resolves to the default too. *)
Definition resolves_falsy
    (payload : Py.dict) (k : string) (default got : Py.value) : Prop :=
  (Py.lookup payload k = None -> got = default) /\
  (forall v, Py.lookup payload k = Some v ->
             got = if Py.truthy v then v else default).

Definition object_or_falsy (v : Py.value) : Prop :=
  Py.truthy v = false \/ exists d, v = Py.Dict d.

Definition number_or_falsy (v : Py.value) : Prop :=
  Py.truthy v = false \/ exists n, Py.number v = Some n.

(** The members of a value that is an object; no members otherwise. *)
Definition members (v : Py.value) : Py.dict :=
  match v with
  | Py.Dict d => d
  | _ => []
  end.

(** The four members of the settings of a roster that hold its points. *)
Definition point_parts : list string :=
  ["fpts"; "fpts_decimal"; "fpts_against"; "fpts_against_decimal"].

(** The number a point part stands for: the member itself, and the [int]
    zero when the member is absent or false. *)
Definition part (settings : Py.dict) (k : string) : Z + float :=
  match Py.number (Py.get settings k) with
  | Some n => if Py.truthy (Py.get settings k) then n else inl 0
  | None => inl 0
  end.

(** A whole part that is an [int] fits when a float is near enough to
    convert it to; a hundredths part that is an [int], when a float is near
    enough to its hundredth.  A part that is a [float] always fits. *)
Definition whole_fits (n : Z + float) : Prop :=
  match n with
  | inl z => is_finite (float_round (inject_Z z)) = true
  | inr _ => True
  end.

Definition hundredths_fit (n : Z + float) : Prop :=
  match n with
  | inl z => is_finite (float_round (inject_Z z / inject_Z 100)) = true
  | inr _ => True
  end.

(** The payloads on which the conversion of a roster, and of a user, does
    arithmetic and member access that Python accepts. *)
Definition roster_payload_ok (roster : Py.dict) : Prop :=
  let settings := members (Py.get roster "settings") in
  object_or_falsy (Py.get roster "settings") /\
  (forall k, k ∈ point_parts -> number_or_falsy (Py.get settings k)) /\
  whole_fits (part settings "fpts") /\
  hundredths_fit (part settings "fpts_decimal") /\
  whole_fits (part settings "fpts_against") /\
  hundredths_fit (part settings "fpts_against_decimal").

Definition user_payload_ok (user : Py.dict) : Prop :=
  object_or_falsy (Py.get user "metadata").

(** [whole + hundredths / 100], as float arithmetic computes it: the
    hundredth is rounded to a float, an [int] whole part is converted to a
    float, and their sum is rounded. *)
Definition hundredth (n : Z + float) : float :=
  match n with
  | inl z => float_round (inject_Z z / inject_Z 100)
  | inr f => float_div f (Finite 100)
  end.

Definition to_float (n : Z + float) : float :=
  match n with
  | inl z => float_round (inject_Z z)
  | inr f => f
  end.

Definition whole_plus_hundredths (whole hundredths : Z + float) : float :=
  float_add (to_float whole) (hundredth hundredths).
(* ===================================================================== *)
(** ** A small league, for the examples *)
(* ===================================================================== *)

Module Sample.

Definition ann : LeagueUser.t := LeagueUser.mk "u1" "Ann" (Some "Aces").
Definition bob : LeagueUser.t := LeagueUser.mk "u2" "Bob" None.

(** A user decoded from a payload without a user id. *)
Definition ghost : LeagueUser.t := LeagueUser.mk "" "Ghost" None.

Definition anns_roster : Roster.t :=
  Roster.mk 1 (Some "u1") 3 1 0 (Finite (201 # 2)) (Finite (90 # 1)) 2 5.
Definition bobs_roster : Roster.t :=
  Roster.mk 2 (Some "u2") 3 1 0 (Finite (120 # 1)) (Finite (95 # 1)) 1 0.
Definition unclaimed_roster : Roster.t :=
  Roster.mk 3 None 1 3 0 (Finite (80 # 1)) (Finite (110 # 1)) 3 0.

(** A roster whose owner id is the empty string. *)
Definition blank_roster : Roster.t :=
  Roster.mk 4 (Some "") 0 4 0 (Finite (60 # 1)) (Finite (130 # 1)) 4 0.

Definition users : list LeagueUser.t := [ann; bob].
Definition rosters : list Roster.t :=
  [anns_roster; bobs_roster; unclaimed_roster].

Definition nfl_state : NflState.t := NflState.mk 5 "2024" "regular".
Definition league : LeagueInfo.t :=
  LeagueInfo.mk "L1" "Friends" "in_season" "2024" 3.

Definition matchups : list Matchup.t :=
  [Matchup.mk 1 (Some 1) (Finite (203 # 2));
   Matchup.mk 2 (Some 1) (Finite (88 # 1));
   Matchup.mk 3 None (Finite (0 # 1))].

(** A service that answers every request. *)
Definition api_up : SleeperApiClient :=
  {| async_get_nfl_state := inr nfl_state;
     async_get_league := fun _ => inr league;
     async_get_rosters := fun _ => inr rosters;
     async_get_users := fun _ => inr users;
     async_get_matchups := fun _ _ => inr matchups |}.

(** The same service when it reports the league as unknown. *)
Definition api_no_league : SleeperApiClient :=
  {| async_get_nfl_state := inr nfl_state;
     async_get_league :=
       fun l => inl (SleeperApiNotFoundError "Resource not found: /league/L1");
     async_get_rosters := fun _ => inr rosters;
     async_get_users := fun _ => inr users;
     async_get_matchups := fun _ _ => inr matchups |}.

(** Out of season, with the user list unreachable. *)
Definition nfl_state_off : NflState.t := NflState.mk 1 "2025" "off".

Definition api_off_no_users : SleeperApiClient :=
  {| async_get_nfl_state := inr nfl_state_off;
     async_get_league := fun _ => inr league;
     async_get_rosters := fun _ => inr rosters;
     async_get_users :=
       fun l => inl (SleeperApiConnectionError "timeout");
     async_get_matchups := fun _ _ => inr matchups |}.

Definition coordinator (api : SleeperApiClient) : SleeperCoordinator :=
  {| api := api;
     league_id := "L1";
     user_id := Some "u1";
     update_interval := UPDATE_INTERVAL_REGULAR |}.

(** A Sunday afternoon. *)
Definition sunday_1pm : datetime := at_time Sunday 13.

End Sample.

(** A rendering of the floats of the sample, for the examples. *)
Definition sample_float_str (x : float) : string :=
  if float_eqb x (Finite (203 # 2)) then "101.5"
  else if float_eqb x (Finite (88 # 1)) then "88.0"
  else "0.0".

(** A league whose lists repeat an id: two users with the id ["u1"], two
    rosters with the id 1, and a roster that has the id of
    [Sample.blank_roster]. *)
Module SampleDuplicates.

Definition ann_again : LeagueUser.t := LeagueUser.mk "u1" "Ann B" None.

Definition first_roster : Roster.t :=
  Roster.mk 1 (Some "u2") 0 0 0 (Finite (0 # 1)) (Finite (0 # 1)) 0 0.
Definition second_roster : Roster.t :=
  Roster.mk 1 (Some "u1") 2 0 0 (Finite (50 # 1)) (Finite (10 # 1)) 0 0.

Definition claimed_roster : Roster.t :=
  Roster.mk 4 (Some "u1") 1 3 0 (Finite (70 # 1)) (Finite (120 # 1)) 0 0.

End SampleDuplicates.

(** Three rosters with as many wins; the points of the second are NaN. *)
Module SampleNaN.

Definition low_roster : Roster.t :=
  Roster.mk 1 None 2 0 0 (Finite (5 # 1)) (Finite (0 # 1)) 0 0.
Definition nan_roster : Roster.t :=
  Roster.mk 2 None 2 0 0 NaN (Finite (0 # 1)) 0 0.
Definition high_roster : Roster.t :=
  Roster.mk 3 None 2 0 0 (Finite (10 # 1)) (Finite (0 # 1)) 0 0.

Definition rosters : list Roster.t := [low_roster; nan_roster; high_roster].

End SampleNaN.

(** Payloads, for the examples. *)
Module SamplePayload.

Definition state : Py.dict := [("week", Py.Int 5); ("season", Py.Str "2024")].

Definition league : Py.dict :=
  [("league_id", Py.Str "L1"); ("name", Py.Str "Friends")].

Definition roster : Py.dict :=
  [("roster_id", Py.Int 1);
   ("owner_id", Py.Str "u1");
   ("settings",
    Py.Dict [("wins", Py.Int 3); ("fpts", Py.Int 100);
             ("fpts_decimal", Py.Int 50); ("fpts_against", Py.Int 90)])].

Definition user : Py.dict :=
  [("user_id", Py.Str "u1"); ("display_name", Py.Str "Ann");
   ("metadata", Py.Dict [("team_name", Py.Str "Aces")])].

Definition matchup : Py.dict :=
  [("roster_id", Py.Int 1); ("matchup_id", Py.Int 1);
   ("points", Py.Float (Finite (203 # 2)))].

(** A roster whose points arrive as text, one whose points are an integer
    beyond the floats, one whose settings are a list, a user whose metadata
    is text, and a season state with a null season type and a week in
    words. *)
Definition roster_text_points : Py.dict :=
  [("roster_id", Py.Int 1); ("settings", Py.Dict [("fpts", Py.Str "12")])].

Definition roster_huge_points : Py.dict :=
  [("roster_id", Py.Int 1);
   ("settings", Py.Dict [("fpts", Py.Int (10 ^ 400))])].

(** A roster whose two parts are infinities of opposite sign, as the
    decoder reads [1e999] and [-1e999]. *)
Definition roster_infinite_points : Py.dict :=
  [("roster_id", Py.Int 1);
   ("settings", Py.Dict [("fpts", Py.Float (Inf false));
                         ("fpts_decimal", Py.Float (Inf true))])].

Definition roster_list_settings : Py.dict :=
  [("roster_id", Py.Int 1); ("settings", Py.List [Py.Int 3])].

Definition user_text_metadata : Py.dict :=
  [("user_id", Py.Str "u1"); ("metadata", Py.Str "Aces")].

Definition state_null_type : Py.dict :=
  [("week", Py.Str "five"); ("season_type", Py.None_)].

End SamplePayload.

(* ===================================================================== *)
(** ** sensor.py: the other sensors *)
(* ===================================================================== *)

(** How an f-string renders an [int]: its decimal digits, with a minus sign
    when it is negative. *)
Definition int_str (z : Z) : string := NilEmpty.string_of_int (Z.to_int z).

(** [f"{roster.wins}-{roster.losses}-{roster.ties}"] *)
Definition record_text (roster : Roster.t) : string :=
  (int_str (Roster.wins roster) ++ "-" ++ int_str (Roster.losses roster)
   ++ "-" ++ int_str (Roster.ties roster))%string.

Definition _roster_record (data : SleeperData.t) (roster_id : Z)
  : option string :=
  match find (fun roster => Roster.roster_id roster =? roster_id)
             (SleeperData.rosters data) with
  | Some roster => Some (record_text roster)
  | None => None
  end.

(** [x in l] on a list of [int]. *)
Definition contains (l : list Z) (x : Z) : bool :=
  existsb (fun y => y =? x) l.

(** [l.index(x)]: the position of the first [x]; [None] stands for the
    [ValueError] of a list without [x]. *)
Fixpoint index (l : list Z) (x : Z) : option Z :=
  match l with
  | [] => None
  | y :: l' =>
      if y =? x then Some 0
      else match index l' x with
           | Some i => Some (i + 1)
           | None => None
           end
  end.

(** [standings.index(roster_id) + 1 if roster_id in standings else 0]; the
    test guards the call, which therefore returns. *)
Definition standing_of (standings : list Z) (roster_id : Z) : Z :=
  if contains standings roster_id then
    match index standings roster_id with
    | Some i => i + 1
    | None => 0
    end
  else 0.

(** The dictionary [_roster_attrs] returns, by its keys. *)
Record RosterAttrs := {
  attr_wins : Z;
  attr_losses : Z;
  attr_ties : Z;
  attr_fpts : float;
  attr_fpts_against : float;
  attr_standing : Z;
  attr_display_name : string;
  attr_team_name : option string;
  attr_waiver_position : Z;
  attr_total_moves : Z
}.

Definition _roster_attrs (data : SleeperData.t) (roster_id : Z)
  : option RosterAttrs :=
  match find (fun roster => Roster.roster_id roster =? roster_id)
             (SleeperData.rosters data) with
  | Some roster =>
      let user := SleeperData.roster_to_user data !! roster_id in
      let standing := standing_of (SleeperData.standings data) roster_id in
      Some {| attr_wins := Roster.wins roster;
              attr_losses := Roster.losses roster;
              attr_ties := Roster.ties roster;
              attr_fpts := Roster.fpts roster;
              attr_fpts_against := Roster.fpts_against roster;
              attr_standing := standing;
              attr_display_name :=
                match user with
                | Some u => LeagueUser.display_name u
                | None => "Unknown"
                end;
              attr_team_name :=
                match user with
                | Some u => LeagueUser.team_name u
                | None => None
                end;
              attr_waiver_position := Roster.waiver_position roster;
              attr_total_moves := Roster.total_moves roster |}
  | None => None
  end.

(** The dictionary [_my_matchup_attrs] returns, by its keys. *)
Record MatchupAttrs := {
  opponent_name : option string;
  opponent_points : option float;
  attr_week : Z
}.

Definition no_opponent (data : SleeperData.t) : MatchupAttrs :=
  {| opponent_name := None;
     opponent_points := None;
     attr_week := NflState.week (SleeperData.nfl_state data) |}.

Definition _my_matchup_attrs (data : SleeperData.t) : MatchupAttrs :=
  match SleeperData.my_roster data with
  | None => no_opponent data
  | Some my_roster =>
      let my_id := Roster.roster_id my_roster in
      let my_matchup_id :=
        match find (fun m => Matchup.roster_id m =? my_id)
                   (SleeperData.matchups data) with
        | Some m => Matchup.matchup_id m
        | None => None
        end in
      match my_matchup_id with
      | None => no_opponent data
      | Some mid =>
          match find (fun m => has_matchup_id mid m
                               && negb (Matchup.roster_id m =? my_id))
                     (SleeperData.matchups data) with
          | Some m =>
              let opp_user :=
                SleeperData.roster_to_user data !! Matchup.roster_id m in
              {| opponent_name :=
                   Some match opp_user with
                        | Some u => LeagueUser.display_name u
                        | None => "Unknown"
                        end;
                 opponent_points := Some (Matchup.points m);
                 attr_week := NflState.week (SleeperData.nfl_state data) |}
          | None => no_opponent data
          end
      end
  end.

(** The value and the attribute of the [my_standing] sensor, and the value
    of the [my_record] sensor. *)
Definition my_standing (data : SleeperData.t) : Z :=
  match SleeperData.my_roster data with
  | Some my_roster =>
      standing_of (SleeperData.standings data) (Roster.roster_id my_roster)
  | None => 0
  end.

Definition total_teams (data : SleeperData.t) : Z :=
  Z.of_nat (length (SleeperData.standings data)).

Definition my_record (data : SleeperData.t) : string :=
  match SleeperData.my_roster data with
  | Some my_roster => record_text my_roster
  | None => "0-0-0"
  end.

(* ===================================================================== *)
(** ** sensor.py: the entities of a config entry *)
(* ===================================================================== *)

(** The keys of the sensor descriptions. *)
Definition LEAGUE_SENSORS : list string := ["league_status"; "nfl_week"].

Definition MY_TEAM_SENSORS : list string :=
  ["my_record"; "my_points"; "my_matchup"; "my_standing"].

Definition DIAGNOSTIC_SENSOR : string := "last_updated".

(** The key of [_make_roster_description(roster_id)]. *)
Definition roster_key (roster_id : Z) : string :=
  ("roster_" ++ int_str roster_id ++ "_record")%string.

(** What [SleeperSensorEntity.__init__] computes: the key of the
    description, the unique id, and the display name of the translation
    placeholders, which is set for the sensor of a roster only. *)
Record SleeperSensorEntity := {
  entity_key : string;
  unique_id : string;
  display_name_placeholder : option string
}.

Definition new_entity
    (data : SleeperData.t) (key league_id : string) (roster_id : option Z)
  : SleeperSensorEntity :=
  {| entity_key := key;
     unique_id := (league_id ++ "_" ++ key)%string;
     display_name_placeholder :=
       match roster_id with
       | Some rid =>
           Some match SleeperData.roster_to_user data !! rid with
                | Some user => LeagueUser.display_name user
                | None => ("Roster " ++ int_str rid)%string
                end
       | None => None
       end |}.

Definition roster_entity
    (data : SleeperData.t) (league_id : string) (roster_id : Z)
  : SleeperSensorEntity :=
  new_entity data (roster_key roster_id) league_id (Some roster_id).

(** [async_setup_entry] of the sensor platform, on the snapshot of the
    first refresh: the entities it adds, and the roster ids its listener
    starts from. *)
Definition async_setup_entry (league_id : string) (data : SleeperData.t)
  : list SleeperSensorEntity * gset Z :=
  let league_entities :=
    map (fun key => new_entity data key league_id None) LEAGUE_SENSORS in
  let diagnostic_entity := new_entity data DIAGNOSTIC_SENSOR league_id None in
  let roster_entities :=
    map (fun roster => roster_entity data league_id (Roster.roster_id roster))
        (SleeperData.rosters data) in
  let known_roster_ids : gset Z :=
    list_to_set (map Roster.roster_id (SleeperData.rosters data)) in
  let my_team_entities :=
    match SleeperData.my_roster data with
    | Some _ =>
        map (fun key => new_entity data key league_id None) MY_TEAM_SENSORS
    | None => []
    end in
  (league_entities ++ [diagnostic_entity] ++ roster_entities
   ++ my_team_entities,
   known_roster_ids).

(** The listener [_async_check_new_rosters], on the snapshot of an update
    and the roster ids known so far: the entities it adds (none: it adds
    nothing) and the roster ids known afterwards. *)
Definition _async_check_new_rosters
    (league_id : string) (data : SleeperData.t) (known_roster_ids : gset Z)
  : list SleeperSensorEntity * gset Z :=
  let current_roster_ids : gset Z :=
    list_to_set (map Roster.roster_id (SleeperData.rosters data)) in
  let new_entities :=
    map (fun roster => roster_entity data league_id (Roster.roster_id roster))
        (filter (fun roster => Roster.roster_id roster ∉ known_roster_ids)
                (SleeperData.rosters data)) in
  match new_entities with
  | [] => ([], known_roster_ids)
  | _ :: _ => (new_entities, known_roster_ids ∪ current_roster_ids)
  end.

(* ===================================================================== *)
(** ** diagnostics.py *)
(* ===================================================================== *)

(** The data [_redact] is applied to: what [dataclasses.asdict] makes of a
    snapshot.  A value is a dictionary, a list, or anything else; the keys
    of a dictionary are field names or, in the roster-owner mapping, roster
    ids. *)
Module Data.

Inductive scalar :=
| SNone
| SBool (b : bool)
| SInt (z : Z)
| SFloat (x : float)
| SStr (s : string).

Inductive key :=
| KStr (s : string)
| KInt (z : Z).

#[local] Set Warnings "-register-all".

Inductive t :=
| Scalar (v : scalar)
| List (items : list t)
| Dict (members : list (key * t)).

(** The keys of the dictionaries of a piece of data and the lengths of its
    lists, down to the values held under a key to redact. *)
Inductive shape :=
| Leaf
| Hidden
| Items (items : list shape)
| Members (members : list (key * shape)).

End Data.

Definition REDACT_FIELDS : list string := ["user_id"; "owner_id"].

Definition REDACTED : Data.t := Data.Scalar (Data.SStr "**REDACTED**").

(** [key in REDACT_FIELDS] *)
Definition in_redact_fields (key : Data.key) : bool :=
  match key with
  | Data.KStr s => bool_decide (s ∈ REDACT_FIELDS)
  | Data.KInt _ => false
  end.

Fixpoint _redact (data : Data.t) : Data.t :=
  match data with
  | Data.Dict members =>
      Data.Dict
        (map (fun '(key, value) =>
                (key,
                 if in_redact_fields key then REDACTED else _redact value))
             members)
  | Data.List items => Data.List (map _redact items)
  | Data.Scalar v => Data.Scalar v
  end.

(** The values a piece of data holds under a key of [REDACT_FIELDS], at any
    depth. *)
Fixpoint secrets (data : Data.t) : list Data.t :=
  match data with
  | Data.Dict members =>
      concat (map (fun '(key, value) =>
                     if in_redact_fields key then [value] else secrets value)
                  members)
  | Data.List items => concat (map secrets items)
  | Data.Scalar _ => []
  end.

(** What is left of a piece of data when its values are forgotten. *)
Fixpoint shape (data : Data.t) : Data.shape :=
  match data with
  | Data.Dict members =>
      Data.Members
        (map (fun '(key, value) =>
                (key,
                 if in_redact_fields key then Data.Hidden else shape value))
             members)
  | Data.List items => Data.Items (map shape items)
  | Data.Scalar _ => Data.Leaf
  end.

Module SampleData.

(** A user, as [asdict] renders it, and a mapping of two roster ids. *)
Definition ann : Data.t :=
  Data.Dict [(Data.KStr "user_id", Data.Scalar (Data.SStr "u1"));
             (Data.KStr "display_name", Data.Scalar (Data.SStr "Ann"));
             (Data.KStr "team_name", Data.Scalar (Data.SStr "Aces"))].

Definition mapping : Data.t :=
  Data.Dict [(Data.KStr "users", Data.List [ann]);
             (Data.KStr "roster_to_user",
              Data.Dict [(Data.KInt 1, ann); (Data.KInt 2, ann)])].

(** A league, which holds nothing to redact. *)
Definition league : Data.t :=
  Data.Dict [(Data.KStr "league_id", Data.Scalar (Data.SStr "L1"));
             (Data.KStr "total_rosters", Data.Scalar (Data.SInt 3))].

End SampleData.

(* ===================================================================== *)
(** ** config_flow.py *)
(* ===================================================================== *)

Definition CONF_USERNAME : string := "username".
Definition CONF_LEAGUE_NAME : string := "league_name".

(** What [_validate_input] lets through: an exception of the client its
    [except] clauses do not name, or an exception of Python. *)
Inductive FlowExn :=
| FlowApiError (e : ApiError)
| FlowPyError (e : Py.exn).

(** [_validate_input], on the answers of the service: [client] as for the
    coordinator, [async_get_user] for the request of a user by name, which
    returns the decoded payload as it is.  The result is the pair
    [(errors, data)]. *)
Definition _validate_input
    (client : SleeperApiClient)
    (async_get_user : string -> ApiError + Py.value)
    (league_id username : string)
  : FlowExn + (gmap string string * gmap string string) :=
  match async_get_league client league_id with
  | inl (SleeperApiNotFoundError _) =>
      inr ({[CONF_LEAGUE_ID := "league_not_found"]}, ∅)
  | inl (SleeperApiConnectionError _) =>
      inr ({["base" := "cannot_connect"]}, ∅)
  | inr league =>
      let data : gmap string string :=
        <[CONF_USER_ID := ""]>
          (<[CONF_USERNAME := ""]>
             (<[CONF_LEAGUE_NAME := LeagueInfo.name league]>
                {[CONF_LEAGUE_ID := league_id]})) in
      if truthy_str username then
        match async_get_user username with
        | inl (SleeperApiNotFoundError _) =>
            inr ({[CONF_USERNAME := "user_not_found"]}, data)
        | inl (SleeperApiConnectionError _) =>
            inr ({["base" := "cannot_connect"]}, data)
        | inr user_info =>
            match Py.get_method user_info with
            | inl e => inl (FlowPyError e)
            | inr info =>
                let user_id := Py.get_default info "user_id" (Py.Str "") in
                match async_get_users client league_id with
                | inl (SleeperApiConnectionError _) =>
                    inr ({["base" := "cannot_connect"]}, data)
                | inl (SleeperApiNotFoundError msg) =>
                    inl (FlowApiError (SleeperApiNotFoundError msg))
                | inr league_users =>
                    (* [user_id not in league_user_ids]: a list or a
                       dictionary cannot be hashed; a value that is not a
                       string equals no user id. *)
                    match user_id with
                    | Py.List _ | Py.Dict _ => inl (FlowPyError Py.TypeError)
                    | Py.Str uid =>
                        if bool_decide
                             (uid ∈ map LeagueUser.user_id league_users)
                        then
                          inr (∅,
                               <[CONF_USER_ID := uid]>
                                 (<[CONF_USERNAME := username]> data))
                        else
                          inr ({[CONF_USERNAME := "user_not_in_league"]},
                               data)
                    | _ =>
                        inr ({[CONF_USERNAME := "user_not_in_league"]}, data)
                    end
                end
            end
        end
      else inr (∅, data)
  end.

(** What a step of the flow returns. *)
Inductive FlowResult :=
| ShowForm (step_id : string) (errors : gmap string string)
| UpdateReloadAndAbort (data : gmap string string).

(** [async_step_reconfigure] on the data of the entry and on the user
    input, if any: the user name entered, already stripped.  [None] stands
    for the [KeyError] of an entry without league id. *)
Definition async_step_reconfigure
    (client : SleeperApiClient)
    (async_get_user : string -> ApiError + Py.value)
    (entry_data : gmap string string) (user_input : option string)
  : option (FlowExn + FlowResult) :=
  match user_input with
  | Some username =>
      match entry_data !! CONF_LEAGUE_ID with
      | None => None
      | Some league_id =>
          Some
            match _validate_input client async_get_user league_id username
            with
            | inl e => inl e
            | inr (errors, data) =>
                if bool_decide (errors = ∅)
                then inr (UpdateReloadAndAbort (data ∪ entry_data))
                else inr (ShowForm "reconfigure" errors)
            end
      end
  | None => Some (inr (ShowForm "reconfigure" ∅))
  end.

Module SampleFlow.

(** The service knows the user ["ann"]. *)
Definition async_get_user (username : string) : ApiError + Py.value :=
  if (username =? "ann")%string
  then inr (Py.Dict [("user_id", Py.Str "u1"); ("username", Py.Str "ann")])
  else inl (SleeperApiNotFoundError ("Resource not found: /user/" ++ username)).

(** An entry made without a user name. *)
Definition entry_data : gmap string string :=
  <[CONF_USER_ID := ""]>
    (<[CONF_USERNAME := ""]>
       (<[CONF_LEAGUE_NAME := "Old name"]> {[CONF_LEAGUE_ID := "L1"]})).

End SampleFlow.

(** The values Python cannot hash, among decoded JSON. *)
Definition unhashable (v : Py.value) : bool :=
  match v with
  | Py.List _ | Py.Dict _ => true
  | _ => false
  end.

(** The errors [_validate_input] reports, by field and code. *)
Definition flow_errors : list (string * string) :=
  [(CONF_LEAGUE_ID, "league_not_found"); ("base", "cannot_connect");
   (CONF_USERNAME, "user_not_found"); (CONF_USERNAME, "user_not_in_league")].

(* ===================================================================== *)
(** ** api.py: the requests *)
(* ===================================================================== *)

(** What the [try] block of [_get] comes to: an [aiohttp.ClientError] or a
    [TimeoutError], with its text, or the decoded JSON of the response. *)
Inductive Response :=
| RequestFailed (err : string)
| Decoded (data : Py.value).

Definition _get (path : string) (response : Response) : ApiError + Py.value :=
  match response with
  | RequestFailed err =>
      inl (SleeperApiConnectionError
             ("Error connecting to Sleeper API: " ++ err)%string)
  | Decoded Py.None_ =>
      inl (SleeperApiNotFoundError ("Resource not found: " ++ path)%string)
  | Decoded data => inr data
  end.

(** The paths of the requests. *)
Definition league_path (league_id : string) : string :=
  ("/league/" ++ league_id)%string.

Definition matchups_path (league_id : string) (week : Z) : string :=
  ("/league/" ++ league_id ++ "/matchups/" ++ int_str week)%string.

(** What a method of the client raises: an exception of its own, or one of
    Python, from the conversion of the payload. *)
Inductive ClientExn :=
| ClientApiError (e : ApiError)
| ClientPyError (e : Py.exn).

(** The items a [for] clause reads from a decoded value. *)
Definition iterate (data : Py.value) : Py.res (list Py.value) :=
  match data with
  | Py.List items => Py.ok items
  | Py.Dict members => Py.ok (map (fun member => Py.Str member.1) members)
  | Py.Str s =>
      Py.ok (map (fun c => Py.Str (String c EmptyString))
                 (String.list_ascii_of_string s))
  | _ => Py.throw Py.TypeError
  end.

(** [[f(item) for item in items]]: the first exception stops it. *)
Fixpoint comprehension {A} (f : Py.value -> Py.res A) (items : list Py.value)
  : Py.res (list A) :=
  match items with
  | [] => Py.ok []
  | item :: items' =>
      try! a := f item in
      try! rest := comprehension f items' in
      Py.ok (a :: rest)
  end.

(** [Matchup.from_api(m)] for an [m] that is any decoded value: the
    conversion calls [m.get]. *)
Definition matchup_of (m : Py.value) : Py.res MatchupObj.t :=
  try! members := Py.get_method m in
  MatchupObj.from_api members.

(** [async_get_matchups], on what the request comes to. *)
Definition async_get_matchups_of
    (league_id : string) (week : Z) (response : Response)
  : ClientExn + list MatchupObj.t :=
  match _get (matchups_path league_id week) response with
  | inl e => inl (ClientApiError e)
  | inr data =>
      match (try! items := iterate data in comprehension matchup_of items) with
      | inl e => inl (ClientPyError e)
      | inr matchups => inr matchups
      end
  end.
(* ===================================================================== *)
(** ** Theorems: scheduler *)
(* ===================================================================== *)

Lemma string_eqb_spec (s t : string) : reflect (s = t) (s =? t)%string.
Proof. apply String.eqb_spec. Qed.

Lemma in_regular_post_true st :
  in_regular_post st = true <-> st = "regular" \/ st = "post".
Proof.
  unfold in_regular_post. rewrite orb_true_iff, !String.eqb_eq. tauto.
Qed.

Lemma in_regular_post_false st :
  in_regular_post st = false <-> st <> "regular" /\ st <> "post".
Proof.
  unfold in_regular_post. rewrite orb_false_iff, !String.eqb_neq. tauto.
Qed.

Lemma late_saturday_games_test st week :
  (week >=? 15) || (st =? "post")%string = true <->
  late_saturday_games st week.
Proof.
  unfold late_saturday_games.
  rewrite orb_true_iff, String.eqb_eq, Z.geb_le. tauto.
Qed.

Lemma _is_in_game_window_spec st week d h :
  _is_in_game_window (weekday_of d) h week st = true <->
  spec_in_game_window st week d h.
Proof.
  unfold _is_in_game_window, spec_in_game_window.
  rewrite <- late_saturday_games_test.
  destruct ((week >=? 15) || (st =? "post")%string) eqn:Hs;
    destruct d; simpl;
    destruct (h >=? 19) eqn:H19; destruct (h >=? 12) eqn:H12; simpl;
    try rewrite Z.geb_le in *; try rewrite Z.geb_leb, Z.leb_gt in *;
    split; intros; try done; try lia; try tauto;
    intuition (try discriminate; try lia).
Qed.

Lemma _is_game_day_spec st week d :
  _is_game_day (weekday_of d) week st = true <->
  spec_is_game_day st week d.
Proof.
  unfold _is_game_day, spec_is_game_day.
  rewrite <- late_saturday_games_test.
  destruct ((week >=? 15) || (st =? "post")%string) eqn:Hs;
    destruct d; simpl; split; intros; try done; try tauto;
    intuition discriminate.
Qed.

(** C1. For every season type, week, day of the week and hour, the interval
    [_calculate_update_interval] selects equals the reference definition:
    the off-season cadence (24 h) when the season type is "off", whatever
    the day and hour; the default cadence (1 h) when it is neither "regular"
    nor "post"; otherwise the game-window cadence (5 min) inside a window,
    else the game-day cadence (15 min) on a game day, else the default.  The
    window is tested before the game day. *)
Theorem calculate_update_interval_spec st week d h :
  _calculate_update_interval st week (at_time d h)
  = spec_next_interval st week d h.
Proof.
  unfold _calculate_update_interval, spec_next_interval.
  destruct (string_eqb_spec st "off") as [Hoff | Hoff].
  { rewrite decide_True by done. reflexivity. }
  rewrite decide_False by done.
  destruct (in_regular_post st) eqn:Hrp; simpl.
  2:{ apply in_regular_post_false in Hrp.
      rewrite decide_True by done. reflexivity. }
  apply in_regular_post_true in Hrp.
  rewrite decide_False by (intros [? ?]; tauto).
  destruct (_is_in_game_window (weekday_of d) h week st) eqn:Hw.
  { apply _is_in_game_window_spec in Hw.
    rewrite decide_True by done. reflexivity. }
  rewrite decide_False by (rewrite <- _is_in_game_window_spec; congruence).
  destruct (_is_game_day (weekday_of d) week st) eqn:Hg.
  { apply _is_game_day_spec in Hg.
    rewrite decide_True by done. reflexivity. }
  rewrite decide_False by (rewrite <- _is_game_day_spec; congruence).
  reflexivity.
Qed.

(** The dated examples of the specification: a Saturday at 13:00 in week 16
    of the regular season is inside a window; in week 5 it is not. *)
Example saturday_week_16 :
  _calculate_update_interval "regular" 16 (at_time Saturday 13) = 300.
Proof. reflexivity. Qed.

Example saturday_week_5 :
  _calculate_update_interval "regular" 5 (at_time Saturday 13) = 3600.
Proof. reflexivity. Qed.

(** Every value [weekday()] can return is the number of a day. *)
Lemma weekday_of_surjective (n : Z) :
  0 <= n <= 6 -> exists d, weekday_of d = n.
Proof.
  intros H.
  assert (n = 0 \/ n = 1 \/ n = 2 \/ n = 3 \/ n = 4 \/ n = 5 \/ n = 6)
    as Hn by lia.
  destruct Hn as [-> | [-> | [-> | [-> | [-> | [-> | ->]]]]]];
    [exists Monday | exists Tuesday | exists Wednesday | exists Thursday
    | exists Friday | exists Saturday | exists Sunday]; reflexivity.
Qed.
(* ===================================================================== *)
(** ** Theorems: [sorted] *)
(* ===================================================================== *)

Section SortedFacts.
Context {A K : Type}.
Variable ltb : K -> K -> bool.
Variable key : A -> K.
Variable reverse : bool.

Abbreviation before := (comes_before ltb key reverse).
Abbreviation insert_sorted := (insert_sorted ltb key reverse).
Abbreviation sorted := (sorted ltb key reverse).

Lemma insert_sorted_perm x l : insert_sorted x l ≡ₚ x :: l.
Proof.
  induction l as [| y l IH]; simpl; [done|].
  destruct (before y x); [|done].
  rewrite IH. apply Permutation_swap.
Qed.

Lemma sorted_perm l : sorted l ≡ₚ l.
Proof.
  induction l as [| x l IH]; simpl; [done|].
  rewrite insert_sorted_perm. by constructor.
Qed.

Lemma sorted_length l : length (sorted l) = length l.
Proof. apply Permutation_length, sorted_perm. Qed.

(** Order: [R a b] reads "a may stand before b", and [C a b] that the keys
    of [a] and [b] can be compared. *)
Section Order.
Variable R : A -> A -> Prop.
Variable C : A -> A -> Prop.
Hypothesis R_before : forall a b, before a b = true -> R a b.
Hypothesis R_not_before : forall a b, C a b -> before a b = false -> R b a.
Hypothesis R_trans : forall a b c, R a b -> R b c -> R a c.
Hypothesis C_sym : forall a b, C a b -> C b a.

Lemma insert_sorted_sorted x l :
  Forall (C x) l ->
  StronglySorted R l -> StronglySorted R (insert_sorted x l).
Proof.
  intros Hx Hs. induction Hs as [| y l Hl IH Hy]; simpl.
  { repeat constructor. }
  apply Forall_cons in Hx as [Hxy Hx].
  destruct (before y x) eqn:Hyx.
  - constructor; [by apply IH|].
    rewrite insert_sorted_perm. constructor; [by apply R_before | done].
  - assert (R x y) as HR by (apply R_not_before; [by apply C_sym | done]).
    constructor; [by constructor|].
    constructor; [done|].
    eapply Forall_impl; [exact Hy|]. intros z Hz. by eapply R_trans.
Qed.

Lemma sorted_sorted l : ForallOrdPairs C l -> StronglySorted R (sorted l).
Proof.
  induction 1 as [| x l Hx Hl IH]; simpl; [constructor|].
  apply insert_sorted_sorted; [|done]. by rewrite sorted_perm.
Qed.

End Order.

(** Stability: the elements a predicate selects keep their order, when no
    two of them are strictly ordered. *)
Section Stability.
Variable P : A -> bool.
Hypothesis P_tied : forall a b, P a = true -> P b = true -> before a b = false.

Lemma insert_sorted_filter x l :
  filter (fun a => P a = true) (insert_sorted x l)
  = filter (fun a => P a = true) (x :: l).
Proof.
  induction l as [| y l IH]; simpl; [done|].
  destruct (before y x) eqn:Hyx; [|done].
  rewrite filter_cons, IH, !filter_cons.
  repeat case_decide; try done.
  rewrite P_tied in Hyx by done. done.
Qed.

Lemma sorted_filter l :
  filter (fun a => P a = true) (sorted l) = filter (fun a => P a = true) l.
Proof.
  induction l as [| x l IH]; simpl; [done|].
  by rewrite insert_sorted_filter, !filter_cons, IH.
Qed.

End Stability.

End SortedFacts.
(* ===================================================================== *)
(** ** Theorems: the order of [float] *)
(* ===================================================================== *)

Lemma float_ltb_Finite a b :
  float_ltb (Finite a) (Finite b) = true <-> (a < b)%Q.
Proof.
  simpl. rewrite Qlt_alt. destruct (a ?= b)%Q; split; done.
Qed.

Lemma float_leb_Finite a b :
  float_leb (Finite a) (Finite b) = true <-> (a <= b)%Q.
Proof.
  unfold float_leb. rewrite orb_true_iff, float_ltb_Finite. simpl.
  rewrite Qeq_bool_iff. symmetry. apply Qle_lteq.
Qed.

(** What [<=] holds of is not NaN. *)
Lemma float_leb_not_nan x y :
  float_leb x y = true -> is_nan x = false /\ is_nan y = false.
Proof. by destruct x as [a | [] |], y as [b | [] |]. Qed.

Lemma float_eqb_leb x y : float_eqb x y = true -> float_leb x y = true.
Proof. unfold float_leb. intros ->. apply orb_true_r. Qed.

Lemma float_ltb_leb x y : float_ltb x y = true -> float_leb x y = true.
Proof. unfold float_leb. by intros ->. Qed.

Lemma float_eqb_sym x y : float_eqb x y = true -> float_eqb y x = true.
Proof.
  destruct x as [a | [] |], y as [b | [] |]; simpl; try done.
  rewrite !Qeq_bool_iff. by symmetry.
Qed.

Lemma float_eqb_trans x y z :
  float_eqb x y = true -> float_eqb y z = true -> float_eqb x z = true.
Proof.
  destruct x as [a | [] |], y as [b | [] |], z as [c | [] |];
    simpl; try done.
  rewrite !Qeq_bool_iff. intros -> ->. reflexivity.
Qed.

Lemma float_eqb_refl x : is_nan x = false -> float_eqb x x = true.
Proof.
  destruct x as [a | [] |]; simpl; try done.
  intros _. apply Qeq_bool_iff. reflexivity.
Qed.

(** Of two floats that are not NaN, one is below the other or they are
    equal. *)
Lemma float_ltb_false x y :
  is_nan x = false -> is_nan y = false ->
  float_ltb x y = false -> float_leb y x = true.
Proof.
  destruct x as [a | [] |], y as [b | [] |]; try done.
  intros _ _ Hlt. apply float_leb_Finite.
  apply Qnot_lt_le. intros H. apply float_ltb_Finite in H. congruence.
Qed.

Lemma float_leb_trans x y z :
  float_leb x y = true -> float_leb y z = true -> float_leb x z = true.
Proof.
  destruct x as [a | [] |], y as [b | [] |], z as [c | [] |]; try done.
  rewrite !float_leb_Finite. apply Qle_trans.
Qed.

Lemma float_leb_antisym x y :
  float_leb x y = true -> float_leb y x = true -> float_eqb x y = true.
Proof.
  destruct x as [a | [] |], y as [b | [] |]; try done.
  rewrite !float_leb_Finite. simpl. rewrite Qeq_bool_iff.
  apply Qle_antisym.
Qed.
(* ===================================================================== *)
(** ** Theorems: standings *)
(* ===================================================================== *)

Lemma standings_before_true a b :
  comes_before tuple_ltb SleeperData.standing_key true a b = true ->
  ranks_at_least a b.
Proof.
  unfold comes_before, tuple_ltb, ranks_at_least; simpl.
  destruct (Z.eqb_spec (Roster.wins b) (Roster.wins a)) as [He | Hne]; simpl.
  - destruct (float_eqb (Roster.fpts b) (Roster.fpts a)); simpl; [done|].
    intros Hlt. right. split; [done|]. by apply float_ltb_leb.
  - rewrite Z.ltb_lt. by left.
Qed.

Lemma standings_before_false a b :
  comparable a b ->
  comes_before tuple_ltb SleeperData.standing_key true a b = false ->
  ranks_at_least b a.
Proof.
  unfold comparable, comes_before, tuple_ltb, ranks_at_least; simpl.
  intros Hc.
  destruct (Z.eqb_spec (Roster.wins b) (Roster.wins a)) as [He | Hne]; simpl.
  - destruct (Hc (eq_sym He)) as [Ha Hb].
    destruct (float_eqb (Roster.fpts b) (Roster.fpts a)) eqn:Hq; simpl.
    + intros _. right. split; [done|].
      by apply float_eqb_leb, float_eqb_sym.
    + intros Hlt. right. split; [done|]. by apply float_ltb_false.
  - rewrite Z.ltb_ge. left. lia.
Qed.

Lemma ranks_at_least_trans a b c :
  ranks_at_least a b -> ranks_at_least b c -> ranks_at_least a c.
Proof.
  unfold ranks_at_least.
  intros [H1 | [H1 H1']] [H2 | [H2 H2']]; try (left; lia).
  right. split; [lia|]. by eapply float_leb_trans.
Qed.

(** Rosters that are ranked, in either order, can be compared. *)
Lemma ranks_at_least_comparable a b :
  ranks_at_least a b \/ ranks_at_least b a -> comparable a b.
Proof.
  unfold ranks_at_least, comparable.
  intros [[H | [_ H]] | [H | [_ H]]] Hw; try lia;
    apply float_leb_not_nan in H; tauto.
Qed.

Lemma comparable_sym a b : comparable a b -> comparable b a.
Proof. unfold comparable. intros H Hw. destruct (H (eq_sym Hw)). done. Qed.

Lemma tied_iff a b :
  tied a b = true <-> ranks_at_least a b /\ ranks_at_least b a.
Proof.
  unfold tied, tuple_eqb, ranks_at_least; simpl.
  rewrite andb_true_iff, Z.eqb_eq. split.
  - intros [Hw Hq]. split; right; (split; [lia|]).
    + by apply float_eqb_leb, float_eqb_sym.
    + by apply float_eqb_leb.
  - intros [[H1 | [H1 H1']] [H2 | [H2 H2']]]; try lia.
    split; [done|]. by apply float_leb_antisym.
Qed.

Lemma tied_trans a b c : tied a b = true -> tied b c = true -> tied a c = true.
Proof.
  rewrite !tied_iff. intros [? ?] [? ?].
  split; eapply ranks_at_least_trans; eauto.
Qed.

Lemma tied_sym a b : tied a b = true -> tied b a = true.
Proof. rewrite !tied_iff. tauto. Qed.

(** A roster ties with itself, unless its points are NaN. *)
Lemma tied_refl a b : tied a b = true -> tied a a = true.
Proof. intros H. eapply tied_trans; [exact H | by apply tied_sym]. Qed.

Lemma tied_not_before r a b :
  tied r a = true -> tied r b = true ->
  comes_before tuple_ltb SleeperData.standing_key true a b = false.
Proof.
  intros Ha Hb.
  assert (tied b a = true) as Hba.
  { eapply tied_trans; [|exact Ha]. by apply tied_sym. }
  unfold tied, tuple_eqb in Hba. unfold comes_before, tuple_ltb.
  simpl in *.
  apply andb_true_iff in Hba as [Hw Hq]. by rewrite Hw, Hq.
Qed.

(** Where the points that are compared can be compared, the model of
    [sorted] returns a stable ranking. *)
Lemma sorted_rosters_ranking rosters :
  ForallOrdPairs comparable rosters ->
  stable_ranking rosters (SleeperData.sorted_rosters rosters).
Proof.
  intros Hc. unfold SleeperData.sorted_rosters. split.
  - apply sorted_perm.
  - apply (sorted_sorted _ _ _ ranks_at_least comparable); [| | | |done].
    + apply standings_before_true.
    + apply standings_before_false.
    + apply ranks_at_least_trans.
    + apply comparable_sym.
  - intros r.
    pose proof (sorted_filter tuple_ltb SleeperData.standing_key true
                  (tied r) (tied_not_before r) rosters) as H.
    exact H.
Qed.

(** A stable ranking of a list is unique: whatever algorithm the built-in
    [sorted] runs, its documented contract fixes its result. *)
Lemma stable_ranking_unique_aux (s1 s2 : list Roster.t) :
  s1 ≡ₚ s2 ->
  StronglySorted ranks_at_least s1 ->
  StronglySorted ranks_at_least s2 ->
  (forall r, filter (fun x => tied r x = true) s1
             = filter (fun x => tied r x = true) s2) ->
  s1 = s2.
Proof.
  revert s2. induction s1 as [| a s1 IH]; intros s2 Hp H1 H2 Hf.
  { by apply Permutation_nil in Hp. }
  destruct s2 as [| b s2].
  { symmetry in Hp. by apply Permutation_nil in Hp. }
  apply StronglySorted_inv in H1 as [H1 Ha].
  apply StronglySorted_inv in H2 as [H2 Hb].
  assert (a = b) as <-.
  { assert (b ∈ a :: s1) as Hin1 by (rewrite Hp; left).
    assert (a ∈ b :: s2) as Hin2 by (rewrite <- Hp; left).
    apply elem_of_cons in Hin1 as [-> | Hin1]; [done|].
    apply elem_of_cons in Hin2 as [-> | Hin2]; [done|].
    assert (tied a b = true) as Hab.
    { apply tied_iff. split.
      - by eapply Forall_forall in Ha.
      - by eapply Forall_forall in Hb. }
    pose proof (Hf a) as Hfa.
    rewrite !filter_cons in Hfa.
    rewrite decide_True in Hfa by (by eapply tied_refl).
    rewrite decide_True in Hfa by done.
    by injection Hfa. }
  f_equal. apply IH; [by eapply Permutation_cons_inv | done | done |].
  intros r. specialize (Hf r). rewrite !filter_cons in Hf.
  case_decide; [by injection Hf | done].
Qed.

Lemma stable_ranking_unique input s1 s2 :
  stable_ranking input s1 -> stable_ranking input s2 -> s1 = s2.
Proof.
  intros [P1 S1 F1] [P2 S2 F2].
  apply stable_ranking_unique_aux; [by rewrite P1, P2 | done | done |].
  intros r. by rewrite F1, F2.
Qed.

(** Whether every two entries of a list are related, by a symmetric
    relation, does not depend on the order of the list. *)
Lemma ForallOrdPairs_perm {A} (C : A -> A -> Prop) (l l' : list A) :
  (forall a b, C a b -> C b a) ->
  l ≡ₚ l' -> ForallOrdPairs C l -> ForallOrdPairs C l'.
Proof.
  intros Hsym Hp.
  induction Hp as [| x l l' Hp IH | x y l | l l' l'' _ IH1 _ IH2].
  - done.
  - intros H. inversion H as [| ? ? Hx Hl]; subst.
    constructor; [by rewrite <- Hp | by apply IH].
  - intros H. inversion H as [| ? ? Hy Hl]; subst.
    inversion Hl as [| ? ? Hx Hl']; subst.
    apply Forall_cons in Hy as [Hyx Hy].
    constructor; [|by constructor].
    constructor; [by apply Hsym | done].
  - intros H. by apply IH2, IH1.
Qed.

Lemma StronglySorted_comparable l :
  StronglySorted ranks_at_least l -> ForallOrdPairs comparable l.
Proof.
  induction 1 as [| a l Hl IH Ha]; constructor; [|done].
  eapply Forall_impl; [exact Ha|].
  intros b Hab. apply ranks_at_least_comparable. by left.
Qed.

(** No order of the rosters ranks them when the points of two of them with
    as many wins cannot be compared. *)
Lemma ranking_comparable rosters ranked :
  ranked ≡ₚ rosters ->
  StronglySorted ranks_at_least ranked -> ForallOrdPairs comparable rosters.
Proof.
  intros Hp Hs.
  apply (ForallOrdPairs_perm comparable ranked); [|done|].
  - apply comparable_sym.
  - by apply StronglySorted_comparable.
Qed.

Lemma build_standings_sorted
    nfl_state league rosters users matchups user_id :
  SleeperData.standings
    (SleeperData.build nfl_state league rosters users matchups user_id)
  = map Roster.roster_id (SleeperData.sorted_rosters rosters).
Proof.
  unfold SleeperData.build.
  destruct user_id as [uid|]; [destruct (truthy_str uid)|]; reflexivity.
Qed.
(** C2, as stated, fails on a list in which a roster whose points are NaN
    has as many wins as others: the comparisons with NaN are all false, the
    list is returned as it is, and the roster with 5 points stands above
    the one with 10.  No other order of the three rosters would do. *)
Lemma build_standings_nan :
  let data :=
    SleeperData.build Sample.nfl_state Sample.league SampleNaN.rosters
                      Sample.users [] None in
  SleeperData.standings data = [1; 2; 3] /\
  Roster.wins SampleNaN.low_roster = Roster.wins SampleNaN.high_roster /\
  float_ltb (Roster.fpts SampleNaN.low_roster)
            (Roster.fpts SampleNaN.high_roster) = true /\
  ~ ranks_at_least SampleNaN.low_roster SampleNaN.high_roster /\
  (forall ranked,
     ranked ≡ₚ SampleNaN.rosters ->
     ~ StronglySorted ranks_at_least ranked).
Proof.
  cbv zeta. split; [by vm_compute|]. split; [done|]. split; [done|].
  split.
  - intros [H | [_ H]]; [simpl in H; lia | by vm_compute in H].
  - intros ranked Hp Hs.
    pose proof (ranking_comparable _ _ Hp Hs) as Hc.
    inversion Hc as [| ? ? Hlow _]; subst.
    apply Forall_cons in Hlow as [Hlow _].
    by destruct (Hlow eq_refl).
Qed.

(** C2, amended.  For every roster list the standings [build] produces are
    a permutation of the input roster-id sequence, and the same roster list
    always yields the same standings.  When no roster whose points-for are
    NaN has as many wins as another roster of the list (so, whenever no
    points-for are NaN), the standings are the roster ids of a stable
    ranking of the input: ordered by wins descending, then points-for
    descending, with rosters that tie on both in their input order.  In no
    other case are the standings so ordered. *)
Theorem build_standings nfl_state league rosters users matchups user_id :
  let data :=
    SleeperData.build nfl_state league rosters users matchups user_id in
  SleeperData.standings data ≡ₚ map Roster.roster_id rosters /\
  (ForallOrdPairs comparable rosters ->
   exists ranked,
     SleeperData.standings data = map Roster.roster_id ranked /\
     stable_ranking rosters ranked) /\
  ((exists ranked,
      SleeperData.standings data = map Roster.roster_id ranked /\
      ranked ≡ₚ rosters /\
      StronglySorted ranks_at_least ranked) ->
   ForallOrdPairs comparable rosters) /\
  (forall nfl_state' league' users' matchups' user_id',
      SleeperData.standings
        (SleeperData.build nfl_state' league' rosters users' matchups'
                           user_id')
      = SleeperData.standings data).
Proof.
  cbv zeta. rewrite build_standings_sorted.
  split; [|split; [|split]].
  - apply Permutation_map, sorted_perm.
  - intros Hc. exists (SleeperData.sorted_rosters rosters).
    split; [done | by apply sorted_rosters_ranking].
  - intros (ranked & _ & Hp & Hs). by eapply ranking_comparable.
  - intros. by rewrite build_standings_sorted.
Qed.

Lemma build_standings_witness :
  ForallOrdPairs comparable Sample.rosters /\
  exists ranked,
    SleeperData.standings
      (SleeperData.build Sample.nfl_state Sample.league Sample.rosters
                         Sample.users Sample.matchups None)
    = map Roster.roster_id ranked /\
    stable_ranking Sample.rosters ranked.
Proof.
  assert (ForallOrdPairs comparable Sample.rosters) as Hc.
  { repeat constructor; by intros _. }
  split; [exact Hc|].
  exact (proj1 (proj2 (build_standings
                         Sample.nfl_state Sample.league Sample.rosters
                         Sample.users Sample.matchups None)) Hc).
Defined.

(** In the sample league Bob and Ann have three wins each, and Bob more
    points. *)
Example build_standings_sample :
  SleeperData.standings
    (SleeperData.build Sample.nfl_state Sample.league Sample.rosters
                       Sample.users Sample.matchups None)
  = [2; 1; 3].
Proof. by vm_compute. Qed.
(* ===================================================================== *)
(** ** Theorems: dictionaries filled in a loop *)
(* ===================================================================== *)

(** Both dictionaries of [build] are filled by one pass over a list that
    stores a value under a key taken from the element. *)
Section KeyedFold.
Context {A V K : Type} `{Countable K}.
Variable kf : A -> K.
Variable vf : A -> V.

Abbreviation keyed := (keyed kf vf).

Lemma keyed_snoc l a : keyed (l ++ [a]) = <[kf a := vf a]> (keyed l).
Proof. unfold keyed. by rewrite foldl_app. Qed.

(** What is stored was stored for an element of the list. *)
Lemma keyed_lookup_Some l k v :
  keyed l !! k = Some v -> exists a, a ∈ l /\ kf a = k /\ vf a = v.
Proof.
  induction l as [| a l IH] using rev_ind.
  { unfold keyed; simpl. by rewrite lookup_empty. }
  rewrite keyed_snoc. destruct (decide (kf a = k)) as [<- | Hne].
  - rewrite lookup_insert_eq. intros [= <-].
    exists a. split; [|done]. apply elem_of_app. right. by left.
  - rewrite lookup_insert_ne by done. intros Hl.
    destruct (IH Hl) as (a' & Hin & Hk & Hv).
    exists a'. split; [|done]. apply elem_of_app. by left.
Qed.

(** Every key of the list is stored. *)
Lemma keyed_lookup_is_Some l a : a ∈ l -> is_Some (keyed l !! kf a).
Proof.
  induction l as [| b l IH] using rev_ind; [by intros ?%elem_of_nil|].
  rewrite keyed_snoc. intros Hin.
  destruct (decide (kf b = kf a)) as [-> | Hne].
  - rewrite lookup_insert_eq. by eexists.
  - rewrite lookup_insert_ne by done. apply IH.
    apply elem_of_app in Hin as [Hin | Hin]; [done|].
    apply list_elem_of_singleton in Hin. by subst.
Qed.

Lemma keyed_lookup_None l k :
  keyed l !! k = None <-> forall a, a ∈ l -> kf a <> k.
Proof.
  split.
  - intros Hn a Hin <-.
    destruct (keyed_lookup_is_Some l a Hin) as [v Hv]. congruence.
  - intros Hall. destruct (keyed l !! k) as [v|] eqn:Hl; [|done].
    destruct (keyed_lookup_Some l k v Hl) as (a & Hin & Hk & _).
    by destruct (Hall a Hin).
Qed.

(** The last element stored under a key is the one found there. *)
Lemma keyed_lookup_last l1 a l2 :
  (forall b, b ∈ l2 -> kf b <> kf a) ->
  keyed (l1 ++ a :: l2) !! kf a = Some (vf a).
Proof.
  induction l2 as [| b l2 IH] using rev_ind; intros Hl2.
  - rewrite keyed_snoc. apply lookup_insert_eq.
  - replace (l1 ++ a :: l2 ++ [b]) with ((l1 ++ a :: l2) ++ [b])
      by by rewrite <- app_assoc.
    rewrite keyed_snoc, lookup_insert_ne.
    + apply IH. intros c Hc. apply Hl2, elem_of_app. by left.
    + apply Hl2, elem_of_app. right. by left.
Qed.

(** An element that alone has its key is found under it. *)
Lemma keyed_lookup_unique l a :
  a ∈ l ->
  (forall b, b ∈ l -> kf b = kf a -> vf b = vf a) ->
  keyed l !! kf a = Some (vf a).
Proof.
  intros Hin Huniq.
  destruct (keyed_lookup_is_Some l a Hin) as [v Hv]. rewrite Hv.
  destruct (keyed_lookup_Some l _ v Hv) as (b & Hb & Hk & <-).
  f_equal. by apply Huniq.
Qed.

End KeyedFold.

(* ===================================================================== *)
(** ** Theorems: ownership and viewer *)
(* ===================================================================== *)

Lemma truthy_str_true s : truthy_str s = true <-> s <> "".
Proof.
  unfold truthy_str. rewrite negb_true_iff. apply String.eqb_neq.
Qed.

Lemma truthy_str_false s : truthy_str s = false <-> s = "".
Proof.
  unfold truthy_str. rewrite negb_false_iff. apply String.eqb_eq.
Qed.

Lemma user_by_id_of_keyed users :
  SleeperData.user_by_id_of users = keyed LeagueUser.user_id id users.
Proof. reflexivity. Qed.

Lemma roster_to_user_of_keyed user_by_id rosters :
  SleeperData.roster_to_user_of user_by_id rosters
  = keyed Roster.roster_id (SleeperData.owner_entry user_by_id) rosters.
Proof. reflexivity. Qed.

Lemma build_roster_to_user nfl_state league rosters users matchups user_id :
  SleeperData.roster_to_user
    (SleeperData.build nfl_state league rosters users matchups user_id)
  = SleeperData.roster_to_user_of (SleeperData.user_by_id_of users) rosters.
Proof.
  unfold SleeperData.build.
  destruct user_id as [uid|]; [destruct (truthy_str uid)|]; reflexivity.
Qed.

(** The user found under an id is a user of the list with that id. *)
Lemma user_by_id_Some users k u :
  SleeperData.user_by_id_of users !! k = Some u ->
  u ∈ users /\ LeagueUser.user_id u = k.
Proof.
  rewrite user_by_id_of_keyed. intros Hl.
  destruct (keyed_lookup_Some _ _ _ _ _ Hl) as (a & Hin & Hk & Hv).
  simpl in Hv. by subst.
Qed.

Lemma user_by_id_None users k :
  SleeperData.user_by_id_of users !! k = None <->
  forall u, u ∈ users -> LeagueUser.user_id u <> k.
Proof. rewrite user_by_id_of_keyed. apply keyed_lookup_None. Qed.

(** The only user of the list with an id is the one found under it. *)
Lemma user_by_id_unique users u :
  u ∈ users ->
  (forall u', u' ∈ users ->
     LeagueUser.user_id u' = LeagueUser.user_id u -> u' = u) ->
  SleeperData.user_by_id_of users !! LeagueUser.user_id u = Some u.
Proof.
  intros Hin Hu. rewrite user_by_id_of_keyed.
  by apply (keyed_lookup_unique LeagueUser.user_id id).
Qed.

(** When several users share an id, the last one listed is found. *)
Lemma user_by_id_last l1 u l2 :
  (forall u', u' ∈ l2 -> LeagueUser.user_id u' <> LeagueUser.user_id u) ->
  SleeperData.user_by_id_of (l1 ++ u :: l2) !! LeagueUser.user_id u = Some u.
Proof.
  intros Hl2. rewrite user_by_id_of_keyed.
  by apply (keyed_lookup_last LeagueUser.user_id id).
Qed.

(** When several rosters share an id, the owner of the last one listed is
    stored. *)
Lemma roster_to_user_last user_by_id l1 r l2 :
  (forall r', r' ∈ l2 -> Roster.roster_id r' <> Roster.roster_id r) ->
  SleeperData.roster_to_user_of user_by_id (l1 ++ r :: l2)
    !! Roster.roster_id r
  = Some (SleeperData.owner_entry user_by_id r).
Proof.
  intros Hl2. rewrite roster_to_user_of_keyed.
  by apply (keyed_lookup_last Roster.roster_id).
Qed.

Lemma roster_to_user_unique user_by_id rosters r :
  r ∈ rosters ->
  (forall r', r' ∈ rosters ->
     Roster.roster_id r' = Roster.roster_id r -> r' = r) ->
  SleeperData.roster_to_user_of user_by_id rosters !! Roster.roster_id r
  = Some (SleeperData.owner_entry user_by_id r).
Proof.
  intros Hin Hu. rewrite roster_to_user_of_keyed.
  apply (keyed_lookup_unique Roster.roster_id); [done|].
  intros b Hb Hk. by rewrite (Hu b Hb Hk).
Qed.

(** Unique ids in the whole list make every roster the only one with its
    id. *)
Lemma NoDup_roster_ids_unique rosters r r' :
  NoDup (map Roster.roster_id rosters) ->
  r ∈ rosters -> r' ∈ rosters ->
  Roster.roster_id r' = Roster.roster_id r -> r' = r.
Proof.
  intros Hnd Hr Hr' Hid.
  apply list_elem_of_lookup in Hr as [i Hi].
  apply list_elem_of_lookup in Hr' as [j Hj].
  assert (i = j) as ->.
  { eapply NoDup_lookup; [exact Hnd | |].
    - by rewrite list_lookup_fmap, Hi.
    - rewrite list_lookup_fmap, Hj. simpl. by rewrite Hid. }
  congruence.
Qed.
(** What one pass of the ownership loop stores, case by case. *)
Lemma owner_entry_resolved users r o u :
  Roster.owner_id r = Some o -> o <> "" ->
  SleeperData.user_by_id_of users !! o = Some u ->
  SleeperData.owner_entry (SleeperData.user_by_id_of users) r = u.
Proof.
  intros Ho Hne Hl. unfold SleeperData.owner_entry. rewrite Ho.
  apply truthy_str_true in Hne. by rewrite Hne, Hl.
Qed.

Lemma owner_entry_placeholder users r :
  (Roster.owner_id r = None \/ Roster.owner_id r = Some "" \/
   forall u, u ∈ users -> Some (LeagueUser.user_id u) <> Roster.owner_id r) ->
  SleeperData.owner_entry (SleeperData.user_by_id_of users) r
  = SleeperData.placeholder.
Proof.
  unfold SleeperData.owner_entry.
  intros [-> | [-> | Hno]]; [done | done |].
  destruct (Roster.owner_id r) as [o|]; [|done].
  destruct (truthy_str o); [|done].
  assert (SleeperData.user_by_id_of users !! o = None) as ->; [|done].
  apply user_by_id_None. intros u Hu Heq. apply (Hno u Hu). by rewrite Heq.
Qed.

(** C3, as stated, fails in three ways.  Where the owner id is the empty
    string: it is present, one user has it as user id, and yet the roster is
    mapped to the placeholder.  Where two rosters have one roster id: the
    owner id of the first is the id of Bob alone, and yet the id is mapped
    to the owner of the second.  Where two users have one user id: no user
    is the only one with the owner id, and yet the roster is mapped to the
    second of them, not to the placeholder. *)
Lemma build_roster_owner_fails :
  (let rosters := [Sample.blank_roster] in
   let users := [Sample.ghost] in
   let data :=
     SleeperData.build Sample.nfl_state Sample.league rosters users []
                       None in
   Sample.blank_roster ∈ rosters /\
   Roster.owner_id Sample.blank_roster
     = Some (LeagueUser.user_id Sample.ghost) /\
   Sample.ghost ∈ users /\
   (forall u', u' ∈ users ->
      LeagueUser.user_id u' = LeagueUser.user_id Sample.ghost ->
      u' = Sample.ghost) /\
   SleeperData.roster_to_user data !! Roster.roster_id Sample.blank_roster
     = Some SleeperData.placeholder /\
   SleeperData.placeholder <> Sample.ghost) /\
  (let rosters :=
     [SampleDuplicates.first_roster; SampleDuplicates.second_roster] in
   let data :=
     SleeperData.build Sample.nfl_state Sample.league rosters Sample.users
                       [] None in
   SampleDuplicates.first_roster ∈ rosters /\
   Roster.owner_id SampleDuplicates.first_roster
     = Some (LeagueUser.user_id Sample.bob) /\
   Sample.bob ∈ Sample.users /\
   (forall u', u' ∈ Sample.users ->
      LeagueUser.user_id u' = LeagueUser.user_id Sample.bob ->
      u' = Sample.bob) /\
   SleeperData.roster_to_user data
     !! Roster.roster_id SampleDuplicates.first_roster
     = Some Sample.ann /\
   Sample.ann <> Sample.bob) /\
  (let rosters := [Sample.anns_roster] in
   let users := [Sample.ann; SampleDuplicates.ann_again] in
   let data :=
     SleeperData.build Sample.nfl_state Sample.league rosters users []
                       None in
   Sample.anns_roster ∈ rosters /\
   Roster.owner_id Sample.anns_roster
     = Some (LeagueUser.user_id Sample.ann) /\
   LeagueUser.user_id SampleDuplicates.ann_again
     = LeagueUser.user_id Sample.ann /\
   Sample.ann ∈ users /\ SampleDuplicates.ann_again ∈ users /\
   Sample.ann <> SampleDuplicates.ann_again /\
   SleeperData.roster_to_user data !! Roster.roster_id Sample.anns_roster
     = Some SampleDuplicates.ann_again /\
   SampleDuplicates.ann_again <> SleeperData.placeholder).
Proof.
  cbv zeta. split; [|split].
  - split; [left|]. split; [reflexivity|]. split; [left|].
    split; [|split; [by vm_compute | discriminate]].
    intros u' Hu' _. apply elem_of_cons in Hu' as [-> | Hu']; [done|].
    by apply elem_of_nil in Hu'.
  - split; [left|]. split; [reflexivity|]. split; [right; left|].
    split; [|split; [by vm_compute | discriminate]].
    intros u' Hu'. unfold Sample.users in Hu'.
    repeat (apply elem_of_cons in Hu' as [-> | Hu']);
      try (by apply elem_of_nil in Hu'); done.
  - split; [left|]. split; [reflexivity|]. split; [reflexivity|].
    split; [left|]. split; [right; left|]. split; [discriminate|].
    split; [by vm_compute | discriminate].
Qed.

(** C3, amended.  For every roster list and user list, the roster-owner
    mapping of [build] is defined for every input roster id.  It maps the
    id of a roster, the last one of the list with that id (any roster, when
    the ids differ), to the last user of the list whose user id is the
    roster's owner id (the only such user, when the ids differ), when the
    owner id is present and not the empty string and there is such a user;
    and to the shared placeholder user, with display name "Unknown" and no
    team name, when the owner id is absent, is the empty string, or is the
    id of no user. *)
Theorem build_roster_owner nfl_state league rosters users matchups user_id :
  let data :=
    SleeperData.build nfl_state league rosters users matchups user_id in
  (forall r, r ∈ rosters ->
     is_Some (SleeperData.roster_to_user data !! Roster.roster_id r)) /\
  (forall before r after,
     rosters = before ++ r :: after ->
     (forall r', r' ∈ after -> Roster.roster_id r' <> Roster.roster_id r) ->
     (forall o earlier u later,
        Roster.owner_id r = Some o -> o <> "" ->
        users = earlier ++ u :: later ->
        LeagueUser.user_id u = o ->
        (forall u', u' ∈ later -> LeagueUser.user_id u' <> o) ->
        SleeperData.roster_to_user data !! Roster.roster_id r = Some u) /\
     ((Roster.owner_id r = None \/ Roster.owner_id r = Some "" \/
       forall u, u ∈ users ->
                 Some (LeagueUser.user_id u) <> Roster.owner_id r) ->
      SleeperData.roster_to_user data !! Roster.roster_id r
      = Some SleeperData.placeholder)) /\
  LeagueUser.display_name SleeperData.placeholder = "Unknown" /\
  LeagueUser.team_name SleeperData.placeholder = None.
Proof.
  cbv zeta. rewrite build_roster_to_user.
  split; [|split; [|done]].
  - intros r Hr. rewrite roster_to_user_of_keyed.
    by apply (keyed_lookup_is_Some Roster.roster_id).
  - intros l1 r l2 -> Hlast.
    rewrite roster_to_user_last by done. split.
    + intros o ul1 u ul2 Ho Hne -> Hid Hulast. f_equal.
      apply (owner_entry_resolved _ r o u); [done | done |].
      subst o. by apply user_by_id_last.
    + intros Hcase. f_equal. by apply owner_entry_placeholder.
Qed.

Lemma build_roster_owner_witness :
  let data :=
    SleeperData.build Sample.nfl_state Sample.league Sample.rosters
                      Sample.users Sample.matchups None in
  SleeperData.roster_to_user data !! 1 = Some Sample.ann /\
  SleeperData.roster_to_user data !! 3 = Some SleeperData.placeholder.
Proof.
  pose proof (build_roster_owner
                Sample.nfl_state Sample.league Sample.rosters Sample.users
                Sample.matchups None) as (_ & Hmap & _).
  split.
  - refine (proj1 (Hmap [] Sample.anns_roster
                        [Sample.bobs_roster; Sample.unclaimed_roster]
                        eq_refl _)
                  "u1" [] Sample.ann [Sample.bob] eq_refl _ eq_refl eq_refl
                  _).
    + intros r' Hr'.
      repeat (apply elem_of_cons in Hr' as [-> | Hr']);
        try (by apply elem_of_nil in Hr'); done.
    + discriminate.
    + intros u' Hu'.
      repeat (apply elem_of_cons in Hu' as [-> | Hu']);
        try (by apply elem_of_nil in Hu'); done.
  - refine (proj2 (Hmap [Sample.anns_roster; Sample.bobs_roster]
                        Sample.unclaimed_roster [] eq_refl _) _).
    + by intros r' ?%elem_of_nil.
    + by left.
Defined.

(** The two users that share an id, and the two rosters that do: the last
    listed is the one that counts. *)
Example build_roster_owner_duplicates :
  SleeperData.roster_to_user
    (SleeperData.build Sample.nfl_state Sample.league
       [SampleDuplicates.first_roster; SampleDuplicates.second_roster]
       [Sample.ann; Sample.bob; SampleDuplicates.ann_again] [] None)
    !! 1
  = Some SampleDuplicates.ann_again.
Proof. by vm_compute. Qed.

(** C10, as stated, fails for a roster with the empty owner id when a later
    roster of the list has its roster id: the id is then mapped to the
    owner of the later one. *)
Lemma build_empty_owner_id_overwritten :
  let rosters := [Sample.blank_roster; SampleDuplicates.claimed_roster] in
  let data :=
    SleeperData.build Sample.nfl_state Sample.league rosters Sample.users
                      [] None in
  Sample.blank_roster ∈ rosters /\
  Roster.owner_id Sample.blank_roster = Some "" /\
  SleeperData.roster_to_user data !! Roster.roster_id Sample.blank_roster
    = Some Sample.ann /\
  Sample.ann <> SleeperData.placeholder.
Proof.
  cbv zeta. split; [left|]. split; [reflexivity|].
  split; [by vm_compute | discriminate].
Qed.

(** C10, amended.  For every roster whose owner id is the empty string, and
    after which the list holds no roster with its roster id (any such
    roster, when the ids differ), the roster-owner mapping of [build] holds
    the placeholder "Unknown" user, whatever the user list: also when a
    user has the empty string as user id. *)
Theorem build_empty_owner_id_placeholder
    nfl_state league before (r : Roster.t) after users matchups user_id :
  (forall r', r' ∈ after -> Roster.roster_id r' <> Roster.roster_id r) ->
  Roster.owner_id r = Some "" ->
  SleeperData.roster_to_user
    (SleeperData.build nfl_state league (before ++ r :: after) users
                       matchups user_id)
    !! Roster.roster_id r
  = Some SleeperData.placeholder /\
  LeagueUser.display_name SleeperData.placeholder = "Unknown".
Proof.
  intros Hlast Ho. split; [|done].
  rewrite build_roster_to_user, roster_to_user_last by done.
  f_equal. unfold SleeperData.owner_entry. by rewrite Ho.
Qed.

Lemma build_empty_owner_id_placeholder_witness :
  SleeperData.roster_to_user
    (SleeperData.build Sample.nfl_state Sample.league
       [Sample.anns_roster; Sample.blank_roster]
       [Sample.ann; Sample.ghost] [] None)
    !! 4
  = Some SleeperData.placeholder /\
  LeagueUser.display_name SleeperData.placeholder = "Unknown".
Proof.
  apply (build_empty_owner_id_placeholder
           Sample.nfl_state Sample.league
           [Sample.anns_roster] Sample.blank_roster []
           [Sample.ann; Sample.ghost] [] None).
  - by intros r' ?%elem_of_nil.
  - reflexivity.
Defined.
(* ===================================================================== *)
(** ** Theorems: viewer resolution *)
(* ===================================================================== *)

Lemma owned_by_true uid r :
  SleeperData.owned_by uid r = true <-> Roster.owner_id r = Some uid.
Proof.
  unfold SleeperData.owned_by. destruct (Roster.owner_id r) as [o|].
  - rewrite String.eqb_eq. split; congruence.
  - split; discriminate.
Qed.

(** [find] returns the first element that passes the test. *)
Lemma find_first {A} (f : A -> bool) l1 x l2 :
  f x = true -> (forall y, y ∈ l1 -> f y = false) ->
  find f (l1 ++ x :: l2) = Some x.
Proof.
  intros Hx. induction l1 as [| y l1 IH]; intros Hl1; simpl.
  - by rewrite Hx.
  - rewrite (Hl1 y) by left. apply IH. intros z Hz. apply Hl1. by right.
Qed.

Lemma find_none_iff {A} (f : A -> bool) l :
  find f l = None <-> forall y, y ∈ l -> f y = false.
Proof.
  induction l as [| x l IH]; simpl.
  - split; [intros _ y Hy; by apply elem_of_nil in Hy | done].
  - destruct (f x) eqn:Hx.
    + split; [done|]. intros Hall. rewrite (Hall x) in Hx by left. done.
    + rewrite IH. split.
      * intros Hall y Hy. apply elem_of_cons in Hy as [-> | Hy]; auto.
      * intros Hall y Hy. apply Hall. by right.
Qed.

(** What [find] returns splits the list at the first element that passes. *)
Lemma find_some_split {A} (f : A -> bool) l x :
  find f l = Some x ->
  exists l1 l2, l = l1 ++ x :: l2 /\ f x = true /\
                forall y, y ∈ l1 -> f y = false.
Proof.
  induction l as [| a l IH]; simpl; [done|].
  destruct (f a) eqn:Ha.
  - intros [= ->]. exists [], l. split; [done|]. split; [done|].
    intros y Hy. by apply elem_of_nil in Hy.
  - intros Hf. destruct (IH Hf) as (l1 & l2 & -> & Hx & Hl1).
    exists (a :: l1), l2. split; [done|]. split; [done|].
    intros y Hy. apply elem_of_cons in Hy as [-> | Hy]; auto.
Qed.

Lemma build_viewer_fields nfl_state league rosters users matchups uid :
  uid <> "" ->
  let data :=
    SleeperData.build nfl_state league rosters users matchups (Some uid) in
  SleeperData.my_user data = SleeperData.user_by_id_of users !! uid /\
  SleeperData.my_roster data = find (SleeperData.owned_by uid) rosters.
Proof.
  intros Hne%truthy_str_true. unfold SleeperData.build. by rewrite Hne.
Qed.

(** C4 (amended). For every input to [build]: if a viewer user id is
    provided and is not the empty string, [my_user] is the user that alone
    has that user id (absent when no user has it) and [my_roster] is the
    first roster in input order whose owner id equals the viewer user id
    (absent when none does); if no viewer user id is provided, both are
    absent. *)
Theorem build_viewer
    nfl_state league rosters users matchups (viewer : option string) :
  viewer <> Some "" ->
  let data :=
    SleeperData.build nfl_state league rosters users matchups viewer in
  match viewer with
  | Some uid =>
      (forall u,
         u ∈ users -> LeagueUser.user_id u = uid ->
         (forall u', u' ∈ users -> LeagueUser.user_id u' = uid -> u' = u) ->
         SleeperData.my_user data = Some u) /\
      ((forall u, u ∈ users -> LeagueUser.user_id u <> uid) ->
       SleeperData.my_user data = None) /\
      (forall l1 r l2,
         rosters = l1 ++ r :: l2 ->
         Roster.owner_id r = Some uid ->
         (forall r', r' ∈ l1 -> Roster.owner_id r' <> Some uid) ->
         SleeperData.my_roster data = Some r) /\
      ((forall r, r ∈ rosters -> Roster.owner_id r <> Some uid) ->
       SleeperData.my_roster data = None)
  | None =>
      SleeperData.my_user data = None /\ SleeperData.my_roster data = None
  end.
Proof.
  intros Hv. destruct viewer as [uid|]; [|done].
  assert (uid <> "") as Hne by congruence.
  destruct (build_viewer_fields nfl_state league rosters users matchups uid
              Hne) as [Hu Hr].
  simpl in *. rewrite Hu, Hr. split; [|split; [|split]].
  - intros u Hin <- Huniq. by apply user_by_id_unique.
  - intros Hnone. by apply user_by_id_None.
  - intros l1 r l2 -> Ho Hl1. apply find_first.
    + by apply owned_by_true.
    + intros y Hy. apply not_true_iff_false. rewrite owned_by_true.
      by apply Hl1.
  - intros Hnone. apply find_none_iff. intros y Hy.
    apply not_true_iff_false. rewrite owned_by_true. by apply Hnone.
Qed.

Lemma build_viewer_witness :
  let data :=
    SleeperData.build Sample.nfl_state Sample.league Sample.rosters
                      Sample.users Sample.matchups (Some "u2") in
  SleeperData.my_user data = Some Sample.bob /\
  SleeperData.my_roster data = Some Sample.bobs_roster.
Proof.
  assert (Some "u2" <> Some "") as Hv by discriminate.
  pose proof (build_viewer Sample.nfl_state Sample.league Sample.rosters
                Sample.users Sample.matchups (Some "u2") Hv)
    as (Huser & _ & Hroster & _).
  split.
  - apply Huser; [right; left | reflexivity |].
    intros u' Hu'. unfold Sample.users in Hu'.
    repeat (apply elem_of_cons in Hu' as [-> | Hu']);
      try (by apply elem_of_nil in Hu'); done.
  - apply (Hroster [Sample.anns_roster] Sample.bobs_roster
                   [Sample.unclaimed_roster]); [reflexivity | reflexivity |].
    intros r' Hr'. apply elem_of_cons in Hr' as [-> | Hr']; [done|].
    by apply elem_of_nil in Hr'.
Defined.

(** C4, as stated, fails where the viewer user id provided is the empty
    string: one user has it as user id and one roster has it as owner id,
    and yet both [my_user] and [my_roster] are absent. *)
Lemma build_viewer_empty_user_id :
  let rosters := [Sample.blank_roster] in
  let users := [Sample.ghost] in
  let viewer := "" in
  let data :=
    SleeperData.build Sample.nfl_state Sample.league rosters users []
                      (Some viewer) in
  Sample.ghost ∈ users /\
  LeagueUser.user_id Sample.ghost = viewer /\
  (forall u', u' ∈ users -> LeagueUser.user_id u' = viewer ->
              u' = Sample.ghost) /\
  rosters = [] ++ Sample.blank_roster :: [] /\
  Roster.owner_id Sample.blank_roster = Some viewer /\
  SleeperData.my_user data = None /\
  SleeperData.my_user data <> Some Sample.ghost /\
  SleeperData.my_roster data = None /\
  SleeperData.my_roster data <> Some Sample.blank_roster.
Proof.
  simpl. split; [left|]. split; [reflexivity|]. split.
  { intros u' Hu' _. apply elem_of_cons in Hu' as [-> | Hu']; [done|].
    by apply elem_of_nil in Hu'. }
  split; [reflexivity|]. split; [reflexivity|].
  split; [reflexivity|]. split; [discriminate|].
  split; [reflexivity | discriminate].
Qed.

(** C9. For every input to [build], a viewer user id that is the empty
    string is treated exactly like an absent one: the snapshot is the one
    built without a viewer, so [my_user] and [my_roster] are absent whatever
    the rosters and users.  The coordinator does the same to the configured
    user id: an empty one initialises it as a missing one does, to an
    absent user id. *)
Theorem build_empty_viewer_absent nfl_state league rosters users matchups :
  SleeperData.build nfl_state league rosters users matchups (Some "")
  = SleeperData.build nfl_state league rosters users matchups None /\
  SleeperData.my_user
    (SleeperData.build nfl_state league rosters users matchups (Some ""))
  = None /\
  SleeperData.my_roster
    (SleeperData.build nfl_state league rosters users matchups (Some ""))
  = None /\
  (forall api config_data,
     __init__ api (<[CONF_USER_ID := ""]> config_data)
     = __init__ api (delete CONF_USER_ID config_data)) /\
  (forall api config_data,
     user_id <$> __init__ api (<[CONF_USER_ID := ""]> config_data)
     = (fun _ => None) <$> (config_data !! CONF_LEAGUE_ID)).
Proof.
  split; [reflexivity|]. split; [reflexivity|]. split; [reflexivity|].
  assert (CONF_LEAGUE_ID <> CONF_USER_ID) as Hk by discriminate.
  split; intros api config_data; unfold __init__.
  - rewrite lookup_insert_ne by done. rewrite lookup_delete_ne by done.
    destruct (config_data !! CONF_LEAGUE_ID); [|done].
    by rewrite lookup_insert_eq, lookup_delete_eq.
  - rewrite lookup_insert_ne by done.
    destruct (config_data !! CONF_LEAGUE_ID); [|done].
    by rewrite lookup_insert_eq.
Qed.

(** The empty viewer id finds nothing even in a league where a user and a
    roster carry the empty string. *)
Example build_empty_viewer_sample :
  let data :=
    SleeperData.build Sample.nfl_state Sample.league [Sample.blank_roster]
                      [Sample.ghost] [] (Some "") in
  SleeperData.my_user data = None /\ SleeperData.my_roster data = None.
Proof. split; reflexivity. Qed.
(* ===================================================================== *)
(** ** Theorems: opponent resolution *)
(* ===================================================================== *)

Lemma string_length_app (s t : string) :
  String.length (s ++ t)%string = (String.length s + String.length t)%nat.
Proof. induction s as [| c s IH]; simpl; [done | by rewrite IH]. Qed.

Section MatchupState.
Variable float_str : float -> string.

Abbreviation state := (_my_matchup_state float_str).

Abbreviation score := (score_text float_str).

Lemma has_matchup_id_true mid m :
  has_matchup_id mid m = true <-> Matchup.matchup_id m = Some mid.
Proof.
  unfold has_matchup_id. destruct (Matchup.matchup_id m) as [i|].
  - rewrite Z.eqb_eq. split; congruence.
  - split; discriminate.
Qed.

Lemma opposes_test my_id mid m :
  has_matchup_id mid m && negb (Matchup.roster_id m =? my_id) = true <->
  opposes my_id mid m.
Proof.
  unfold opposes.
  rewrite andb_true_iff, has_matchup_id_true, negb_true_iff, Z.eqb_neq.
  done.
Qed.

Lemma opposes_test_false my_id mid m :
  has_matchup_id mid m && negb (Matchup.roster_id m =? my_id) = false <->
  ~ opposes my_id mid m.
Proof. rewrite <- opposes_test. symmetry. apply not_true_iff_false. Qed.

(** A score is never the text of a bye. *)
Lemma score_not_bye mine theirs : score mine theirs <> "BYE".
Proof.
  unfold score_text. intros Heq.
  assert (String.length (float_str (Matchup.points mine)) = 0%nat) as Hlen.
  { apply (f_equal String.length) in Heq.
    rewrite !string_length_app in Heq. simpl in Heq. lia. }
  destruct (float_str (Matchup.points mine)); [|done].
  simpl in Heq. discriminate.
Qed.

Lemma state_no_entry data mine :
  SleeperData.my_roster data = Some mine ->
  (forall m, m ∈ SleeperData.matchups data ->
             Matchup.roster_id m <> Roster.roster_id mine) ->
  state data = Some "BYE".
Proof.
  intros Hmine Hnone. unfold _my_matchup_state. rewrite Hmine.
  assert (find (fun m => Matchup.roster_id m =? Roster.roster_id mine)
               (SleeperData.matchups data) = None) as ->; [|done].
  apply find_none_iff. intros m Hm. apply Z.eqb_neq. by apply Hnone.
Qed.

Lemma state_own_entry data mine m :
  SleeperData.my_roster data = Some mine ->
  own_entry_at (Roster.roster_id mine) (SleeperData.matchups data) m ->
  state data =
    match Matchup.matchup_id m with
    | None => Some "BYE"
    | Some mid =>
        match find (fun m' => has_matchup_id mid m'
                              && negb (Matchup.roster_id m'
                                       =? Roster.roster_id mine))
                   (SleeperData.matchups data) with
        | Some s => Some (score m s)
        | None => Some "BYE"
        end
    end.
Proof.
  intros Hmine (l1 & l2 & Hsplit & Hid & Hl1).
  unfold _my_matchup_state. rewrite Hmine.
  assert (find (fun m => Matchup.roster_id m =? Roster.roster_id mine)
               (SleeperData.matchups data) = Some m) as ->; [|done].
  rewrite Hsplit. apply find_first.
  - by apply Z.eqb_eq.
  - intros y Hy. apply Z.eqb_neq. by apply Hl1.
Qed.

(** C5. For every snapshot whose [my_roster] is present, the state of the
    matchup sensor is a value, never an exception.  It is "BYE" when no
    matchup entry has the roster id of [my_roster], when the matchup id of
    my entry is null, and when no other entry has that matchup id and a
    different roster id; otherwise it is the score made of my points and the
    points of the sibling entry, which is not the text "BYE".  In
    particular it is "BYE" whenever the matchup collection is empty, as in
    a snapshot built from no matchups for a viewer who owns a roster. *)
Theorem my_matchup_state_resolution (data : SleeperData.t) (mine : Roster.t) :
  SleeperData.my_roster data = Some mine ->
  let my_id := Roster.roster_id mine in
  let entries := SleeperData.matchups data in
  (exists s, state data = Some s) /\
  ((forall m, m ∈ entries -> Matchup.roster_id m <> my_id) ->
   state data = Some "BYE") /\
  (forall m, own_entry_at my_id entries m ->
     (Matchup.matchup_id m = None -> state data = Some "BYE") /\
     (forall mid, Matchup.matchup_id m = Some mid ->
        ((forall m', m' ∈ entries -> ~ opposes my_id mid m') ->
         state data = Some "BYE") /\
        (forall s, sibling_at my_id mid entries s ->
           state data = Some (score m s) /\ score m s <> "BYE"))) /\
  (entries = [] -> state data = Some "BYE") /\
  (forall nfl_state league rosters users viewer,
     data = SleeperData.build nfl_state league rosters users [] viewer ->
     state data = Some "BYE").
Proof.
  intros Hmine. simpl.
  assert (forall m, own_entry_at (Roster.roster_id mine)
                      (SleeperData.matchups data) m ->
     (Matchup.matchup_id m = None -> state data = Some "BYE") /\
     (forall mid, Matchup.matchup_id m = Some mid ->
        ((forall m', m' ∈ SleeperData.matchups data ->
                     ~ opposes (Roster.roster_id mine) mid m') ->
         state data = Some "BYE") /\
        (forall s, sibling_at (Roster.roster_id mine) mid
                     (SleeperData.matchups data) s ->
           state data = Some (score m s) /\ score m s <> "BYE"))) as Hown.
  { intros m Hm. rewrite (state_own_entry data mine m Hmine Hm). split.
    - by intros ->.
    - intros mid ->. split.
      + intros Hnone.
        assert (find (fun m' => has_matchup_id mid m'
                         && negb (Matchup.roster_id m'
                                  =? Roster.roster_id mine))
                  (SleeperData.matchups data) = None) as ->; [|done].
        apply find_none_iff. intros y Hy. apply opposes_test_false.
        by apply Hnone.
      + intros s (l1 & l2 & Hsplit & Hs & Hl1).
        split; [|apply score_not_bye].
        rewrite Hsplit at 1.
        rewrite find_first; [done | by apply opposes_test |].
        intros y Hy. apply opposes_test_false. by apply Hl1. }
  assert (SleeperData.matchups data = [] -> state data = Some "BYE") as Hnil.
  { intros Hnil. apply (state_no_entry data mine Hmine).
    rewrite Hnil. intros m Hm. by apply elem_of_nil in Hm. }
  split; [|split; [|split; [|split]]].
  - unfold _my_matchup_state. rewrite Hmine.
    destruct (find _ _) as [m|]; simpl; [|by eexists].
    destruct (Matchup.matchup_id m) as [mid|]; [|by eexists].
    destruct (find _ _); by eexists.
  - by apply state_no_entry.
  - exact Hown.
  - exact Hnil.
  - intros nfl_state league rosters users viewer Hdata. apply Hnil.
    rewrite Hdata. unfold SleeperData.build.
    destruct viewer as [uid|]; [destruct (truthy_str uid)|]; reflexivity.
Qed.

(** Without a roster of the viewer the sensor has no state, which is not an
    exception either. *)
Lemma state_not_configured data :
  SleeperData.my_roster data = None -> state data = None.
Proof. intros H. unfold _my_matchup_state. by rewrite H. Qed.

(** A viewer who owns a roster, and no matchups: a bye. *)
Lemma state_build_no_matchups nfl_state league rosters users uid r :
  uid <> "" -> r ∈ rosters -> Roster.owner_id r = Some uid ->
  state (SleeperData.build nfl_state league rosters users [] (Some uid))
  = Some "BYE".
Proof.
  intros Hne Hr Ho.
  destruct (build_viewer_fields nfl_state league rosters users [] uid Hne)
    as [_ Hroster].
  simpl in Hroster.
  destruct (find (SleeperData.owned_by uid) rosters) as [mine|] eqn:Hf.
  - apply (state_no_entry _ mine Hroster).
    assert (SleeperData.matchups
              (SleeperData.build nfl_state league rosters users []
                                 (Some uid)) = []) as ->.
    { unfold SleeperData.build. by destruct (truthy_str uid). }
    intros m Hm. by apply elem_of_nil in Hm.
  - exfalso. rewrite find_none_iff in Hf.
    specialize (Hf r Hr). apply owned_by_true in Ho. congruence.
Qed.

End MatchupState.

Lemma my_matchup_state_resolution_witness :
  let data :=
    SleeperData.build Sample.nfl_state Sample.league Sample.rosters
                      Sample.users Sample.matchups (Some "u1") in
  SleeperData.my_roster data = Some Sample.anns_roster /\
  _my_matchup_state sample_float_str data = Some "101.5 - 88.0".
Proof.
  assert (SleeperData.my_roster
            (SleeperData.build Sample.nfl_state Sample.league Sample.rosters
               Sample.users Sample.matchups (Some "u1"))
          = Some Sample.anns_roster) as Hmine by reflexivity.
  split; [exact Hmine|].
  pose proof (my_matchup_state_resolution sample_float_str _ _ Hmine)
    as (_ & _ & Hown & _).
  simpl in Hown.
  destruct (Hown (Matchup.mk 1 (Some 1) (Finite (203 # 2)))) as [_ Hscore].
  { exists [], [Matchup.mk 2 (Some 1) (Finite (88 # 1));
                Matchup.mk 3 None (Finite (0 # 1))].
    split; [reflexivity|]. split; [reflexivity|].
    intros m' Hm'. by apply elem_of_nil in Hm'. }
  destruct (Hscore 1 eq_refl) as [_ Hsib].
  destruct (Hsib (Matchup.mk 2 (Some 1) (Finite (88 # 1)))) as [Hstate _].
  { exists [Matchup.mk 1 (Some 1) (Finite (203 # 2))],
           [Matchup.mk 3 None (Finite (0 # 1))].
    split; [reflexivity|]. split; [by split|].
    intros m' Hm'. apply elem_of_cons in Hm' as [-> | Hm'].
    - intros [_ Hne]. by apply Hne.
    - by apply elem_of_nil in Hm'. }
  exact Hstate.
Defined.
(* ===================================================================== *)
(** ** Theorems: the refresh cycle *)
(* ===================================================================== *)

(** How the combinators of a method run. *)
Lemma bind_get_self {B} (k : SleeperCoordinator -> M B) self :
  bind get_self k self = k self self.
Proof. unfold bind, get_self; simpl. by destruct (k self self). Qed.

Lemma bind_ret {A B} (a : A) (k : A -> M B) self :
  bind (ret a) k self = k a self.
Proof. unfold bind, ret; simpl. by destruct (k a self). Qed.

Lemma bind_await_inr {A B} c (a : A) (k : A -> M B) self :
  bind (await c (inr a)) k self = with_fetch c (k a self).
Proof. reflexivity. Qed.

Lemma bind_await_inl {A B} c e (k : A -> M B) self :
  bind (await c (inl e)) k self
  = {| result := inl (Raised e); final := self; events := [Fetch c] |}.
Proof. reflexivity. Qed.

Lemma bind_inl {A B} (m : M A) (k : A -> M B) self e self' evs :
  m self = {| result := inl e; final := self'; events := evs |} ->
  bind m k self = {| result := inl e; final := self'; events := evs |}.
Proof. intros H. unfold bind. by rewrite H. Qed.

Lemma bind_inr {A B} (m : M A) (k : A -> M B) self a self' evs :
  m self = {| result := inr a; final := self'; events := evs |} ->
  bind m k self
  = {| result := result (k a self');
       final := final (k a self');
       events := evs ++ events (k a self') |}.
Proof. intros H. unfold bind. by rewrite H. Qed.

Lemma try_except_inr {A} (m : M A) handler self a self' evs :
  m self = {| result := inr a; final := self'; events := evs |} ->
  try_except m handler self
  = {| result := inr a; final := self'; events := evs |}.
Proof. intros H. unfold try_except. by rewrite H. Qed.

Lemma try_except_api_error {A} (m : M A) self e self' evs :
  m self = {| result := inl (Raised e); final := self'; events := evs |} ->
  try_except m translate_error self
  = {| result := inl (UpdateFailed (update_failed_message e));
       final := self';
       events := evs ++ [] |}.
Proof. intros H. unfold try_except. rewrite H. by destruct e. Qed.

(** A cycle whose requests stop at an exception of the client. *)
Lemma cycle_stopped self now_et calls e :
  fetch_all self
  = {| result := inl (Raised e); final := self; events := map Fetch calls |} ->
  refresh_cycle self now_et = failed self calls e.
Proof.
  intros H. unfold refresh_cycle, _async_update_data.
  rewrite (bind_inl _ _ _ _ _ _ (try_except_api_error _ _ _ _ _ H)).
  unfold failed. by rewrite app_nil_r.
Qed.

(** A cycle whose requests are all answered. *)
Lemma cycle_fetched
    self now_et calls nfl_state league rosters users matchups :
  fetch_all self
  = {| result := inr (nfl_state, league, rosters, users, matchups);
       final := self;
       events := map Fetch calls |} ->
  refresh_cycle self now_et
  = {| result :=
         inr (SleeperData.build nfl_state league rosters users matchups
                                (user_id self));
       final :=
         with_update_interval self
           (_calculate_update_interval (NflState.season_type nfl_state)
                                       (NflState.week nfl_state) now_et);
       events := map Fetch calls ++ [Build] |}.
Proof.
  intros H. unfold refresh_cycle, _async_update_data.
  rewrite (bind_inr _ _ _ _ _ _ (try_except_inr _ _ _ _ _ _ H)).
  reflexivity.
Qed.

Ltac run_fetches :=
  unfold fetch_all; rewrite bind_get_self; cbv beta;
  repeat
    (first [ rewrite bind_await_inr
           | rewrite bind_await_inl
           | rewrite bind_ret
           | match goal with
             | H : _ = inl _ |- _ => rewrite H
             | H : _ = inr _ |- _ => rewrite H
             | H : in_regular_post _ = _ |- _ => rewrite H
             end ];
     cbv beta iota);
  reflexivity.

(** The five ways a cycle fails and the two ways it succeeds, by the answers
    of the service. *)
Section Cycle.
Variable self : SleeperCoordinator.
Variable now_et : datetime.

Abbreviation lid := (league_id self).

Lemma cycle_nfl_state_fails e :
  async_get_nfl_state (api self) = inl e ->
  refresh_cycle self now_et = failed self [GetNflState] e.
Proof.
  intros H1. apply (cycle_stopped self now_et
    [GetNflState]).
  run_fetches.
Qed.

Lemma cycle_league_fails nfl_state e :
  async_get_nfl_state (api self) = inr nfl_state ->
  async_get_league (api self) lid = inl e ->
  refresh_cycle self now_et = failed self [GetNflState; GetLeague lid] e.
Proof.
  intros H1 H2. apply (cycle_stopped self now_et
    [GetNflState; GetLeague lid]).
  run_fetches.
Qed.

Lemma cycle_rosters_fails nfl_state league e :
  async_get_nfl_state (api self) = inr nfl_state ->
  async_get_league (api self) lid = inr league ->
  async_get_rosters (api self) lid = inl e ->
  refresh_cycle self now_et
  = failed self [GetNflState; GetLeague lid; GetRosters lid] e.
Proof.
  intros H1 H2 H3. apply (cycle_stopped self now_et
    [GetNflState; GetLeague lid; GetRosters lid]).
  run_fetches.
Qed.

Lemma cycle_users_fails nfl_state league rosters e :
  async_get_nfl_state (api self) = inr nfl_state ->
  async_get_league (api self) lid = inr league ->
  async_get_rosters (api self) lid = inr rosters ->
  async_get_users (api self) lid = inl e ->
  refresh_cycle self now_et
  = failed self [GetNflState; GetLeague lid; GetRosters lid; GetUsers lid] e.
Proof.
  intros H1 H2 H3 H4. apply (cycle_stopped self now_et
    [GetNflState; GetLeague lid; GetRosters lid; GetUsers lid]).
  run_fetches.
Qed.

Lemma cycle_matchups_fails nfl_state league rosters users e :
  async_get_nfl_state (api self) = inr nfl_state ->
  async_get_league (api self) lid = inr league ->
  async_get_rosters (api self) lid = inr rosters ->
  async_get_users (api self) lid = inr users ->
  in_regular_post (NflState.season_type nfl_state) = true ->
  async_get_matchups (api self) lid (NflState.week nfl_state) = inl e ->
  refresh_cycle self now_et
  = failed self [GetNflState; GetLeague lid; GetRosters lid; GetUsers lid;
            GetMatchups lid (NflState.week nfl_state)] e.
Proof.
  intros H1 H2 H3 H4 Hs H5. apply (cycle_stopped self now_et
    [GetNflState; GetLeague lid; GetRosters lid; GetUsers lid; GetMatchups lid (NflState.week nfl_state)]).
  run_fetches.
Qed.

Lemma cycle_in_season nfl_state league rosters users matchups :
  async_get_nfl_state (api self) = inr nfl_state ->
  async_get_league (api self) lid = inr league ->
  async_get_rosters (api self) lid = inr rosters ->
  async_get_users (api self) lid = inr users ->
  in_regular_post (NflState.season_type nfl_state) = true ->
  async_get_matchups (api self) lid (NflState.week nfl_state)
    = inr matchups ->
  refresh_cycle self now_et
  = {| result :=
         inr (SleeperData.build nfl_state league rosters users matchups
                                (user_id self));
       final :=
         with_update_interval self
           (_calculate_update_interval (NflState.season_type nfl_state)
                                       (NflState.week nfl_state) now_et);
       events :=
         map Fetch [GetNflState; GetLeague lid; GetRosters lid; GetUsers lid;
                    GetMatchups lid (NflState.week nfl_state)]
         ++ [Build] |}.
Proof.
  intros H1 H2 H3 H4 Hs H5. apply (cycle_fetched self now_et
    [GetNflState; GetLeague lid; GetRosters lid; GetUsers lid; GetMatchups lid (NflState.week nfl_state)]).
  run_fetches.
Qed.

Lemma cycle_out_of_season nfl_state league rosters users :
  async_get_nfl_state (api self) = inr nfl_state ->
  async_get_league (api self) lid = inr league ->
  async_get_rosters (api self) lid = inr rosters ->
  async_get_users (api self) lid = inr users ->
  in_regular_post (NflState.season_type nfl_state) = false ->
  refresh_cycle self now_et
  = {| result :=
         inr (SleeperData.build nfl_state league rosters users []
                                (user_id self));
       final :=
         with_update_interval self
           (_calculate_update_interval (NflState.season_type nfl_state)
                                       (NflState.week nfl_state) now_et);
       events :=
         map Fetch [GetNflState; GetLeague lid; GetRosters lid; GetUsers lid]
         ++ [Build] |}.
Proof.
  intros H1 H2 H3 H4 Hs. apply (cycle_fetched self now_et
    [GetNflState; GetLeague lid; GetRosters lid; GetUsers lid]).
  run_fetches.
Qed.

(** Every cycle has one of the two shapes. *)
Lemma refresh_cycle_shape : cycle_shape self (refresh_cycle self now_et).
Proof.
  destruct (async_get_nfl_state (api self)) as [e | nfl_state] eqn:H1.
  { rewrite (cycle_nfl_state_fails e H1).
    apply (shape_failed self [] GetNflState); simpl; [by rewrite H1|].
    by intros c' ?%elem_of_nil. }
  destruct (async_get_league (api self) lid) as [e | league] eqn:H2.
  { rewrite (cycle_league_fails _ e H1 H2).
    apply (shape_failed self [GetNflState] (GetLeague lid)); simpl;
      [by rewrite H2|].
    intros c' Hc'. repeat (apply elem_of_cons in Hc' as [-> | Hc']);
      try (by apply elem_of_nil in Hc'); simpl; by rewrite ?H1. }
  destruct (async_get_rosters (api self) lid) as [e | rosters] eqn:H3.
  { rewrite (cycle_rosters_fails _ _ e H1 H2 H3).
    apply (shape_failed self [GetNflState; GetLeague lid] (GetRosters lid));
      simpl; [by rewrite H3|].
    intros c' Hc'. repeat (apply elem_of_cons in Hc' as [-> | Hc']);
      try (by apply elem_of_nil in Hc'); simpl; by rewrite ?H1, ?H2. }
  destruct (async_get_users (api self) lid) as [e | users] eqn:H4.
  { rewrite (cycle_users_fails _ _ _ e H1 H2 H3 H4).
    apply (shape_failed self [GetNflState; GetLeague lid; GetRosters lid]
                        (GetUsers lid)); simpl; [by rewrite H4|].
    intros c' Hc'. repeat (apply elem_of_cons in Hc' as [-> | Hc']);
      try (by apply elem_of_nil in Hc'); simpl;
      by rewrite ?H1, ?H2, ?H3. }
  destruct (in_regular_post (NflState.season_type nfl_state)) eqn:Hs.
  2:{ rewrite (cycle_out_of_season _ _ _ _ H1 H2 H3 H4 Hs).
      apply shape_done.
      intros c' Hc'. repeat (apply elem_of_cons in Hc' as [-> | Hc']);
        try (by apply elem_of_nil in Hc'); simpl;
        by rewrite ?H1, ?H2, ?H3, ?H4. }
  destruct (async_get_matchups (api self) lid (NflState.week nfl_state))
    as [e | matchups] eqn:H5.
  { rewrite (cycle_matchups_fails _ _ _ _ e H1 H2 H3 H4 Hs H5).
    apply (shape_failed self
             [GetNflState; GetLeague lid; GetRosters lid; GetUsers lid]
             (GetMatchups lid (NflState.week nfl_state)));
      simpl; [by rewrite H5|].
    intros c' Hc'. repeat (apply elem_of_cons in Hc' as [-> | Hc']);
      try (by apply elem_of_nil in Hc'); simpl;
      by rewrite ?H1, ?H2, ?H3, ?H4. }
  rewrite (cycle_in_season _ _ _ _ _ H1 H2 H3 H4 Hs H5).
  apply shape_done.
  intros c' Hc'. repeat (apply elem_of_cons in Hc' as [-> | Hc']);
    try (by apply elem_of_nil in Hc'); simpl;
    by rewrite ?H1, ?H2, ?H3, ?H4, ?H5.
Qed.

End Cycle.
(* ===================================================================== *)
(** ** Theorems: failure handling and the matchup request *)
(* ===================================================================== *)

Lemma omap_fetch calls evs :
  omap (fun e => match e with Fetch c => Some c | Build => None end)
       (map Fetch calls ++ evs)
  = calls
    ++ omap (fun e => match e with Fetch c => Some c | Build => None end) evs.
Proof.
  induction calls as [| c calls IH]; [done|].
  change (map Fetch (c :: calls) ++ evs)
    with (Fetch c :: (map Fetch calls ++ evs)).
  change ((c :: calls) ++ ?l) with (c :: (calls ++ l)).
  rewrite <- IH. reflexivity.
Qed.

Lemma fetches_failed self calls e : fetches (failed self calls e) = calls.
Proof.
  unfold fetches, failed; simpl.
  rewrite <- (app_nil_r (map Fetch calls)), omap_fetch. apply app_nil_r.
Qed.

Lemma fetches_done calls (data : SleeperData.t) self' :
  fetches {| result := inr data;
             final := self';
             events := map Fetch calls ++ [Build] |} = calls.
Proof.
  unfold fetches; simpl. rewrite omap_fetch. apply app_nil_r.
Qed.

Lemma Build_not_fetch calls : Build ∉ map Fetch calls.
Proof.
  intros (c & Hc & _)%list_elem_of_fmap. discriminate.
Qed.

(** A cycle that completes has had every request answered. *)
Lemma refresh_cycle_done self now_et data :
  result (refresh_cycle self now_et) = inr data ->
  forall c, c ∈ fetches (refresh_cycle self now_et) ->
            call_error (api self) c = None.
Proof.
  destruct (refresh_cycle_shape self now_et) as [calls c e He Hcalls
                                                | calls d i Hcalls].
  - discriminate.
  - intros _ c. rewrite fetches_done. apply Hcalls.
Qed.

(** C7.  In every refresh cycle in which a request the cycle issues is
    answered with an exception of the client, of either kind, the cycle
    raises [UpdateFailed] (with the message built from that exception), the
    snapshot builder is not called, and the coordinator is left as it was:
    in particular its update interval is unchanged. *)
Theorem refresh_cycle_update_failed self now_et c e :
  c ∈ fetches (refresh_cycle self now_et) ->
  call_error (api self) c = Some e ->
  result (refresh_cycle self now_et)
    = inl (UpdateFailed (update_failed_message e)) /\
  (Build ∉ events (refresh_cycle self now_et)) /\
  final (refresh_cycle self now_et) = self /\
  update_interval (final (refresh_cycle self now_et)) = update_interval self.
Proof.
  intros Hc He.
  destruct (refresh_cycle_shape self now_et) as [calls c0 e0 He0 Hcalls
                                                | calls d i Hcalls].
  - rewrite fetches_failed in Hc.
    apply elem_of_app in Hc as [Hc | Hc].
    + apply Hcalls in Hc. congruence.
    + apply list_elem_of_singleton in Hc as ->.
      assert (e0 = e) as -> by congruence.
      split; [done|]. split; [apply Build_not_fetch|]. by split.
  - rewrite fetches_done in Hc. apply Hcalls in Hc. congruence.
Qed.

Lemma refresh_cycle_update_failed_witness :
  GetLeague "L1"
    ∈ fetches (refresh_cycle (Sample.coordinator Sample.api_no_league)
                             Sample.sunday_1pm) /\
  call_error Sample.api_no_league (GetLeague "L1")
    = Some (SleeperApiNotFoundError "Resource not found: /league/L1") /\
  result (refresh_cycle (Sample.coordinator Sample.api_no_league)
                        Sample.sunday_1pm)
    = inl (UpdateFailed
             "Resource not found: Resource not found: /league/L1") /\
  update_interval
    (final (refresh_cycle (Sample.coordinator Sample.api_no_league)
                          Sample.sunday_1pm))
    = UPDATE_INTERVAL_REGULAR.
Proof.
  assert (GetLeague "L1"
            ∈ fetches (refresh_cycle (Sample.coordinator Sample.api_no_league)
                                     Sample.sunday_1pm)) as Hin.
  { apply (list_elem_of_lookup_2 _ 1%nat). reflexivity. }
  assert (call_error (api (Sample.coordinator Sample.api_no_league))
                     (GetLeague "L1")
          = Some (SleeperApiNotFoundError "Resource not found: /league/L1"))
    as Herr by reflexivity.
  split; [exact Hin|]. split; [exact Herr|].
  destruct (refresh_cycle_update_failed
              (Sample.coordinator Sample.api_no_league) Sample.sunday_1pm
              (GetLeague "L1") _ Hin Herr) as (Hres & _ & _ & Hint).
  split; [exact Hres | exact Hint].
Defined.

(** With a connection failure the same happens, on the last request of an
    in-season cycle. *)
Example refresh_cycle_matchups_unreachable :
  let api :=
    {| async_get_nfl_state := inr Sample.nfl_state;
       async_get_league := fun _ => inr Sample.league;
       async_get_rosters := fun _ => inr Sample.rosters;
       async_get_users := fun _ => inr Sample.users;
       async_get_matchups :=
         fun _ _ => inl (SleeperApiConnectionError "timeout") |} in
  refresh_cycle (Sample.coordinator api) Sample.sunday_1pm
  = {| result :=
         inl (UpdateFailed "Error communicating with Sleeper API: timeout");
       final := Sample.coordinator api;
       events := map Fetch [GetNflState; GetLeague "L1"; GetRosters "L1";
                            GetUsers "L1"; GetMatchups "L1" 5] |}.
Proof. reflexivity. Qed.

(** A cycle that succeeds stores the interval of the fetched season state. *)
Example refresh_cycle_sample :
  let o := refresh_cycle (Sample.coordinator Sample.api_up)
                         Sample.sunday_1pm in
  fetches o = [GetNflState; GetLeague "L1"; GetRosters "L1"; GetUsers "L1";
               GetMatchups "L1" 5] /\
  update_interval (final o) = UPDATE_INTERVAL_GAME_WINDOW /\
  exists data, result o = inr data /\
               SleeperData.matchups data = Sample.matchups.
Proof.
  simpl. split; [reflexivity|]. split; [reflexivity|].
  eexists. split; reflexivity.
Qed.
(** The claim as it is worded fails on a cycle that an earlier request
    stops: the fetched season type is ["regular"], the league is reported
    as unknown, and no matchup request is issued; and out of season, with
    the user list unreachable, the matchup request is skipped but no
    snapshot is built. *)
Lemma refresh_cycle_matchups_after_failure :
  (async_get_nfl_state Sample.api_no_league = inr Sample.nfl_state /\
   NflState.season_type Sample.nfl_state = "regular" /\
   fetches (refresh_cycle (Sample.coordinator Sample.api_no_league)
                          Sample.sunday_1pm)
     = [GetNflState; GetLeague "L1"] /\
   GetMatchups "L1" (NflState.week Sample.nfl_state)
     ∉ fetches (refresh_cycle (Sample.coordinator Sample.api_no_league)
                              Sample.sunday_1pm)) /\
  (async_get_nfl_state Sample.api_off_no_users = inr Sample.nfl_state_off /\
   NflState.season_type Sample.nfl_state_off = "off" /\
   refresh_cycle (Sample.coordinator Sample.api_off_no_users)
                 Sample.sunday_1pm
     = {| result :=
            inl (UpdateFailed
                   "Error communicating with Sleeper API: timeout");
          final := Sample.coordinator Sample.api_off_no_users;
          events := [Fetch GetNflState; Fetch (GetLeague "L1");
                     Fetch (GetRosters "L1"); Fetch (GetUsers "L1")] |}).
Proof.
  split.
  - split; [reflexivity|]. split; [reflexivity|]. split; [reflexivity|].
    intros H. change (fetches _) with [GetNflState; GetLeague "L1"] in H.
    repeat (apply elem_of_cons in H as [H | H]; [discriminate|]).
    by apply elem_of_nil in H.
  - split; [reflexivity|]. split; reflexivity.
Qed.

(** C8, amended.  In every refresh cycle in which the season state, the
    league, the rosters and the users are fetched, the matchups are
    requested (for the league and the week of the fetched season state, and
    as the last request) if and only if the fetched season type is
    ["regular"] or ["post"]; no other matchup request is ever issued; and
    for every other season type the cycle issues the four requests only and
    returns the snapshot built with an empty matchup collection. *)
Theorem refresh_cycle_matchups
    self now_et nfl_state league rosters users :
  async_get_nfl_state (api self) = inr nfl_state ->
  async_get_league (api self) (league_id self) = inr league ->
  async_get_rosters (api self) (league_id self) = inr rosters ->
  async_get_users (api self) (league_id self) = inr users ->
  (GetMatchups (league_id self) (NflState.week nfl_state)
     ∈ fetches (refresh_cycle self now_et)
   <-> NflState.season_type nfl_state = "regular"
       \/ NflState.season_type nfl_state = "post") /\
  (forall c, c ∈ fetches (refresh_cycle self now_et) ->
             is_matchup_fetch c = true ->
             c = GetMatchups (league_id self) (NflState.week nfl_state)) /\
  (NflState.season_type nfl_state = "regular"
   \/ NflState.season_type nfl_state = "post" ->
   fetches (refresh_cycle self now_et)
   = [GetNflState; GetLeague (league_id self); GetRosters (league_id self);
      GetUsers (league_id self);
      GetMatchups (league_id self) (NflState.week nfl_state)]) /\
  (~ (NflState.season_type nfl_state = "regular"
      \/ NflState.season_type nfl_state = "post") ->
   fetches (refresh_cycle self now_et)
   = [GetNflState; GetLeague (league_id self); GetRosters (league_id self);
      GetUsers (league_id self)] /\
   result (refresh_cycle self now_et)
   = inr (SleeperData.build nfl_state league rosters users []
                            (user_id self)) /\
   Build ∈ events (refresh_cycle self now_et)).
Proof.
  intros H1 H2 H3 H4.
  rewrite <- in_regular_post_true.
  destruct (in_regular_post (NflState.season_type nfl_state)) eqn:Hs.
  - assert (fetches (refresh_cycle self now_et)
            = [GetNflState; GetLeague (league_id self);
               GetRosters (league_id self); GetUsers (league_id self);
               GetMatchups (league_id self) (NflState.week nfl_state)])
      as Hf.
    { destruct (async_get_matchups (api self) (league_id self)
                                   (NflState.week nfl_state))
        as [e | matchups] eqn:H5.
      - rewrite (cycle_matchups_fails self now_et _ _ _ _ e
                   H1 H2 H3 H4 Hs H5).
        apply fetches_failed.
      - rewrite (cycle_in_season self now_et _ _ _ _ _
                   H1 H2 H3 H4 Hs H5).
        apply (fetches_done
                 [GetNflState; GetLeague (league_id self);
                  GetRosters (league_id self); GetUsers (league_id self);
                  GetMatchups (league_id self) (NflState.week nfl_state)]). }
    rewrite Hf. split; [|split; [|split]].
    + split; [done|]. intros _. set_solver.
    + intros c Hc Hm.
      repeat (apply elem_of_cons in Hc as [-> | Hc]; [(done || discriminate)|]).
      by apply elem_of_nil in Hc.
    + done.
    + intros Hn. by destruct Hn.
  - rewrite (cycle_out_of_season self now_et _ _ _ _ H1 H2 H3 H4 Hs).
    rewrite (fetches_done
               [GetNflState; GetLeague (league_id self);
                GetRosters (league_id self); GetUsers (league_id self)]).
    split; [|split; [|split]].
    + split; [|discriminate]. intros Hc.
      repeat (apply elem_of_cons in Hc as [? | Hc]; [discriminate|]).
      by apply elem_of_nil in Hc.
    + intros c Hc Hm.
      repeat (apply elem_of_cons in Hc as [-> | Hc]; [discriminate|]).
      by apply elem_of_nil in Hc.
    + discriminate.
    + intros _. split; [done|]. split; [done|]. simpl. set_solver.
Qed.

Lemma refresh_cycle_matchups_witness :
  (async_get_nfl_state Sample.api_up = inr Sample.nfl_state /\
   async_get_league Sample.api_up "L1" = inr Sample.league /\
   async_get_rosters Sample.api_up "L1" = inr Sample.rosters /\
   async_get_users Sample.api_up "L1" = inr Sample.users) /\
  GetMatchups "L1" 5
    ∈ fetches (refresh_cycle (Sample.coordinator Sample.api_up)
                             Sample.sunday_1pm).
Proof.
  split; [by repeat split|].
  apply (refresh_cycle_matchups
           (Sample.coordinator Sample.api_up) Sample.sunday_1pm
           Sample.nfl_state Sample.league Sample.rosters Sample.users
           eq_refl eq_refl eq_refl eq_refl).
  by left.
Defined.

(** Out of season the sample cycle asks for four collections and builds the
    snapshot without matchups. *)
Example refresh_cycle_off_season :
  let api :=
    {| async_get_nfl_state := inr Sample.nfl_state_off;
       async_get_league := fun _ => inr Sample.league;
       async_get_rosters := fun _ => inr Sample.rosters;
       async_get_users := fun _ => inr Sample.users;
       async_get_matchups := fun _ _ => inr Sample.matchups |} in
  let o := refresh_cycle (Sample.coordinator api) Sample.sunday_1pm in
  fetches o = [GetNflState; GetLeague "L1"; GetRosters "L1"; GetUsers "L1"]
  /\ update_interval (final o) = UPDATE_INTERVAL_OFFSEASON
  /\ exists data, result o = inr data /\ SleeperData.matchups data = [].
Proof.
  simpl. split; [reflexivity|]. split; [reflexivity|].
  eexists. split; reflexivity.
Qed.
(* ===================================================================== *)
(** ** Theorems: [from_api] *)
(* ===================================================================== *)

Lemma get_default_resolves payload k default :
  resolves payload k default (Py.get_default payload k default).
Proof.
  unfold resolves, Py.get_default.
  destruct (Py.lookup payload k); split; congruence.
Qed.

Lemma get_resolves payload k :
  resolves payload k Py.None_ (Py.get payload k).
Proof. apply get_default_resolves. Qed.

Lemma or_get_resolves payload k default :
  resolves_falsy payload k default (Py.or_ (Py.get payload k) default).
Proof.
  unfold resolves_falsy, Py.or_, Py.get, Py.get_default.
  destruct (Py.lookup payload k); split; try congruence.
  - intros v' [= <-]. reflexivity.
  - intros _. reflexivity.
Qed.

Lemma get_method_object v :
  object_or_falsy v ->
  Py.get_method (Py.or_ v (Py.Dict [])) = inr (members v).
Proof.
  unfold Py.or_. intros [Hf | [d ->]].
  - rewrite Hf. simpl. destruct v as [| | | | | | [|]]; simpl in *;
      reflexivity || discriminate.
  - by destruct d.
Qed.

Lemma or_number settings k :
  number_or_falsy (Py.get settings k) ->
  Py.number (Py.or_ (Py.get settings k) (Py.Int 0))
  = Some (part settings k).
Proof.
  unfold part, Py.or_.
  intros [Hf | [n Hn]].
  - rewrite Hf. by destruct (Py.number (Py.get settings k)).
  - rewrite Hn. by destruct (Py.truthy (Py.get settings k)).
Qed.

Lemma float_of_int_100 : float_of_int 100 = Some (Finite 100).
Proof. by vm_compute. Qed.

(** The quotient by 100 of a hundredths part that fits. *)
Lemma truediv_hundredths hundredths h :
  Py.number hundredths = Some h ->
  hundredths_fit h ->
  Py.truediv hundredths (Py.Int 100) = inr (Py.Float (hundredth h)).
Proof.
  intros Hh Hfit. unfold Py.truediv. rewrite Hh.
  change (Py.number (Py.Int 100)) with (Some (inl 100 : Z + float)).
  destruct h as [z | f]; cbv beta iota.
  - change (100 =? 0) with false. cbv iota.
    unfold int_truediv. unfold hundredths_fit in Hfit. unfold hundredth.
    by destruct (float_round (inject_Z z / inject_Z 100)).
  - unfold Py.as_float. rewrite float_of_int_100. reflexivity.
Qed.

(** The sum of a whole part that fits and a float. *)
Lemma add_whole whole w f :
  Py.number whole = Some w ->
  whole_fits w ->
  Py.add whole (Py.Float f) = inr (Py.Float (float_add (to_float w) f)).
Proof.
  intros Hw Hfit. unfold Py.add. rewrite Hw.
  change (Py.number (Py.Float f)) with (Some (inr f : Z + float)).
  destruct w as [z | g]; cbv beta iota; [|reflexivity].
  unfold Py.as_float, float_of_int, to_float.
  unfold whole_fits in Hfit.
  by destruct (float_round (inject_Z z)).
Qed.

Lemma recombine_numbers whole hundredths w h :
  Py.number whole = Some w ->
  Py.number hundredths = Some h ->
  whole_fits w -> hundredths_fit h ->
  RosterObj.recombine whole hundredths
  = inr (Py.Float (whole_plus_hundredths w h)).
Proof.
  intros Hw Hh Fw Fh. unfold RosterObj.recombine.
  rewrite (truediv_hundredths _ _ Hh Fh).
  exact (add_whole _ _ _ Hw Fw).
Qed.

Lemma recombine_parts settings whole hundredths :
  number_or_falsy (Py.get settings whole) ->
  number_or_falsy (Py.get settings hundredths) ->
  whole_fits (part settings whole) ->
  hundredths_fit (part settings hundredths) ->
  RosterObj.recombine (Py.or_ (Py.get settings whole) (Py.Int 0))
                      (Py.or_ (Py.get settings hundredths) (Py.Int 0))
  = inr (Py.Float (whole_plus_hundredths (part settings whole)
                                         (part settings hundredths))).
Proof.
  intros Hw%or_number Hh%or_number. by apply recombine_numbers.
Qed.

(** The conversions do not validate what they read: points that arrive as
    text, or as an integer beyond the floats, settings that are a list and
    metadata that is text make the conversion raise, and a null season type
    or a week in words is stored as it is, not replaced by the default. *)
Lemma from_api_malformed :
  RosterObj.from_api SamplePayload.roster_text_points = inl Py.TypeError /\
  RosterObj.from_api SamplePayload.roster_huge_points
    = inl Py.OverflowError /\
  RosterObj.from_api SamplePayload.roster_list_settings
    = inl Py.AttributeError /\
  LeagueUserObj.from_api SamplePayload.user_text_metadata
    = inl Py.AttributeError /\
  NflStateObj.from_api SamplePayload.state_null_type
    = inr {| NflStateObj.week := Py.Str "five";
             NflStateObj.season := Py.Str "";
             NflStateObj.season_type := Py.None_ |}.
Proof. repeat split; by vm_compute. Qed.

(** C6, amended.  The conversions of a season state, a league and a matchup
    entry never fail, and those of a roster and of a user never fail on a
    payload whose [settings] (resp. [metadata]) is absent, false or an
    object and whose four point parts are absent, false or numbers that fit
    the floats.  A member that is absent resolves to its default: 1 for the
    week, zero for the counts, the empty string for the names, ["off"] for
    the season type, [0.0] for the points of a matchup entry, [None] for
    the owner, the matchup and the team name; the counts of the settings
    and the points of a matchup do so too when they are present but false;
    a member that is present is otherwise stored as received.  Points for
    and points against of a roster are the float [whole + hundredths / 100]
    of their two parts, as float arithmetic rounds it. *)
Theorem from_api_total (state league roster user matchup : Py.dict) :
  roster_payload_ok roster ->
  user_payload_ok user ->
  (exists s,
     NflStateObj.from_api state = inr s /\
     resolves state "week" (Py.Int 1) (NflStateObj.week s) /\
     resolves state "season" (Py.Str "") (NflStateObj.season s) /\
     resolves state "season_type" (Py.Str "off")
              (NflStateObj.season_type s)) /\
  (exists l,
     LeagueInfoObj.from_api league = inr l /\
     resolves league "league_id" (Py.Str "") (LeagueInfoObj.league_id l) /\
     resolves league "name" (Py.Str "") (LeagueInfoObj.name l) /\
     resolves league "status" (Py.Str "") (LeagueInfoObj.status l) /\
     resolves league "season" (Py.Str "") (LeagueInfoObj.season l) /\
     resolves league "total_rosters" (Py.Int 0)
              (LeagueInfoObj.total_rosters l)) /\
  (exists r,
     let settings := members (Py.get roster "settings") in
     RosterObj.from_api roster = inr r /\
     resolves roster "roster_id" (Py.Int 0) (RosterObj.roster_id r) /\
     resolves roster "owner_id" Py.None_ (RosterObj.owner_id r) /\
     resolves_falsy settings "wins" (Py.Int 0) (RosterObj.wins r) /\
     resolves_falsy settings "losses" (Py.Int 0) (RosterObj.losses r) /\
     resolves_falsy settings "ties" (Py.Int 0) (RosterObj.ties r) /\
     resolves_falsy settings "waiver_position" (Py.Int 0)
                    (RosterObj.waiver_position r) /\
     resolves_falsy settings "total_moves" (Py.Int 0)
                    (RosterObj.total_moves r) /\
     RosterObj.fpts r
     = Py.Float (whole_plus_hundredths (part settings "fpts")
                                       (part settings "fpts_decimal")) /\
     RosterObj.fpts_against r
     = Py.Float (whole_plus_hundredths
                   (part settings "fpts_against")
                   (part settings "fpts_against_decimal"))) /\
  (exists u,
     LeagueUserObj.from_api user = inr u /\
     resolves user "user_id" (Py.Str "") (LeagueUserObj.user_id u) /\
     resolves user "display_name" (Py.Str "")
              (LeagueUserObj.display_name u) /\
     resolves (members (Py.get user "metadata")) "team_name" Py.None_
              (LeagueUserObj.team_name u)) /\
  (exists m,
     MatchupObj.from_api matchup = inr m /\
     resolves matchup "roster_id" (Py.Int 0) (MatchupObj.roster_id m) /\
     resolves matchup "matchup_id" Py.None_ (MatchupObj.matchup_id m) /\
     resolves_falsy matchup "points" (Py.Float (Finite 0))
                    (MatchupObj.points m)).
Proof.
  intros (Hsettings & Hparts & Fw & Fh & Fw' & Fh') Hmetadata.
  split; [|split; [|split; [|split]]].
  - eexists. split; [reflexivity|]. simpl.
    split; [|split]; apply get_default_resolves.
  - eexists. split; [reflexivity|]. simpl.
    split; [|split; [|split; [|split]]]; apply get_default_resolves.
  - unfold RosterObj.from_api.
    rewrite (get_method_object _ Hsettings).
    unfold Py.and_then at 1. cbv zeta.
    rewrite (recombine_parts (members (Py.get roster "settings"))
               "fpts" "fpts_decimal")
      by (done || (apply Hparts; set_solver)).
    unfold Py.and_then at 1.
    rewrite (recombine_parts (members (Py.get roster "settings"))
               "fpts_against" "fpts_against_decimal")
      by (done || (apply Hparts; set_solver)).
    unfold Py.and_then at 1.
    eexists. split; [reflexivity|].
    unfold RosterObj.roster_id, RosterObj.owner_id, RosterObj.wins,
      RosterObj.losses, RosterObj.ties, RosterObj.waiver_position,
      RosterObj.total_moves, RosterObj.fpts, RosterObj.fpts_against.
    split; [apply get_default_resolves|].
    split; [apply get_resolves|].
    do 5 (split; [apply or_get_resolves|]).
    split; reflexivity.
  - unfold LeagueUserObj.from_api.
    rewrite (get_method_object _ Hmetadata). simpl.
    eexists. split; [reflexivity|]. simpl.
    split; [apply get_default_resolves|].
    split; [apply get_default_resolves | apply get_resolves].
  - eexists. split; [reflexivity|]. simpl.
    split; [apply get_default_resolves|].
    split; [apply get_resolves | apply or_get_resolves].
Qed.

Lemma from_api_total_witness :
  roster_payload_ok SamplePayload.roster /\
  user_payload_ok SamplePayload.user /\
  (exists s, NflStateObj.from_api SamplePayload.state = inr s /\
             NflStateObj.season_type s = Py.Str "off") /\
  (exists r, RosterObj.from_api SamplePayload.roster = inr r /\
             RosterObj.fpts r = Py.Float (Finite (201 # 2))).
Proof.
  assert (roster_payload_ok SamplePayload.roster) as Hr.
  { split; [right; eexists; reflexivity|]. split.
    - intros k Hk. unfold point_parts in Hk.
      repeat (apply elem_of_cons in Hk as [-> | Hk];
              [first [ right; eexists; reflexivity | left; reflexivity ]|]).
      by apply elem_of_nil in Hk.
    - repeat split; by vm_compute. }
  assert (user_payload_ok SamplePayload.user) as Hu.
  { right; eexists; reflexivity. }
  split; [exact Hr|]. split; [exact Hu|].
  destruct (from_api_total SamplePayload.state SamplePayload.league
              SamplePayload.roster SamplePayload.user SamplePayload.matchup
              Hr Hu)
    as ((s & Hs & _ & _ & Htype) & _ & (r & Hroster) & _).
  split.
  - exists s. split; [exact Hs|]. apply (proj1 Htype). reflexivity.
  - cbv zeta in Hroster.
    destruct Hroster as (Hfrom & _ & _ & _ & _ & _ & _ & _ & Hq & _).
    exists r. split; [exact Hfrom|]. rewrite Hq. by vm_compute.
Defined.

(** Points that are infinities of opposite sign add up to NaN: a roster
    whose points cannot be compared with any other is within reach. *)
Example from_api_nan :
  exists r, RosterObj.from_api SamplePayload.roster_infinite_points = inr r /\
            RosterObj.fpts r = Py.Float NaN.
Proof. eexists. split; by vm_compute. Qed.

(** Rounding at work: [2 ^ 53] is a float and [2 ^ 53 + 1] is not, the
    integers from [2 ^ 1024 - 2 ^ 970] on are beyond the floats, and a
    tenth is not a float. *)
Example float_of_int_exact :
  float_of_int (2 ^ 53) = Some (Finite (inject_Z (2 ^ 53))) /\
  float_of_int (2 ^ 53 + 1) = Some (Finite (inject_Z (2 ^ 53))) /\
  float_of_int (- 7) = Some (Finite (inject_Z (- 7))) /\
  float_of_int (2 ^ 1024 - 2 ^ 970) = None /\
  float_round (1 # 10) = Finite (3602879701896397 # 2 ^ 55).
Proof. repeat split; by vm_compute. Qed.
(* ===================================================================== *)
(** ** More on the scheduler *)
(* ===================================================================== *)

(** Every game window lies in a game day, whatever integers the day, the
    hour and the week are: were the game-day test made first, the
    five-minute cadence would never be chosen. *)
Theorem game_window_within_game_day (day_of_week hour week : Z) season_type :
  _is_in_game_window day_of_week hour week season_type = true ->
  _is_game_day day_of_week week season_type = true.
Proof.
  unfold _is_in_game_window, _is_game_day.
  destruct (day_of_week =? 3) eqn:H3; simpl.
  { by rewrite orb_true_r. }
  destruct (day_of_week =? 6) eqn:H6; simpl.
  { by rewrite orb_true_r. }
  destruct (day_of_week =? 0) eqn:H0; simpl; [done|].
  destruct (day_of_week =? 5); simpl; [|done].
  destruct (hour >=? 12); simpl; [|done].
  by destruct ((week >=? 15) || (season_type =? "post")%string).
Qed.

Lemma game_window_within_game_day_witness :
  _is_in_game_window 5 13 16 "regular" = true /\
  _is_game_day 5 16 "regular" = true.
Proof.
  split; [reflexivity|].
  apply (game_window_within_game_day 5 13 16 "regular"). reflexivity.
Defined.

Lemma in_regular_post_not_off st : in_regular_post st = true -> st <> "off".
Proof. intros [-> | ->]%in_regular_post_true; discriminate. Qed.

(** The interval the scheduler returns tells which case it was in: 24 hours
    exactly when the season type is ["off"], 5 minutes exactly in a game
    window of the regular or post season, 15 minutes exactly on a game day
    of the regular or post season outside the windows, and one hour in
    every other case; it is never shorter than 5 minutes nor longer than a
    day. *)
Theorem update_interval_cases season_type week now_et :
  (_calculate_update_interval season_type week now_et
   = UPDATE_INTERVAL_OFFSEASON <-> season_type = "off") /\
  (_calculate_update_interval season_type week now_et
   = UPDATE_INTERVAL_GAME_WINDOW
   <-> in_regular_post season_type = true /\
       _is_in_game_window (weekday now_et) (hour now_et) week season_type
       = true) /\
  (_calculate_update_interval season_type week now_et
   = UPDATE_INTERVAL_GAME_DAY
   <-> in_regular_post season_type = true /\
       _is_in_game_window (weekday now_et) (hour now_et) week season_type
       = false /\
       _is_game_day (weekday now_et) week season_type = true) /\
  (_calculate_update_interval season_type week now_et
   = UPDATE_INTERVAL_REGULAR
   <-> season_type <> "off" /\
       (in_regular_post season_type = true ->
        _is_game_day (weekday now_et) week season_type = false)) /\
  minutes 5 <= _calculate_update_interval season_type week now_et
            <= hours 24.
Proof.
  unfold _calculate_update_interval.
  destruct (string_eqb_spec season_type "off") as [-> | Hoff]; simpl.
  { unfold UPDATE_INTERVAL_OFFSEASON, UPDATE_INTERVAL_GAME_WINDOW,
      UPDATE_INTERVAL_GAME_DAY, UPDATE_INTERVAL_REGULAR, minutes, hours.
    intuition (discriminate || lia). }
  destruct (in_regular_post season_type) eqn:Hs; simpl.
  2:{ unfold UPDATE_INTERVAL_OFFSEASON, UPDATE_INTERVAL_GAME_WINDOW,
        UPDATE_INTERVAL_GAME_DAY, UPDATE_INTERVAL_REGULAR, minutes, hours.
      intuition (discriminate || lia). }
  destruct (_is_in_game_window _ _ _ _) eqn:Hw.
  { assert (_is_game_day (weekday now_et) week season_type = true) as Hd.
    { revert Hw. unfold _is_in_game_window, _is_game_day.
      destruct (weekday now_et =? 3); simpl; [by rewrite orb_true_r|].
      destruct (weekday now_et =? 6); simpl; [by rewrite orb_true_r|].
      destruct (weekday now_et =? 0); simpl; [done|].
      destruct (weekday now_et =? 5); simpl; [|done].
      destruct (hour now_et >=? 12); simpl; [|done].
      by destruct ((week >=? 15) || (season_type =? "post")%string). }
    unfold UPDATE_INTERVAL_OFFSEASON, UPDATE_INTERVAL_GAME_WINDOW,
      UPDATE_INTERVAL_GAME_DAY, UPDATE_INTERVAL_REGULAR, minutes, hours.
    intuition (congruence || lia). }
  destruct (_is_game_day _ _ _) eqn:Hd;
    unfold UPDATE_INTERVAL_OFFSEASON, UPDATE_INTERVAL_GAME_WINDOW,
      UPDATE_INTERVAL_GAME_DAY, UPDATE_INTERVAL_REGULAR, minutes, hours;
    intuition (congruence || lia).
Qed.
(* ===================================================================== *)
(** ** More on the refresh cycle *)
(* ===================================================================== *)

(** The requests of a cycle are an initial part of the fixed order season
    state, league, rosters, users, matchups, all for the league of the
    coordinator, and the first one is always issued. *)
Theorem refresh_cycle_request_order self now_et :
  exists week,
    fetches (refresh_cycle self now_et)
      `prefix_of` request_order (league_id self) week /\
    head (fetches (refresh_cycle self now_et)) = Some GetNflState /\
    (forall nfl_state,
       async_get_nfl_state (api self) = inr nfl_state ->
       fetches (refresh_cycle self now_et)
         `prefix_of` request_order (league_id self)
                                   (NflState.week nfl_state)).
Proof.
  unfold request_order.
  destruct (async_get_nfl_state (api self)) as [e | nfl_state] eqn:H1.
  { exists 0. rewrite (cycle_nfl_state_fails self now_et e H1).
    rewrite fetches_failed. split; [by eexists|]. split; [done|].
    discriminate. }
  exists (NflState.week nfl_state).
  assert (fetches (refresh_cycle self now_et)
            `prefix_of` [GetNflState; GetLeague (league_id self);
                         GetRosters (league_id self);
                         GetUsers (league_id self);
                         GetMatchups (league_id self)
                                     (NflState.week nfl_state)] /\
          head (fetches (refresh_cycle self now_et)) = Some GetNflState)
    as [Hp Hh].
  { destruct (async_get_league (api self) (league_id self))
      as [e | league] eqn:H2.
    { rewrite (cycle_league_fails self now_et _ e H1 H2), fetches_failed.
      split; [by eexists | done]. }
    destruct (async_get_rosters (api self) (league_id self))
      as [e | rosters] eqn:H3.
    { rewrite (cycle_rosters_fails self now_et _ _ e H1 H2 H3),
        fetches_failed.
      split; [by eexists | done]. }
    destruct (async_get_users (api self) (league_id self))
      as [e | users] eqn:H4.
    { rewrite (cycle_users_fails self now_et _ _ _ e H1 H2 H3 H4),
        fetches_failed.
      split; [by eexists | done]. }
    destruct (in_regular_post (NflState.season_type nfl_state)) eqn:Hs.
    2:{ rewrite (cycle_out_of_season self now_et _ _ _ _ H1 H2 H3 H4 Hs),
          fetches_done.
        split; [by eexists | done]. }
    destruct (async_get_matchups (api self) (league_id self)
                                 (NflState.week nfl_state))
      as [e | matchups] eqn:H5.
    { rewrite (cycle_matchups_fails self now_et _ _ _ _ e
                 H1 H2 H3 H4 Hs H5), fetches_failed.
      split; [by exists [] | done]. }
    rewrite (cycle_in_season self now_et _ _ _ _ _ H1 H2 H3 H4 Hs H5),
      fetches_done.
    split; [by exists [] | done]. }
  split; [exact Hp|]. split; [exact Hh|].
  intros ns [= <-]. exact Hp.
Qed.



(** A cycle, failed or not, leaves the client, the league id and the user
    id of the coordinator as they were: the update interval is the only
    attribute it writes. *)
Theorem refresh_cycle_frame self now_et :
  api (final (refresh_cycle self now_et)) = api self /\
  league_id (final (refresh_cycle self now_et)) = league_id self /\
  user_id (final (refresh_cycle self now_et)) = user_id self.
Proof.
  by destruct (refresh_cycle_shape self now_et).
Qed.

(** What a cycle that returns a snapshot has done: the four collections
    were answered, the matchups were answered when the fetched season type
    is regular or post and are empty otherwise, the snapshot is [build] of
    these for the user id of the coordinator, and the coordinator now holds
    the interval of the scheduler for the fetched season state. *)
Theorem refresh_cycle_returns self now_et data :
  result (refresh_cycle self now_et) = inr data ->
  exists nfl_state league rosters users matchups,
    async_get_nfl_state (api self) = inr nfl_state /\
    async_get_league (api self) (league_id self) = inr league /\
    async_get_rosters (api self) (league_id self) = inr rosters /\
    async_get_users (api self) (league_id self) = inr users /\
    (if in_regular_post (NflState.season_type nfl_state)
     then async_get_matchups (api self) (league_id self)
                             (NflState.week nfl_state) = inr matchups
     else matchups = []) /\
    data = SleeperData.build nfl_state league rosters users matchups
                             (user_id self) /\
    final (refresh_cycle self now_et)
    = with_update_interval self
        (_calculate_update_interval (NflState.season_type nfl_state)
                                    (NflState.week nfl_state) now_et) /\
    events (refresh_cycle self now_et)
    = map Fetch (fetches (refresh_cycle self now_et)) ++ [Build].
Proof.
  destruct (async_get_nfl_state (api self)) as [e | nfl_state] eqn:H1.
  { by rewrite (cycle_nfl_state_fails self now_et e H1). }
  destruct (async_get_league (api self) (league_id self))
    as [e | league] eqn:H2.
  { by rewrite (cycle_league_fails self now_et _ e H1 H2). }
  destruct (async_get_rosters (api self) (league_id self))
    as [e | rosters] eqn:H3.
  { by rewrite (cycle_rosters_fails self now_et _ _ e H1 H2 H3). }
  destruct (async_get_users (api self) (league_id self))
    as [e | users] eqn:H4.
  { by rewrite (cycle_users_fails self now_et _ _ _ e H1 H2 H3 H4). }
  destruct (in_regular_post (NflState.season_type nfl_state)) eqn:Hs.
  2:{ rewrite (cycle_out_of_season self now_et _ _ _ _ H1 H2 H3 H4 Hs).
      rewrite fetches_done. intros [= <-].
      exists nfl_state, league, rosters, users, [].
      rewrite Hs. by repeat (split; [done|]). }
  destruct (async_get_matchups (api self) (league_id self)
                               (NflState.week nfl_state))
    as [e | matchups] eqn:H5.
  { by rewrite (cycle_matchups_fails self now_et _ _ _ _ e
                  H1 H2 H3 H4 Hs H5). }
  rewrite (cycle_in_season self now_et _ _ _ _ _ H1 H2 H3 H4 Hs H5).
  rewrite fetches_done. intros [= <-].
  exists nfl_state, league, rosters, users, matchups.
  rewrite Hs. by repeat (split; [done|]).
Qed.

Lemma refresh_cycle_returns_witness :
  exists data,
    result (refresh_cycle (Sample.coordinator Sample.api_up)
                          Sample.sunday_1pm) = inr data /\
    SleeperData.matchups data = Sample.matchups /\
    update_interval (final (refresh_cycle (Sample.coordinator Sample.api_up)
                                          Sample.sunday_1pm))
    = UPDATE_INTERVAL_GAME_WINDOW.
Proof.
  eexists. split; [reflexivity|].
  destruct (refresh_cycle_returns
              (Sample.coordinator Sample.api_up) Sample.sunday_1pm _ eq_refl)
    as (ns & lg & rs & us & ms & [= <-] & [= <-] & [= <-] & [= <-]
        & Hms & _ & Hfinal & _).
  simpl in Hms. injection Hms as <-.
  split; [reflexivity|]. rewrite Hfinal. reflexivity.
Defined.
(* ===================================================================== *)
(** ** More on [build] *)
(* ===================================================================== *)

Lemma owner_entry_cases users r :
  SleeperData.owner_entry (SleeperData.user_by_id_of users) r
  = SleeperData.placeholder \/
  SleeperData.owner_entry (SleeperData.user_by_id_of users) r ∈ users.
Proof.
  unfold SleeperData.owner_entry.
  destruct (Roster.owner_id r) as [o|]; [|by left].
  destruct (truthy_str o); [|by left].
  destruct (SleeperData.user_by_id_of users !! o) as [u|] eqn:Hu; [|by left].
  right. by apply user_by_id_Some in Hu as [? _].
Qed.

(** The roster-owner mapping of [build] has an entry exactly for the roster
    ids of the input, and every entry is the placeholder or a user of the
    input. *)
Theorem build_roster_to_user_domain
    nfl_state league rosters users matchups user_id :
  (forall rid,
     is_Some (SleeperData.roster_to_user
                (SleeperData.build nfl_state league rosters users matchups
                                   user_id) !! rid)
     <-> rid ∈ map Roster.roster_id rosters) /\
  (forall rid u,
     SleeperData.roster_to_user
       (SleeperData.build nfl_state league rosters users matchups user_id)
       !! rid = Some u ->
     u = SleeperData.placeholder \/ u ∈ users).
Proof.
  rewrite build_roster_to_user, roster_to_user_of_keyed. split.
  - intros rid. split.
    + intros [u Hu].
      apply (keyed_lookup_Some Roster.roster_id) in Hu as (r & Hr & <- & _).
      apply list_elem_of_fmap. by exists r.
    + intros (r & -> & Hr)%list_elem_of_fmap.
      by apply (keyed_lookup_is_Some Roster.roster_id).
  - intros rid u Hu.
    apply (keyed_lookup_Some Roster.roster_id) in Hu as (r & _ & _ & <-).
    apply owner_entry_cases.
Qed.

(** Where ids repeat, the last one counts: a roster id is mapped to the
    owner of the last roster that has it, and a user id stands for the last
    user that has it, as owner and as viewer. *)
Theorem build_last_wins
    nfl_state league rosters1 r rosters2 users1 u users2 matchups :
  (forall r', r' ∈ rosters2 -> Roster.roster_id r' <> Roster.roster_id r) ->
  (forall u', u' ∈ users2 ->
              LeagueUser.user_id u' <> LeagueUser.user_id u) ->
  Roster.owner_id r = Some (LeagueUser.user_id u) ->
  LeagueUser.user_id u <> "" ->
  SleeperData.roster_to_user
    (SleeperData.build nfl_state league (rosters1 ++ r :: rosters2)
                       (users1 ++ u :: users2) matchups
                       (Some (LeagueUser.user_id u)))
    !! Roster.roster_id r = Some u /\
  SleeperData.my_user
    (SleeperData.build nfl_state league (rosters1 ++ r :: rosters2)
                       (users1 ++ u :: users2) matchups
                       (Some (LeagueUser.user_id u)))
  = Some u.
Proof.
  intros Hr Hu Ho Hne. split.
  - rewrite build_roster_to_user, roster_to_user_last by done.
    f_equal. apply (owner_entry_resolved _ r (LeagueUser.user_id u) u);
      [done | done |].
    by apply user_by_id_last.
  - destruct (build_viewer_fields nfl_state league (rosters1 ++ r :: rosters2)
                (users1 ++ u :: users2) matchups (LeagueUser.user_id u) Hne)
      as [-> _].
    by apply user_by_id_last.
Qed.

Lemma build_last_wins_witness :
  SleeperData.roster_to_user
    (SleeperData.build Sample.nfl_state Sample.league
       [SampleDuplicates.first_roster; SampleDuplicates.second_roster]
       [Sample.ann; Sample.bob; SampleDuplicates.ann_again] [] (Some "u1"))
    !! 1 = Some SampleDuplicates.ann_again /\
  SleeperData.my_user
    (SleeperData.build Sample.nfl_state Sample.league
       [SampleDuplicates.first_roster; SampleDuplicates.second_roster]
       [Sample.ann; Sample.bob; SampleDuplicates.ann_again] [] (Some "u1"))
  = Some SampleDuplicates.ann_again.
Proof.
  apply (build_last_wins Sample.nfl_state Sample.league
           [SampleDuplicates.first_roster] SampleDuplicates.second_roster []
           [Sample.ann; Sample.bob] SampleDuplicates.ann_again [] []).
  - intros r' Hr'. by apply elem_of_nil in Hr'.
  - intros u' Hu'. by apply elem_of_nil in Hu'.
  - reflexivity.
  - discriminate.
Defined.

(** The roster [build] finds for the viewer is a roster of the input owned
    by the viewer, whose id is not the empty string, and it has a place in
    the standings. *)
Theorem build_my_roster_sound
    nfl_state league rosters users matchups viewer r :
  SleeperData.my_roster
    (SleeperData.build nfl_state league rosters users matchups viewer)
  = Some r ->
  r ∈ rosters /\
  Roster.owner_id r = viewer /\
  viewer <> Some "" /\
  Roster.roster_id r
    ∈ SleeperData.standings
        (SleeperData.build nfl_state league rosters users matchups viewer).
Proof.
  unfold SleeperData.build; simpl.
  destruct viewer as [uid|]; [|discriminate].
  destruct (truthy_str uid) eqn:Ht; [|discriminate]. simpl.
  intros (l1 & l2 & -> & Ho%owned_by_true & _)%find_some_split.
  split; [set_solver|]. split; [done|].
  split; [apply truthy_str_true in Ht; congruence|].
  apply list_elem_of_fmap. exists r. split; [done|].
  unfold SleeperData.sorted_rosters. rewrite sorted_perm. set_solver.
Qed.

Lemma build_my_roster_sound_witness :
  SleeperData.my_roster
    (SleeperData.build Sample.nfl_state Sample.league Sample.rosters
                       Sample.users Sample.matchups (Some "u2"))
  = Some Sample.bobs_roster /\
  Sample.bobs_roster ∈ Sample.rosters /\
  2 ∈ SleeperData.standings
        (SleeperData.build Sample.nfl_state Sample.league Sample.rosters
                           Sample.users Sample.matchups (Some "u2")).
Proof.
  assert (SleeperData.my_roster
            (SleeperData.build Sample.nfl_state Sample.league Sample.rosters
                               Sample.users Sample.matchups (Some "u2"))
          = Some Sample.bobs_roster) as H by reflexivity.
  split; [exact H|].
  destruct (build_my_roster_sound _ _ _ _ _ _ _ H) as (Hin & _ & _ & Hst).
  split; [exact Hin | exact Hst].
Defined.

(** The user [build] finds for the viewer is a user of the input whose id
    is the viewer id, and that id is not the empty string. *)
Theorem build_my_user_sound
    nfl_state league rosters users matchups viewer u :
  SleeperData.my_user
    (SleeperData.build nfl_state league rosters users matchups viewer)
  = Some u ->
  u ∈ users /\ viewer = Some (LeagueUser.user_id u) /\
  LeagueUser.user_id u <> "".
Proof.
  unfold SleeperData.build; simpl.
  destruct viewer as [uid|]; [|discriminate].
  destruct (truthy_str uid) eqn:Ht; [|discriminate]. simpl.
  intros [Hin <-]%user_by_id_Some.
  split; [done|]. split; [done|]. by apply truthy_str_true.
Qed.

Lemma build_my_user_sound_witness :
  SleeperData.my_user
    (SleeperData.build Sample.nfl_state Sample.league Sample.rosters
                       Sample.users Sample.matchups (Some "u1"))
  = Some Sample.ann /\
  Sample.ann ∈ Sample.users.
Proof.
  assert (SleeperData.my_user
            (SleeperData.build Sample.nfl_state Sample.league Sample.rosters
                               Sample.users Sample.matchups (Some "u1"))
          = Some Sample.ann) as H by (vm_compute; reflexivity).
  split; [exact H|].
  exact (proj1 (build_my_user_sound _ _ _ _ _ _ _ H)).
Defined.
(* ===================================================================== *)
(** ** The other sensors *)
(* ===================================================================== *)

Lemma contains_elem l x : contains l x = true <-> x ∈ l.
Proof.
  unfold contains. induction l as [| y l IH]; simpl.
  - split; [discriminate | by intros ?%elem_of_nil].
  - rewrite orb_true_iff, IH, elem_of_cons, Z.eqb_eq. split; intros [?|?]; auto.
Qed.

Lemma index_elem l x :
  x ∈ l ->
  exists i, index l x = Some i /\ 0 <= i < Z.of_nat (length l) /\
            l !! Z.to_nat i = Some x.
Proof.
  induction l as [| y l IH]; [by intros ?%elem_of_nil|].
  intros Hin. simpl. destruct (Z.eqb_spec y x) as [-> | Hne].
  - exists 0. split; [done|]. split; [simpl; lia | done].
  - apply elem_of_cons in Hin as [-> | Hin]; [done|].
    destruct (IH Hin) as (i & -> & Hi & Hl).
    exists (i + 1). split; [done|]. split; [simpl; lia|].
    replace (Z.to_nat (i + 1)) with (S (Z.to_nat i)) by lia. done.
Qed.

Lemma standing_of_elem l x :
  x ∈ l ->
  1 <= standing_of l x <= Z.of_nat (length l) /\
  l !! Z.to_nat (standing_of l x - 1) = Some x.
Proof.
  intros Hin. unfold standing_of.
  rewrite (proj2 (contains_elem l x) Hin).
  destruct (index_elem l x Hin) as (i & -> & Hi & Hl).
  split; [lia|]. by replace (i + 1 - 1) with i by lia.
Qed.

Lemma standing_of_not_elem l x : x ∉ l -> standing_of l x = 0.
Proof.
  intros Hn. unfold standing_of.
  destruct (contains l x) eqn:Hc; [|done].
  by apply contains_elem in Hc.
Qed.

Lemma build_standings_elem nfl_state league rosters users matchups viewer r :
  r ∈ rosters ->
  Roster.roster_id r
    ∈ SleeperData.standings
        (SleeperData.build nfl_state league rosters users matchups viewer).
Proof.
  intros Hr. unfold SleeperData.build; simpl.
  destruct (match viewer with Some _ => _ | None => _ end). simpl.
  apply list_elem_of_fmap. exists r. split; [done|].
  unfold SleeperData.sorted_rosters. by rewrite sorted_perm.
Qed.

Lemma build_standings_length nfl_state league rosters users matchups viewer :
  length (SleeperData.standings
            (SleeperData.build nfl_state league rosters users matchups viewer))
  = length rosters.
Proof.
  unfold SleeperData.build; simpl.
  destruct (match viewer with Some _ => _ | None => _ end). simpl.
  rewrite length_map. apply sorted_length.
Qed.

Lemma build_my_roster_elem nfl_state league rosters users matchups viewer r :
  SleeperData.my_roster
    (SleeperData.build nfl_state league rosters users matchups viewer)
  = Some r ->
  r ∈ rosters.
Proof.
  unfold SleeperData.build; simpl.
  destruct viewer as [uid|]; [|discriminate].
  destruct (truthy_str uid); [|discriminate]. simpl.
  intros (l1 & l2 & -> & _)%find_some_split. set_solver.
Qed.

Lemma build_rosters nfl_state league rosters users matchups viewer :
  SleeperData.rosters
    (SleeperData.build nfl_state league rosters users matchups viewer)
  = rosters.
Proof.
  unfold SleeperData.build.
  by destruct (match viewer with Some _ => _ | None => _ end).
Qed.

Lemma find_roster_id_none rosters rid :
  find (fun roster => Roster.roster_id roster =? rid) rosters = None <->
  rid ∉ map Roster.roster_id rosters.
Proof.
  rewrite find_none_iff. split.
  - intros H (r & -> & Hr)%list_elem_of_fmap.
    specialize (H r Hr). by rewrite Z.eqb_refl in H.
  - intros H r Hr. apply Z.eqb_neq. intros Heq. apply H.
    apply list_elem_of_fmap. by exists r.
Qed.

(** The record and the attributes of the sensor of a roster id are defined
    together, exactly when a roster of the snapshot has the id, and the
    record is then the wins, losses and ties of the first such roster,
    joined by dashes. *)
Theorem roster_sensor_defined data rid :
  (_roster_record data rid = None
   <-> rid ∉ map Roster.roster_id (SleeperData.rosters data)) /\
  (_roster_attrs data rid = None <-> _roster_record data rid = None) /\
  (forall l1 r l2,
     SleeperData.rosters data = l1 ++ r :: l2 ->
     Roster.roster_id r = rid ->
     (forall r', r' ∈ l1 -> Roster.roster_id r' <> rid) ->
     _roster_record data rid
     = Some (int_str (Roster.wins r) ++ "-" ++ int_str (Roster.losses r)
             ++ "-" ++ int_str (Roster.ties r))%string).
Proof.
  unfold _roster_record, _roster_attrs. split; [|split].
  - rewrite <- find_roster_id_none.
    by destruct (find _ (SleeperData.rosters data)).
  - by destruct (find _ (SleeperData.rosters data)).
  - intros l1 r l2 -> <- Hl1.
    rewrite find_first; [done | apply Z.eqb_refl |].
    intros y Hy. by apply Z.eqb_neq, Hl1.
Qed.

(** On a snapshot made by [build], the attributes of the sensor of a roster
    id of the input give a standing between 1 and the number of rosters,
    which is a position of the id in the standings, and the display name
    and team name of the entry of the roster-owner mapping: the fallback
    name is never used. *)
Theorem roster_attrs_of_build
    nfl_state league rosters users matchups viewer rid :
  rid ∈ map Roster.roster_id rosters ->
  exists a u,
    _roster_attrs
      (SleeperData.build nfl_state league rosters users matchups viewer) rid
    = Some a /\
    1 <= attr_standing a <= Z.of_nat (length rosters) /\
    SleeperData.standings
      (SleeperData.build nfl_state league rosters users matchups viewer)
      !! Z.to_nat (attr_standing a - 1) = Some rid /\
    SleeperData.roster_to_user
      (SleeperData.build nfl_state league rosters users matchups viewer)
      !! rid = Some u /\
    attr_display_name a = LeagueUser.display_name u /\
    attr_team_name a = LeagueUser.team_name u.
Proof.
  intros Hin.
  pose proof Hin as (r & -> & Hr)%list_elem_of_fmap.
  pose proof (build_standings_elem nfl_state league rosters users matchups
                viewer r Hr) as Hst.
  apply standing_of_elem in Hst as [Hrange Hpos].
  rewrite build_standings_length in Hrange.
  assert (is_Some (SleeperData.roster_to_user
                     (SleeperData.build nfl_state league rosters users
                        matchups viewer) !! Roster.roster_id r)) as [u Hu].
  { rewrite build_roster_to_user, roster_to_user_of_keyed.
    by apply (keyed_lookup_is_Some Roster.roster_id). }
  unfold _roster_attrs.
  destruct (find _ (SleeperData.rosters _)) as [r0|] eqn:Hfind.
  2:{ apply find_roster_id_none in Hfind.
      rewrite build_rosters in Hfind. by destruct Hfind. }
  eexists _, u. split; [reflexivity|]. simpl.
  split; [exact Hrange|]. split; [exact Hpos|].
  split; [exact Hu|]. by rewrite Hu.
Qed.

Lemma roster_attrs_of_build_witness :
  2 ∈ map Roster.roster_id Sample.rosters /\
  exists a,
    _roster_attrs
      (SleeperData.build Sample.nfl_state Sample.league Sample.rosters
                         Sample.users Sample.matchups None) 2 = Some a /\
    1 <= attr_standing a <= 3.
Proof.
  assert (2 ∈ map Roster.roster_id Sample.rosters) as Hin.
  { apply (list_elem_of_lookup_2 _ 1%nat). reflexivity. }
  split; [exact Hin|].
  destruct (roster_attrs_of_build Sample.nfl_state Sample.league
              Sample.rosters Sample.users Sample.matchups None 2 Hin)
    as (a & u & Ha & Hrange & _).
  exists a. split; [exact Ha | exact Hrange].
Defined.

(** On a snapshot made by [build], the [my_standing] sensor is 0 when no
    roster was found for the viewer, and otherwise a position of that
    roster in the standings, between 1 and the total of teams, which is the
    number of rosters. *)
Theorem my_standing_of_build nfl_state league rosters users matchups viewer :
  total_teams
    (SleeperData.build nfl_state league rosters users matchups viewer)
  = Z.of_nat (length rosters) /\
  match SleeperData.my_roster
          (SleeperData.build nfl_state league rosters users matchups viewer)
  with
  | None =>
      my_standing
        (SleeperData.build nfl_state league rosters users matchups viewer)
      = 0
  | Some r =>
      1 <= my_standing
             (SleeperData.build nfl_state league rosters users matchups
                                viewer)
        <= Z.of_nat (length rosters) /\
      SleeperData.standings
        (SleeperData.build nfl_state league rosters users matchups viewer)
        !! Z.to_nat
             (my_standing
                (SleeperData.build nfl_state league rosters users matchups
                                   viewer) - 1)
      = Some (Roster.roster_id r)
  end.
Proof.
  split.
  { unfold total_teams. by rewrite build_standings_length. }
  unfold my_standing.
  destruct (SleeperData.my_roster _) as [r|] eqn:Hmy; [|done].
  apply build_my_roster_elem in Hmy.
  pose proof (build_standings_elem nfl_state league rosters users matchups
                viewer r Hmy) as Hst.
  apply standing_of_elem in Hst as [Hrange Hpos].
  by rewrite build_standings_length in Hrange.
Qed.

Example my_standing_sample :
  my_standing
    (SleeperData.build Sample.nfl_state Sample.league Sample.rosters
                       Sample.users Sample.matchups (Some "u1")) = 2 /\
  my_record
    (SleeperData.build Sample.nfl_state Sample.league Sample.rosters
                       Sample.users Sample.matchups (Some "u1")) = "3-1-0" /\
  my_standing
    (SleeperData.build Sample.nfl_state Sample.league Sample.rosters
                       Sample.users Sample.matchups (Some "nobody")) = 0.
Proof. split; [|split]; vm_compute; reflexivity. Qed.

Section MatchupAttrsFacts.
Variable float_str : float -> string.

(** The attributes of the "my matchup" sensor agree with its state: they
    name an opponent and its points exactly when the state is a score, which
    then ends with those points, and the opponent is named by the
    roster-owner mapping (["Unknown"] for a roster id without entry); they
    hold no opponent when the state is absent or ["BYE"]; the week is
    always that of the season state. *)
Theorem my_matchup_attrs_agree (data : SleeperData.t) :
  attr_week (_my_matchup_attrs data)
  = NflState.week (SleeperData.nfl_state data) /\
  match opponent_points (_my_matchup_attrs data) with
  | Some p =>
      exists mine theirs,
        mine ∈ SleeperData.matchups data /\
        theirs ∈ SleeperData.matchups data /\
        Matchup.points theirs = p /\
        _my_matchup_state float_str data
        = Some (float_str (Matchup.points mine) ++ " - "
                ++ float_str (Matchup.points theirs))%string /\
        opponent_name (_my_matchup_attrs data)
        = Some match SleeperData.roster_to_user data
                       !! Matchup.roster_id theirs with
               | Some u => LeagueUser.display_name u
               | None => "Unknown"
               end
  | None =>
      opponent_name (_my_matchup_attrs data) = None /\
      (_my_matchup_state float_str data = None \/
       _my_matchup_state float_str data = Some "BYE")
  end.
Proof.
  unfold _my_matchup_attrs, _my_matchup_state.
  destruct (SleeperData.my_roster data) as [my_roster|]; simpl;
    [|by auto].
  destruct (find (fun m => Matchup.roster_id m =? Roster.roster_id my_roster)
                 (SleeperData.matchups data)) as [mine|] eqn:Hmine; simpl;
    [|by auto].
  destruct (Matchup.matchup_id mine) as [mid|]; simpl; [|by auto].
  destruct (find (fun m => has_matchup_id mid m && _)
                 (SleeperData.matchups data)) as [theirs|] eqn:Htheirs;
    simpl; [|by auto].
  split; [done|]. exists mine, theirs.
  apply find_some_split in Hmine as (? & ? & Hm & _).
  apply find_some_split in Htheirs as (? & ? & Ht & _).
  split; [rewrite Hm; set_solver|].
  split; [rewrite Ht; set_solver|]. done.
Qed.

End MatchupAttrsFacts.

Example my_matchup_attrs_sample :
  _my_matchup_attrs
    (SleeperData.build Sample.nfl_state Sample.league Sample.rosters
                       Sample.users Sample.matchups (Some "u1"))
  = {| opponent_name := Some "Bob";
       opponent_points := Some (Finite (88 # 1));
       attr_week := 5 |}.
Proof. vm_compute. reflexivity. Qed.
(* ===================================================================== *)
(** ** The entities of a config entry *)
(* ===================================================================== *)

Lemma int_str_inj (a b : Z) : int_str a = int_str b -> a = b.
Proof.
  unfold int_str. intros H.
  apply (f_equal NilEmpty.int_of_string) in H.
  rewrite !NilEmpty.isi in H. injection H as H.
  apply (f_equal Z.of_int) in H. by rewrite !DecimalZ.of_to in H.
Qed.

Lemma string_app_inj_r (s1 s2 t : string) :
  (s1 ++ t)%string = (s2 ++ t)%string -> s1 = s2.
Proof.
  revert s2. induction s1 as [| a s1 IH]; intros [| b s2] H; simpl in H.
  - done.
  - apply (f_equal String.length) in H.
    rewrite ?string_length_app in H. simpl in H.
    rewrite ?string_length_app in H. lia.
  - apply (f_equal String.length) in H.
    rewrite ?string_length_app in H. simpl in H.
    rewrite ?string_length_app in H. lia.
  - injection H as -> H. f_equal. by apply IH.
Qed.

Lemma roster_key_inj (a b : Z) : roster_key a = roster_key b -> a = b.
Proof.
  unfold roster_key. intros H.
  apply String.app_inj in H. apply string_app_inj_r in H.
  by apply int_str_inj.
Qed.

Lemma roster_key_not_fixed rid :
  roster_key rid ∉ LEAGUE_SENSORS ++ [DIAGNOSTIC_SENSOR] ++ MY_TEAM_SENSORS.
Proof.
  unfold roster_key, LEAGUE_SENSORS, DIAGNOSTIC_SENSOR, MY_TEAM_SENSORS.
  simpl. intros H.
  repeat (apply elem_of_cons in H as [H | H]; [discriminate|]).
  by apply elem_of_nil in H.
Qed.

Lemma filter_new_nil (rosters : list Roster.t) (known : gset Z) :
  filter (fun roster => Roster.roster_id roster ∉ known) rosters = [] <->
  forall r, r ∈ rosters -> Roster.roster_id r ∈ known.
Proof.
  induction rosters as [| r rosters IH].
  - split; [by intros _ r ?%elem_of_nil | done].
  - rewrite filter_cons. destruct (decide (Roster.roster_id r ∉ known)) as [Hn | Hy].
    + split; [discriminate|]. intros H. destruct Hn. apply H. by left.
    + rewrite IH. apply dec_stable in Hy. split.
      * intros H r' [-> | Hr']%elem_of_cons; auto.
      * intros H r' Hr'. apply H. by right.
Qed.

(** The listener for new rosters adds one entity for each roster of the
    snapshot whose id is not known yet, in the order of the rosters; it
    never forgets a known id; afterwards every roster id of the snapshot is
    known; and run again on the same snapshot it adds nothing. *)
Theorem check_new_rosters_invariants league_id data (known : gset Z) :
  map entity_key (_async_check_new_rosters league_id data known).1
  = map roster_key
        (filter (fun rid => rid ∉ known)
                (map Roster.roster_id (SleeperData.rosters data))) /\
  known ⊆ (_async_check_new_rosters league_id data known).2 /\
  (forall r, r ∈ SleeperData.rosters data ->
     Roster.roster_id r
       ∈ (_async_check_new_rosters league_id data known).2) /\
  _async_check_new_rosters league_id data
    (_async_check_new_rosters league_id data known).2
  = ([], (_async_check_new_rosters league_id data known).2).
Proof.
  assert (forall l : list Roster.t,
            map entity_key
              (map (fun roster =>
                      roster_entity data league_id (Roster.roster_id roster))
                   (filter (fun roster => Roster.roster_id roster ∉ known) l))
            = map roster_key
                (filter (fun rid => rid ∉ known) (map Roster.roster_id l)))
    as Hkeys.
  { induction l as [| r l IH]; [done|].
    change (map Roster.roster_id (r :: l))
      with (Roster.roster_id r :: map Roster.roster_id l).
    rewrite !filter_cons.
    destruct (decide (Roster.roster_id r ∉ known)); simpl; by rewrite IH. }
  assert (forall known' : gset Z,
            (forall r, r ∈ SleeperData.rosters data ->
                       Roster.roster_id r ∈ known') ->
            _async_check_new_rosters league_id data known' = ([], known'))
    as Hquiet.
  { intros known' Hall. unfold _async_check_new_rosters.
    by rewrite (proj2 (filter_new_nil _ _) Hall). }
  destruct (filter (fun roster => Roster.roster_id roster ∉ known)
                   (SleeperData.rosters data)) as [| r0 l0] eqn:Hf.
  - assert (_async_check_new_rosters league_id data known = ([], known))
      as ->.
    { unfold _async_check_new_rosters. by rewrite Hf. }
    simpl. pose proof (proj1 (filter_new_nil _ _) Hf) as Hall.
    split; [by rewrite <- Hkeys, Hf|]. split; [done|]. split; [done|].
    by apply Hquiet.
  - assert (_async_check_new_rosters league_id data known
            = (map (fun roster =>
                      roster_entity data league_id (Roster.roster_id roster))
                   (r0 :: l0),
               known ∪ list_to_set
                         (map Roster.roster_id (SleeperData.rosters data))))
      as ->.
    { unfold _async_check_new_rosters. by rewrite Hf. }
    assert (forall r, r ∈ SleeperData.rosters data ->
              Roster.roster_id r
                ∈ known ∪ list_to_set
                            (map Roster.roster_id (SleeperData.rosters data)))
      as Hall.
    { intros r Hr. apply elem_of_union. right.
      apply elem_of_list_to_set, list_elem_of_fmap. by exists r. }
    cbn [fst snd]. split; [by rewrite <- Hkeys, Hf|].
    split; [set_solver|]. split; [done|]. by apply Hquiet.
Qed.

(** The sensor platform sets up the two league sensors, the diagnostic
    sensor, one sensor per roster of the snapshot and, when a roster was
    found for the viewer, the four sensors of the viewer's team, in this
    order; the listener, run on the same snapshot, then adds nothing. *)
Theorem setup_entities league_id data :
  map entity_key (async_setup_entry league_id data).1
  = LEAGUE_SENSORS ++ [DIAGNOSTIC_SENSOR]
    ++ map roster_key (map Roster.roster_id (SleeperData.rosters data))
    ++ match SleeperData.my_roster data with
       | Some _ => MY_TEAM_SENSORS
       | None => []
       end /\
  (forall e, e ∈ (async_setup_entry league_id data).1 ->
             unique_id e = (league_id ++ "_" ++ entity_key e)%string) /\
  _async_check_new_rosters league_id data (async_setup_entry league_id data).2
  = ([], (async_setup_entry league_id data).2).
Proof.
  unfold async_setup_entry. simpl. split; [|split].
  - do 3 f_equal. rewrite map_app, !map_map. f_equal.
    by destruct (SleeperData.my_roster data).
  - intros e He.
    repeat (apply elem_of_cons in He as [-> | He]; [done|]).
    apply elem_of_app in He as [He | He].
    + by apply list_elem_of_fmap in He as (r & -> & _).
    + destruct (SleeperData.my_roster data); simpl in He.
      * repeat (apply elem_of_cons in He as [-> | He]; [done|]).
        by apply elem_of_nil in He.
      * by apply elem_of_nil in He.
  - unfold _async_check_new_rosters.
    assert (filter (fun roster =>
                      Roster.roster_id roster
                        ∉ (list_to_set
                             (map Roster.roster_id (SleeperData.rosters data))
                            : gset Z))
                   (SleeperData.rosters data) = []) as ->; [|done].
    apply filter_new_nil. intros r Hr.
    apply elem_of_list_to_set, list_elem_of_fmap. by exists r.
Qed.

(** When the rosters of the snapshot have distinct ids, the entities set up
    have distinct unique ids. *)
Theorem setup_unique_ids league_id data :
  NoDup (map Roster.roster_id (SleeperData.rosters data)) ->
  NoDup (map unique_id (async_setup_entry league_id data).1).
Proof.
  intros Hids.
  assert (map unique_id (async_setup_entry league_id data).1
          = map (fun key => league_id ++ "_" ++ key)%string
                (map entity_key (async_setup_entry league_id data).1)) as ->.
  { rewrite map_map. apply map_ext_in. intros e He%list_elem_of_In.
    unfold async_setup_entry in He. simpl in He.
    repeat (apply elem_of_cons in He as [-> | He]; [done|]).
    apply elem_of_app in He as [He | He].
    + by apply list_elem_of_fmap in He as (r & -> & _).
    + destruct (SleeperData.my_roster data); simpl in He.
      * repeat (apply elem_of_cons in He as [-> | He]; [done|]).
        by apply elem_of_nil in He.
      * by apply elem_of_nil in He. }
  assert (Inj (=) (=) (fun key => league_id ++ "_" ++ key)%string) as Hinj.
  { intros k1 k2 H. by do 2 apply String.app_inj in H. }
  apply (NoDup_fmap_2 (fun key => league_id ++ "_" ++ key)%string).
  assert (map entity_key (async_setup_entry league_id data).1
          = LEAGUE_SENSORS ++ [DIAGNOSTIC_SENSOR]
            ++ map roster_key (map Roster.roster_id (SleeperData.rosters data))
            ++ match SleeperData.my_roster data with
       | Some _ => MY_TEAM_SENSORS
       | None => []
       end)
    as ->.
  { unfold async_setup_entry. simpl. do 3 f_equal.
    rewrite map_app, !map_map. f_equal.
    by destruct (SleeperData.my_roster data). }
  assert (NoDup (map roster_key
                     (map Roster.roster_id (SleeperData.rosters data))))
    as Hkeys.
  { assert (Inj (=) (=) roster_key) as Hkey_inj.
    { intros a b. apply roster_key_inj. }
    by apply (NoDup_fmap_2 roster_key). }
  assert (forall k,
            k ∈ map roster_key
                  (map Roster.roster_id (SleeperData.rosters data)) ->
            k ∉ LEAGUE_SENSORS ++ [DIAGNOSTIC_SENSOR] ++ MY_TEAM_SENSORS)
    as Hfixed.
  { intros k (rid & -> & _)%list_elem_of_fmap. apply roster_key_not_fixed. }
  assert (NoDup (LEAGUE_SENSORS ++ [DIAGNOSTIC_SENSOR] ++ MY_TEAM_SENSORS))
    as Hnd.
  { unfold LEAGUE_SENSORS, DIAGNOSTIC_SENSOR, MY_TEAM_SENSORS. simpl.
    repeat (apply NoDup_cons; split;
            [intros H;
             repeat (apply elem_of_cons in H as [H | H]; [discriminate|]);
             by apply elem_of_nil in H|]).
    apply NoDup_nil_2. }
  unfold LEAGUE_SENSORS, DIAGNOSTIC_SENSOR, MY_TEAM_SENSORS in *.
  simpl in *.
  apply NoDup_cons in Hnd as [H1 Hnd]. apply NoDup_cons in Hnd as [H2 Hnd].
  apply NoDup_cons in Hnd as [H3 Hnd].
  apply NoDup_cons. split.
  { rewrite !elem_of_cons, elem_of_app. intros [H | [H | [H | H]]];
      try discriminate.
    - apply Hfixed in H. apply H. by left.
    - destruct (SleeperData.my_roster data); [|by apply elem_of_nil in H].
      apply H1. by do 2 right. }
  apply NoDup_cons. split.
  { rewrite !elem_of_cons, elem_of_app. intros [H | [H | H]];
      try discriminate.
    - apply Hfixed in H. apply H. right. by left.
    - destruct (SleeperData.my_roster data); [|by apply elem_of_nil in H].
      apply H2. by right. }
  apply NoDup_cons. split.
  { rewrite elem_of_app. intros [H | H].
    - apply Hfixed in H. apply H. do 2 right. by left.
    - destruct (SleeperData.my_roster data); [|by apply elem_of_nil in H].
      by apply H3. }
  apply NoDup_app. split; [done|]. split.
  - intros k Hk Hmy. apply (Hfixed k Hk).
    destruct (SleeperData.my_roster data); [|by apply elem_of_nil in Hmy].
    by do 3 right.
  - destruct (SleeperData.my_roster data); [done | apply NoDup_nil_2].
Qed.

Lemma setup_unique_ids_witness :
  NoDup (map Roster.roster_id Sample.rosters) /\
  NoDup (map unique_id
           (async_setup_entry "L1"
              (SleeperData.build Sample.nfl_state Sample.league
                 Sample.rosters Sample.users Sample.matchups (Some "u1"))).1).
Proof.
  assert (NoDup (map Roster.roster_id Sample.rosters)) as Hids.
  { simpl. repeat (apply NoDup_cons; split;
                   [intros H;
                    repeat (apply elem_of_cons in H as [H | H];
                            [discriminate|]);
                    by apply elem_of_nil in H|]).
    apply NoDup_nil_2. }
  split; [exact Hids|].
  apply (setup_unique_ids "L1"
           (SleeperData.build Sample.nfl_state Sample.league Sample.rosters
              Sample.users Sample.matchups (Some "u1"))).
  exact Hids.
Defined.

Example setup_entities_sample :
  map unique_id
    (async_setup_entry "L1"
       (SleeperData.build Sample.nfl_state Sample.league Sample.rosters
          Sample.users Sample.matchups None)).1
  = ["L1_league_status"; "L1_nfl_week"; "L1_last_updated";
     "L1_roster_1_record"; "L1_roster_2_record"; "L1_roster_3_record"].
Proof. vm_compute. reflexivity. Qed.
(* ===================================================================== *)
(** ** Redaction *)
(* ===================================================================== *)

(** Induction on data, with the hypothesis for every item of a list and
    every member of a dictionary. *)
Lemma Data_ind' (P : Data.t -> Prop) :
  (forall v, P (Data.Scalar v)) ->
  (forall items, Forall P items -> P (Data.List items)) ->
  (forall members, Forall (fun kv => P kv.2) members ->
                   P (Data.Dict members)) ->
  forall data, P data.
Proof.
  intros Hs Hl Hd.
  fix IH 1. intros [v | items | members].
  - apply Hs.
  - apply Hl. induction items as [| d items IHitems]; constructor.
    + apply IH.
    + apply IHitems.
  - apply Hd. induction members as [| [k d] members IHmembers]; constructor.
    + apply IH.
    + apply IHmembers.
Qed.

(** After redaction, every value held under a key of [REDACT_FIELDS], at
    any depth, is the marker ["**REDACTED**"]. *)
Theorem redact_complete data :
  Forall (fun value => value = REDACTED) (secrets (_redact data)).
Proof.
  induction data as [v | items IH | members IH] using Data_ind'; simpl.
  - constructor.
  - induction IH as [| d items Hd _ IHitems]; simpl; [constructor|].
    by apply Forall_app.
  - induction IH as [| [k d] members Hd _ IHmembers]; simpl; [constructor|].
    apply Forall_app. split; [|done].
    destruct (in_redact_fields k); [by repeat constructor | done].
Qed.

(** Redacting twice is redacting once. *)
Theorem redact_idempotent data : _redact (_redact data) = _redact data.
Proof.
  induction data as [v | items IH | members IH] using Data_ind'; simpl.
  - done.
  - f_equal. induction IH as [| d items Hd _ IHitems]; simpl; [done|].
    by rewrite Hd, IHitems.
  - f_equal.
    induction IH as [| [k d] members Hd _ IHmembers]; simpl; [done|].
    rewrite IHmembers. simpl in Hd.
    destruct (in_redact_fields k) eqn:Hk; by rewrite ?Hk, ?Hd.
Qed.

(** Redaction changes values only: the dictionaries keep their keys in
    their order, the lists keep their lengths, at every depth down to the
    redacted values. *)
Theorem redact_shape data : shape (_redact data) = shape data.
Proof.
  induction data as [v | items IH | members IH] using Data_ind'; simpl.
  - done.
  - f_equal. induction IH as [| d items Hd _ IHitems]; simpl; [done|].
    by rewrite Hd, IHitems.
  - f_equal.
    induction IH as [| [k d] members Hd _ IHmembers]; simpl; [done|].
    rewrite IHmembers. simpl in Hd.
    destruct (in_redact_fields k) eqn:Hk; by rewrite ?Hk, ?Hd.
Qed.

(** Data that holds nothing under a key of [REDACT_FIELDS] is returned as
    it is. *)
Theorem redact_nothing_to_hide data : secrets data = [] -> _redact data = data.
Proof.
  induction data as [v | items IH | members IH] using Data_ind'; simpl.
  - done.
  - intros Hs. f_equal.
    induction IH as [| d items Hd _ IHitems]; simpl in *; [done|].
    apply app_eq_nil in Hs as [Hs1 Hs2].
    by rewrite Hd, IHitems.
  - intros Hs. f_equal.
    induction IH as [| [k d] members Hd _ IHmembers]; simpl in *; [done|].
    apply app_eq_nil in Hs as [Hs1 Hs2].
    rewrite IHmembers by done.
    destruct (in_redact_fields k); [discriminate|]. by rewrite Hd.
Qed.

Lemma redact_nothing_to_hide_witness :
  secrets SampleData.league = [] /\
  _redact SampleData.league = SampleData.league.
Proof.
  split; [reflexivity|].
  apply (redact_nothing_to_hide SampleData.league). reflexivity.
Defined.

Example redact_sample :
  _redact SampleData.mapping
  = Data.Dict
      [(Data.KStr "users",
        Data.List
          [Data.Dict
             [(Data.KStr "user_id", REDACTED);
              (Data.KStr "display_name", Data.Scalar (Data.SStr "Ann"));
              (Data.KStr "team_name", Data.Scalar (Data.SStr "Aces"))]]);
       (Data.KStr "roster_to_user",
        Data.Dict
          [(Data.KInt 1, _redact SampleData.ann);
           (Data.KInt 2, _redact SampleData.ann)])] /\
  length (secrets SampleData.mapping) = 3%nat.
Proof. split; vm_compute; reflexivity. Qed.
(* ===================================================================== *)
(** ** The config flow *)
(* ===================================================================== *)

(** The data [_validate_input] starts from once the league is found. *)
Lemma league_only_lookup league_id league_name :
  let data : gmap string string :=
    <[CONF_USER_ID := ""]>
      (<[CONF_USERNAME := ""]>
         (<[CONF_LEAGUE_NAME := league_name]>
            {[CONF_LEAGUE_ID := league_id]})) in
  data !! CONF_LEAGUE_ID = Some league_id /\
  data !! CONF_LEAGUE_NAME = Some league_name /\
  data !! CONF_USERNAME = Some "" /\
  data !! CONF_USER_ID = Some "".
Proof.
  unfold CONF_LEAGUE_ID, CONF_LEAGUE_NAME, CONF_USERNAME, CONF_USER_ID.
  simpl. by simplify_map_eq.
Qed.

Lemma with_user_lookup league_id league_name username uid :
  let data : gmap string string :=
    <[CONF_USER_ID := uid]>
      (<[CONF_USERNAME := username]>
         (<[CONF_USER_ID := ""]>
            (<[CONF_USERNAME := ""]>
               (<[CONF_LEAGUE_NAME := league_name]>
                  {[CONF_LEAGUE_ID := league_id]})))) in
  data !! CONF_LEAGUE_ID = Some league_id /\
  data !! CONF_LEAGUE_NAME = Some league_name /\
  data !! CONF_USERNAME = Some username /\
  data !! CONF_USER_ID = Some uid.
Proof.
  unfold CONF_LEAGUE_ID, CONF_LEAGUE_NAME, CONF_USERNAME, CONF_USER_ID.
  simpl. by simplify_map_eq.
Qed.

Ltac flow_cases :=
  unfold _validate_input;
  repeat
    match goal with
    | |- context [match async_get_league ?c ?l with _ => _ end] =>
        destruct (async_get_league c l) as [[?|?] | ?] eqn:?
    | |- context [if truthy_str ?u then _ else _] =>
        destruct (truthy_str u) eqn:?
    | |- context [match ?g ?u with inl _ => _ | inr _ => _ end] =>
        destruct (g u) as [[?|?] | ?] eqn:?
    | |- context [match Py.get_method ?v with _ => _ end] =>
        destruct (Py.get_method v) as [? | ?] eqn:?
    | |- context [match async_get_users ?c ?l with _ => _ end] =>
        destruct (async_get_users c l) as [[?|?] | ?] eqn:?
    | |- context [match Py.get_default ?d ?k ?v with _ => _ end] =>
        destruct (Py.get_default d k v) eqn:?
    | |- context [bool_decide ?P] => destruct (bool_decide_reflect P)
    end.

(** What [_validate_input] has checked when it reports no error: the
    league exists; the data hold its id and its name and the user name
    entered; without a user name the user id is the empty string; with one,
    the user exists and the user id stored is the one of its payload (the
    empty string when the payload has none), which is the id of a user of
    the league. *)
Theorem validate_input_accepts client async_get_user league_id username data :
  _validate_input client async_get_user league_id username = inr (∅, data) ->
  exists league,
    async_get_league client league_id = inr league /\
    data !! CONF_LEAGUE_ID = Some league_id /\
    data !! CONF_LEAGUE_NAME = Some (LeagueInfo.name league) /\
    data !! CONF_USERNAME = Some username /\
    (username = "" -> data !! CONF_USER_ID = Some "") /\
    (username <> "" ->
     exists info users u,
       async_get_user username = inr (Py.Dict info) /\
       Py.get_default info "user_id" (Py.Str "")
       = Py.Str (LeagueUser.user_id u) /\
       async_get_users client league_id = inr users /\
       u ∈ users /\
       data !! CONF_USER_ID = Some (LeagueUser.user_id u)).
Proof.
  flow_cases; intros H; simplify_eq;
    try match goal with
        | H : {[_ := _]} = ∅ |- _ => by apply map_non_empty_singleton in H
        end.
  - (* a user name, of a user of the league *)
    match goal with H : truthy_str _ = true |- _ =>
      apply truthy_str_true in H end.
    match goal with H : _ ∈ map LeagueUser.user_id _ |- _ =>
      apply list_elem_of_fmap in H as (u & -> & Hu) end.
    match goal with H : Py.get_method ?v = inr _ |- _ =>
      destruct v; try discriminate; injection H as -> end.
    match goal with
    | |- context [<[CONF_LEAGUE_NAME := ?n]> _] =>
        destruct (with_user_lookup league_id n username
                    (LeagueUser.user_id u)) as (H1 & H2 & H3 & H4)
    end.
    eexists. split; [done|].
    split; [exact H1|]. split; [exact H2|]. split; [exact H3|].
    split; [done|]. intros _. by eexists _, _, u.
  - (* no user name *)
    match goal with H : truthy_str _ = false |- _ =>
      apply truthy_str_false in H as -> end.
    match goal with
    | |- context [<[CONF_LEAGUE_NAME := ?n]> _] =>
        destruct (league_only_lookup league_id n) as (H1 & H2 & H3 & H4)
    end.
    eexists. split; [done|].
    split; [exact H1|]. split; [exact H2|]. split; [exact H3|].
    split; [done|]. done.
Qed.

Lemma validate_input_accepts_witness :
  exists data,
    _validate_input Sample.api_up SampleFlow.async_get_user "L1" "ann"
    = inr (∅, data) /\
    data !! CONF_USER_ID = Some "u1" /\
    data !! CONF_LEAGUE_NAME = Some "Friends".
Proof.
  eexists. split; [reflexivity|].
  destruct (validate_input_accepts Sample.api_up SampleFlow.async_get_user
              "L1" "ann" _ eq_refl)
    as (league & [= <-] & _ & Hname & _ & _ & Huser).
  split; [|exact Hname].
  destruct Huser as (info & users & u & [= <-] & [= Hid] & _ & _ & Hu);
    [discriminate|].
  by rewrite Hu, <- Hid.
Defined.

(** [_validate_input] reports one error at a time, one of four, and the
    data it returns with an error never hold a user: they are empty, or
    hold the empty string as user name and as user id. *)
Theorem validate_input_reports
    client async_get_user league_id username errors data :
  _validate_input client async_get_user league_id username
  = inr (errors, data) ->
  errors <> ∅ ->
  (exists field code,
     errors = {[field := code]} /\ (field, code) ∈ flow_errors) /\
  (data = ∅ \/
   (data !! CONF_USERNAME = Some "" /\ data !! CONF_USER_ID = Some "")).
Proof.
  unfold flow_errors.
  flow_cases; intros H Hne; simplify_eq;
    (split;
     [eexists _, _; split; [reflexivity | set_solver]
     | first [ by left
             | right;
               match goal with
               | |- context [<[CONF_LEAGUE_NAME := ?n]> _] =>
                   destruct (league_only_lookup league_id n)
                     as (_ & _ & ? & ?)
               end; by split ]]).
Qed.

Lemma validate_input_reports_witness :
  _validate_input Sample.api_up SampleFlow.async_get_user "L1" "zed"
  = inr ({[CONF_USERNAME := "user_not_found"]},
         <[CONF_USER_ID := ""]>
           (<[CONF_USERNAME := ""]>
              (<[CONF_LEAGUE_NAME := "Friends"]>
                 {[CONF_LEAGUE_ID := "L1"]}))) /\
  (CONF_USERNAME, "user_not_found") ∈ flow_errors.
Proof.
  split; [reflexivity|].
  destruct (validate_input_reports Sample.api_up SampleFlow.async_get_user
              "L1" "zed" _ _ eq_refl)
    as [(field & code & Herr & Hin) _].
  { apply map_non_empty_singleton. }
  apply map_singleton_inj in Herr as [<- <-]. exact Hin.
Defined.

(** [_validate_input] raises, instead of reporting an error, in three
    cases, all with a user name entered, the league found and the user
    request answered: the payload of the user is not an object, and reading
    its user id raises [AttributeError]; or it is one, and the users of the
    league are reported as not found, an exception no clause catches; or
    the users are answered, and the user id of the payload cannot be
    hashed, which raises [TypeError]. *)
Theorem validate_input_raises
    client async_get_user league_id username league user_info :
  username <> "" ->
  async_get_league client league_id = inr league ->
  async_get_user username = inr user_info ->
  ((forall info, user_info <> Py.Dict info) ->
   _validate_input client async_get_user league_id username
   = inl (FlowPyError Py.AttributeError)) /\
  (forall info msg,
     user_info = Py.Dict info ->
     async_get_users client league_id = inl (SleeperApiNotFoundError msg) ->
     _validate_input client async_get_user league_id username
     = inl (FlowApiError (SleeperApiNotFoundError msg))) /\
  (forall info users,
     user_info = Py.Dict info ->
     async_get_users client league_id = inr users ->
     unhashable (Py.get_default info "user_id" (Py.Str "")) = true ->
     _validate_input client async_get_user league_id username
     = inl (FlowPyError Py.TypeError)).
Proof.
  intros Hne%truthy_str_true Hl Hv.
  unfold _validate_input. rewrite Hl, Hne, Hv.
  split; [|split].
  - intros Hnd. destruct user_info; try done. by destruct (Hnd d).
  - intros info msg -> Hu. simpl. by rewrite Hu.
  - intros info users -> Hu Hh. simpl. rewrite Hu.
    by destruct (Py.get_default info "user_id" (Py.Str "")).
Qed.

Lemma validate_input_raises_witness :
  _validate_input Sample.api_up (fun _ => inr Py.None_) "L1" "ann"
  = inl (FlowPyError Py.AttributeError) /\
  _validate_input Sample.api_up
    (fun _ => inr (Py.Dict [("user_id", Py.List [])])) "L1" "ann"
  = inl (FlowPyError Py.TypeError).
Proof.
  split.
  - apply (validate_input_raises
             Sample.api_up (fun _ => inr Py.None_) "L1" "ann"
             Sample.league Py.None_); done.
  - refine (proj2 (proj2 (validate_input_raises
             Sample.api_up
             (fun _ => inr (Py.Dict [("user_id", Py.List [])])) "L1" "ann"
             Sample.league (Py.Dict [("user_id", Py.List [])]) _ eq_refl
             eq_refl))
             [("user_id", Py.List [])] Sample.users eq_refl eq_refl
             eq_refl).
    done.
Defined.

(** The data [_validate_input] returns without error, key by key. *)
Lemma accepted_data client async_get_user league_id username data :
  _validate_input client async_get_user league_id username = inr (∅, data) ->
  exists league uid,
    async_get_league client league_id = inr league /\
    (username = "" -> uid = "") /\
    (uid <> "" ->
     exists users u,
       async_get_users client league_id = inr users /\
       u ∈ users /\ LeagueUser.user_id u = uid) /\
    forall k,
      data !! k
      = if decide (k = CONF_USER_ID) then Some uid
        else if decide (k = CONF_USERNAME) then Some username
        else if decide (k = CONF_LEAGUE_NAME)
             then Some (LeagueInfo.name league)
        else if decide (k = CONF_LEAGUE_ID) then Some league_id
        else None.
Proof.
  flow_cases; intros H; simplify_eq;
    try match goal with
        | H : {[_ := _]} = ∅ |- _ => by apply map_non_empty_singleton in H
        end.
  - match goal with H : truthy_str _ = true |- _ =>
      apply truthy_str_true in H end.
    match goal with H : _ ∈ map LeagueUser.user_id _ |- _ =>
      apply list_elem_of_fmap in H as (u & -> & Hu) end.
    eexists _, (LeagueUser.user_id u). split; [done|]. split; [done|].
    split; [intros _; by eexists _, u|].
    intros k. unfold CONF_USER_ID, CONF_USERNAME, CONF_LEAGUE_NAME,
      CONF_LEAGUE_ID.
    repeat case_decide; subst; by simplify_map_eq.
  - match goal with H : truthy_str _ = false |- _ =>
      apply truthy_str_false in H as -> end.
    eexists _, "". split; [done|]. split; [done|]. split; [done|].
    intros k. unfold CONF_USER_ID, CONF_USERNAME, CONF_LEAGUE_NAME,
      CONF_LEAGUE_ID.
    repeat case_decide; subst; by simplify_map_eq.
Qed.

(** The coordinator made from the data of an accepted entry polls the
    league that was validated; it has no viewer when no user name was
    entered; and the viewer it has, if any, is a user of the league as it
    was when the entry was validated, so that a snapshot built from these
    users finds the viewer. *)
Theorem accepted_entry_coordinator
    api client async_get_user league_id_entered username data :
  _validate_input client async_get_user league_id_entered username
  = inr (∅, data) ->
  exists coordinator,
    __init__ api data = Some coordinator /\
    league_id coordinator = league_id_entered /\
    (username = "" -> user_id coordinator = None) /\
    (forall uid,
       user_id coordinator = Some uid ->
       uid <> "" /\
       exists users,
         async_get_users client league_id_entered = inr users /\
         forall nfl_state league rosters matchups,
           exists u,
             u ∈ users /\ LeagueUser.user_id u = uid /\
             SleeperData.my_user
               (SleeperData.build nfl_state league rosters users matchups
                                  (Some uid))
             = Some u).
Proof.
  intros (league & uid & _ & Hnone & Hmember & Hdata)%accepted_data.
  unfold __init__.
  rewrite (Hdata CONF_LEAGUE_ID), (Hdata CONF_USER_ID). simpl.
  eexists. split; [reflexivity|]. simpl. split; [done|]. split.
  - intros ->%Hnone. done.
  - intros uid'. destruct (truthy_str uid) eqn:Ht; [|discriminate].
    intros [= <-]. apply truthy_str_true in Ht. split; [done|].
    destruct (Hmember Ht) as (users & u & Husers & Hu & Hid).
    exists users. split; [done|]. intros nfl_state lg rosters matchups.
    destruct (build_viewer_fields nfl_state lg rosters users matchups uid Ht)
      as [-> _].
    destruct (SleeperData.user_by_id_of users !! uid) as [u'|] eqn:Hl.
    + apply user_by_id_Some in Hl as [? ?]. by exists u'.
    + exfalso. by apply (proj1 (user_by_id_None users uid) Hl u Hu).
Qed.

Lemma accepted_entry_coordinator_witness :
  exists data coordinator,
    _validate_input Sample.api_up SampleFlow.async_get_user "L1" "ann"
    = inr (∅, data) /\
    __init__ Sample.api_up data = Some coordinator /\
    league_id coordinator = "L1".
Proof.
  eexists.
  destruct (accepted_entry_coordinator Sample.api_up Sample.api_up
              SampleFlow.async_get_user "L1" "ann" _ eq_refl)
    as (coordinator & Hinit & Hleague & _).
  exists coordinator. split; [reflexivity|]. split; [exact Hinit|].
  exact Hleague.
Defined.

(** A reconfiguration that goes through keeps the league id of the entry
    and every key of its data that the flow does not write, and replaces
    the user name by the one entered; with no user name entered, it leaves
    the entry without user id, so that the coordinator made from it has no
    viewer. *)
Theorem reconfigure_updates
    client async_get_user entry_data username data :
  async_step_reconfigure client async_get_user entry_data (Some username)
  = Some (inr (UpdateReloadAndAbort data)) ->
  data !! CONF_LEAGUE_ID = entry_data !! CONF_LEAGUE_ID /\
  data !! CONF_USERNAME = Some username /\
  (forall k,
     k ∉ [CONF_LEAGUE_ID; CONF_LEAGUE_NAME; CONF_USERNAME; CONF_USER_ID] ->
     data !! k = entry_data !! k) /\
  (username = "" ->
   data !! CONF_USER_ID = Some "" /\
   forall api coordinator,
     __init__ api data = Some coordinator -> user_id coordinator = None).
Proof.
  unfold async_step_reconfigure.
  destruct (entry_data !! CONF_LEAGUE_ID) as [lid|] eqn:Hlid; [|discriminate].
  destruct (_validate_input client async_get_user lid username)
    as [e | [errors validated]] eqn:Hv; [discriminate|].
  destruct (bool_decide_reflect (errors = ∅)) as [-> | Hne]; [|discriminate].
  intros [= <-].
  apply accepted_data in Hv as (league & uid & _ & Hnone & _ & Hdata).
  assert (forall k v, validated !! k = Some v ->
                      (validated ∪ entry_data) !! k = Some v) as Hl.
  { intros k v Hk. by apply lookup_union_Some_l. }
  split; [|split; [|split]].
  - apply Hl. by rewrite (Hdata CONF_LEAGUE_ID).
  - apply Hl. by rewrite (Hdata CONF_USERNAME).
  - intros k Hk. apply lookup_union_r. rewrite (Hdata k).
    repeat case_decide; subst; try done; destruct Hk; set_solver.
  - intros ->%Hnone.
    assert ((validated ∪ entry_data) !! CONF_USER_ID = Some "") as Hu.
    { apply Hl. by rewrite (Hdata CONF_USER_ID). }
    split; [done|]. intros api coordinator. unfold __init__. rewrite Hu.
    destruct ((validated ∪ entry_data) !! CONF_LEAGUE_ID); [|discriminate].
    by intros [= <-].
Qed.

Lemma reconfigure_updates_witness :
  exists data,
    async_step_reconfigure Sample.api_up SampleFlow.async_get_user
                           SampleFlow.entry_data (Some "ann")
    = Some (inr (UpdateReloadAndAbort data)) /\
    data !! CONF_LEAGUE_ID = Some "L1" /\
    data !! CONF_USERNAME = Some "ann".
Proof.
  eexists. split; [vm_compute; reflexivity|].
  destruct (reconfigure_updates Sample.api_up SampleFlow.async_get_user
              SampleFlow.entry_data "ann" _ eq_refl) as (H1 & H2 & _).
  split; [exact H1 | exact H2].
Defined.
(* ===================================================================== *)
(** ** The requests of the client *)
(* ===================================================================== *)

(** [_get] never returns [None]: a null response is raised as "not found"
    with the path in its message, a failed request as a connection error
    with the text of the failure, and any other response is returned as it
    is.  The refresh cycle reports either exception as [UpdateFailed], with
    a prefix of its own before the message of the client. *)
Theorem get_outcomes path response :
  _get path response <> inr Py.None_ /\
  (forall data,
     _get path response = inr data
     <-> response = Decoded data /\ data <> Py.None_) /\
  (exists e,
     _get path (Decoded Py.None_) = inl e /\
     error_message e = ("Resource not found: " ++ path)%string /\
     forall self : SleeperCoordinator,
       result (@translate_error SleeperData.t (Raised e) self)
       = inl (UpdateFailed
                ("Resource not found: Resource not found: " ++ path)%string))
  /\
  (forall err,
   exists e,
     _get path (RequestFailed err) = inl e /\
     error_message e = ("Error connecting to Sleeper API: " ++ err)%string /\
     forall self : SleeperCoordinator,
       result (@translate_error SleeperData.t (Raised e) self)
       = inl (UpdateFailed
                ("Error communicating with Sleeper API: "
                 ++ "Error connecting to Sleeper API: " ++ err)%string)).
Proof.
  split; [|split; [|split]].
  - by destruct response as [err | []].
  - intros data. split.
    + destruct response as [err | []]; simpl; intros [= <-]; by split.
    + intros [-> Hn]. by destruct data.
  - eexists. split; [reflexivity|]. by split.
  - intros err. eexists. split; [reflexivity|]. by split.
Qed.

Lemma comprehension_objects items :
  Forall (fun item => exists members, item = Py.Dict members) items ->
  exists matchups,
    comprehension matchup_of items = inr matchups /\
    length matchups = length items /\
    forall i members,
      items !! i = Some (Py.Dict members) ->
      exists m, matchups !! i = Some m /\
                MatchupObj.from_api members = inr m.
Proof.
  induction 1 as [| item items [members ->] _ (matchups & IH & Hlen & Hi)].
  - exists []. split; [done|]. split; [done|]. by intros i members ?.
  - simpl. rewrite IH. simpl. eexists. split; [reflexivity|].
    split; [simpl; by rewrite Hlen|].
    intros [| i] members'; simpl.
    + intros [= <-]. by eexists.
    + apply Hi.
Qed.

(** On a response that is a list of objects, [async_get_matchups] returns
    one matchup entry per object, in order, each the conversion of its
    object; on a null response it raises "not found", with the path of the
    league and the week. *)
Theorem get_matchups_of_objects league_id week items :
  Forall (fun item => exists members, item = Py.Dict members) items ->
  (exists matchups,
     async_get_matchups_of league_id week (Decoded (Py.List items))
     = inr matchups /\
     length matchups = length items /\
     forall i members,
       items !! i = Some (Py.Dict members) ->
       exists m, matchups !! i = Some m /\
                 MatchupObj.from_api members = inr m) /\
  async_get_matchups_of league_id week (Decoded Py.None_)
  = inl (ClientApiError
           (SleeperApiNotFoundError
              ("Resource not found: /league/" ++ league_id ++ "/matchups/"
               ++ int_str week)%string)).
Proof.
  intros (matchups & Hc & Hlen & Hi)%comprehension_objects. split; [|done].
  exists matchups. unfold async_get_matchups_of. simpl. by rewrite Hc.
Qed.

Lemma get_matchups_of_objects_witness :
  exists matchups,
    async_get_matchups_of "L1" 5
      (Decoded (Py.List [Py.Dict SamplePayload.matchup; Py.Dict []]))
    = inr matchups /\
    length matchups = 2%nat.
Proof.
  destruct (get_matchups_of_objects "L1" 5
              [Py.Dict SamplePayload.matchup; Py.Dict []])
    as [(matchups & Hm & Hlen & _) _].
  { repeat constructor; by eexists. }
  exists matchups. split; [exact Hm | exact Hlen].
Defined.

(** What is not a list of objects: a response that is an empty object or
    an empty string gives no matchup and no error, a number cannot be
    iterated, and an item that is not an object has no [get]. *)
Example get_matchups_malformed :
  async_get_matchups_of "L1" 5 (Decoded (Py.Dict [])) = inr [] /\
  async_get_matchups_of "L1" 5 (Decoded (Py.Str "")) = inr [] /\
  async_get_matchups_of "L1" 5 (Decoded (Py.Int 0))
  = inl (ClientPyError Py.TypeError) /\
  async_get_matchups_of "L1" 5 (Decoded (Py.List [Py.Int 1]))
  = inl (ClientPyError Py.AttributeError).
Proof. repeat split. Qed.
